(** * Tennis ranking: the in-memory store and the match-approval ledger update

    A shallow embedding of [server/storage.ts] (class [MemStorage]) and of the
    two match routes of [server/routes.ts], followed by the properties of the
    ranking ledger proved about them.

    Conventions of the embedding:
    - a JavaScript [number] that the schema declares [integer] is a [Z];
    - a [Map<number, V>] is an association list in insertion order, which is
      the order [Map.prototype.values] iterates in;
    - an optional field ([T | undefined | null]) is an [option T];
    - an [async] method of [MemStorage] is a function in the state monad
      [Async] over the record of the five maps and five counters; [await] is
      the monad's bind.  A request handler runs to completion without another
      handler in between, since no [await] of the store waits on I/O. *)

From Stdlib Require Import ZArith List String Bool Lia Sorted Permutation.
Import ListNotations.
Local Open Scope Z_scope.

Set Implicit Arguments.

(** ** JavaScript [Map] keyed by numbers *)

Module JSMap.
Section Defs.
Variable V : Type.

Definition t := list (Z * V).

Definition empty : t := [].

(** [Map.prototype.get] *)
Fixpoint get (k : Z) (m : t) : option V :=
  match m with
  | [] => None
  | (k', v) :: m' => if k =? k' then Some v else get k m'
  end.

(** [Map.prototype.set]: an existing key keeps its place in the iteration
    order, a new key goes last. *)
Fixpoint set (k : Z) (v : V) (m : t) : t :=
  match m with
  | [] => [(k, v)]
  | (k', v') :: m' =>
      if k =? k' then (k, v) :: m' else (k', v') :: set k v m'
  end.

(** [Map.prototype.delete], with the boolean it returns. *)
Fixpoint delete (k : Z) (m : t) : bool * t :=
  match m with
  | [] => (false, [])
  | (k', v') :: m' =>
      if k =? k' then (true, m')
      else let '(b, r) := delete k m' in (b, (k', v') :: r)
  end.

(** [Array.from(m.values())] *)
Definition values (m : t) : list V := map snd m.

Definition keys (m : t) : list Z := map fst m.

(** What makes an association list a [Map] of records that carry their own
    key: no key occurs twice, every record is stored under its [id], and the
    auto-increment counter [next] is above every key in use. *)
Fixpoint keys_below (next : Z) (m : t) : bool :=
  match m with
  | [] => true
  | (k, _) :: m' => (k <? next) && keys_below next m'
  end.

Fixpoint keyed_by (idof : V -> Z) (m : t) : bool :=
  match m with
  | [] => true
  | (k, v) :: m' => (idof v =? k) && keyed_by idof m'
  end.

Fixpoint distinct_keys (m : t) : bool :=
  match m with
  | [] => true
  | (k, _) :: m' =>
      match get k m' with
      | Some _ => false
      | None => distinct_keys m'
      end
  end.

Definition wf (idof : V -> Z) (next : Z) (m : t) : bool :=
  distinct_keys m && keyed_by idof m && keys_below next m.
End Defs.
End JSMap.

(** ** Data model ([shared/schema.ts]) *)

(** [playerCategoryEnum]: ['C', 'B', 'A', 'S', 'SS']. *)
Inductive Category : Type := CatC | CatB | CatA | CatS | CatSS.

Definition category_name (c : Category) : string :=
  match c with
  | CatC => "C" | CatB => "B" | CatA => "A" | CatS => "S" | CatSS => "SS"
  end%string.

(** [===] on two categories. *)
Definition category_eqb (a b : Category) : bool :=
  match a, b with
  | CatC, CatC | CatB, CatB | CatA, CatA | CatS, CatS | CatSS, CatSS => true
  | _, _ => false
  end.

(** [matchStatusEnum]: ['pending', 'approved', 'rejected']. *)
Inductive MatchStatus : Type := pending | approved | rejected.

(** [userRoleEnum]: ['player', 'admin']. *)
Inductive UserRole : Type := player | admin.

Module User.
Record t : Type := mk
  { id : Z;
    username : string;
    password : string;
    fullName : string;
    email : string;
    photoUrl : option string;
    role : UserRole;
    suspendedUntil : option Z (* a timestamp, in milliseconds *) }.
End User.

Module Ranking.
Record t : Type := mk
  { id : Z;
    name : string;
    description : option string;
    isPublic : bool;
    requiresValidation : bool;
    createdById : Z }.
End Ranking.

(** A row of [player_rankings]: the ledger entry of a player in a ranking. *)
Module PlayerRanking.
Record t : Type := mk
  { id : Z;
    playerId : Z;
    rankingId : Z;
    category : Category;
    points : Z;
    wins : Z;
    losses : Z }.
End PlayerRanking.

(** [InsertPlayerRanking]: a ledger entry without its [id]. *)
Module InsertPlayerRanking.
Record t : Type := mk
  { playerId : Z;
    rankingId : Z;
    category : Category;
    points : Z;
    wins : Z;
    losses : Z }.
End InsertPlayerRanking.

(** [Partial<PlayerRanking>]: the fields an update carries. *)
Module PartialPlayerRanking.
Record t : Type := mk
  { id : option Z;
    playerId : option Z;
    rankingId : option Z;
    category : option Category;
    points : option Z;
    wins : option Z;
    losses : option Z }.

Definition none : t := mk None None None None None None None.
End PartialPlayerRanking.

Module Location.
Record t : Type := mk
  { id : Z;
    name : string;
    address : option string;
    coordinates : option (Z * Z);
    createdById : Z }.
End Location.

Module SetScore.
Record t : Type := mk { player1Score : Z; player2Score : Z }.
End SetScore.

Module Score.
Record t : Type := mk
  { sets : list SetScore.t;
    tiebreak : option SetScore.t }.
End Score.

Module Match.
Record t : Type := mk
  { id : Z;
    rankingId : Z;
    player1Id : Z;
    player2Id : Z;
    locationId : option Z;
    locationName : option string;
    photoUrl : option string;
    status : option MatchStatus;
    rejectionReason : option string;
    playedAt : option Z;
    createdAt : option Z;
    score : Score.t }.
End Match.

(** [InsertMatch]: [insertMatchSchema] omits [id] and [createdAt]; the columns
    with a default ([status], [playedAt]) and the nullable ones are optional. *)
Module InsertMatch.
Record t : Type := mk
  { rankingId : Z;
    player1Id : Z;
    player2Id : Z;
    locationId : option Z;
    locationName : option string;
    photoUrl : option string;
    status : option MatchStatus;
    rejectionReason : option string;
    playedAt : option Z;
    score : Score.t }.
End InsertMatch.

(** [PlayerWithRanking]: a row of the ranking table. *)
Module PlayerWithRanking.
Record t : Type := mk
  { playerId : Z;
    username : string;
    fullName : string;
    photoUrl : option string;
    category : Category;
    points : Z;
    position : Z;
    wins : Z;
    losses : Z;
    isCurrentUser : bool }.
End PlayerWithRanking.

(** ** The store ([class MemStorage]) *)

Record MemStorage : Type := mkStorage
  { users : JSMap.t User.t;
    rankings : JSMap.t Ranking.t;
    playerRankings : JSMap.t PlayerRanking.t;
    locations : JSMap.t Location.t;
    matches : JSMap.t Match.t;
    userIdCounter : Z;
    rankingIdCounter : Z;
    playerRankingIdCounter : Z;
    locationIdCounter : Z;
    matchIdCounter : Z }.

Definition set_playerRankings (f : JSMap.t PlayerRanking.t -> JSMap.t PlayerRanking.t)
    (s : MemStorage) : MemStorage :=
  mkStorage (users s) (rankings s) (f (playerRankings s)) (locations s)
    (matches s) (userIdCounter s) (rankingIdCounter s)
    (playerRankingIdCounter s) (locationIdCounter s) (matchIdCounter s).

Definition set_playerRankingIdCounter (n : Z) (s : MemStorage) : MemStorage :=
  mkStorage (users s) (rankings s) (playerRankings s) (locations s)
    (matches s) (userIdCounter s) (rankingIdCounter s) n
    (locationIdCounter s) (matchIdCounter s).

Definition set_matches (f : JSMap.t Match.t -> JSMap.t Match.t)
    (s : MemStorage) : MemStorage :=
  mkStorage (users s) (rankings s) (playerRankings s) (locations s)
    (f (matches s)) (userIdCounter s) (rankingIdCounter s)
    (playerRankingIdCounter s) (locationIdCounter s) (matchIdCounter s).

Definition set_matchIdCounter (n : Z) (s : MemStorage) : MemStorage :=
  mkStorage (users s) (rankings s) (playerRankings s) (locations s)
    (matches s) (userIdCounter s) (rankingIdCounter s)
    (playerRankingIdCounter s) (locationIdCounter s) n.

(** *** The monad of the [async] methods *)

Definition Async (A : Type) : Type := MemStorage -> A * MemStorage.

Definition ret {A : Type} (a : A) : Async A := fun s => (a, s).

Definition bind {A B : Type} (c : Async A) (k : A -> Async B) : Async B :=
  fun s => let '(a, s') := c s in k a s'.

Declare Scope async_scope.
Delimit Scope async_scope with async.
Notation "x <- c ;; k" := (bind c (fun x => k))
  (at level 61, c at next level, right associativity) : async_scope.
Notation "c ;; k" := (bind c (fun _ => k))
  (at level 61, right associativity) : async_scope.
Local Open Scope async_scope.

Definition result {A : Type} (c : Async A) (s : MemStorage) : A := fst (c s).
Definition after {A : Type} (c : Async A) (s : MemStorage) : MemStorage := snd (c s).

Definition gets {A : Type} (f : MemStorage -> A) : Async A := fun s => (f s, s).
Definition modify (f : MemStorage -> MemStorage) : Async unit := fun s => (tt, f s).

(** *** JavaScript idioms used by the store *)

(** [o.f] when the spread [{...x, ...o}] carries [f], the field of [x] otherwise. *)
Definition spread {A : Type} (old : A) (o : option A) : A :=
  match o with Some a => a | None => old end.

(** [r || d] on an optional string: the empty string is falsy. *)
Definition string_or (r : option string) (d : string) : string :=
  match r with
  | Some x => if String.eqb x EmptyString then d else x
  | None => d
  end.

(** [Array.prototype.sort(cmp)]: the sort is stable (ECMAScript 2019); [a]
    stays before [b] unless [cmp a b > 0].  Insertion from the right end. *)
Section ArraySort.
Variable A : Type.
Variable cmp : A -> A -> Z.

Fixpoint sort_insert (x : A) (l : list A) : list A :=
  match l with
  | [] => [x]
  | y :: l' => if cmp x y <=? 0 then x :: y :: l' else y :: sort_insert x l'
  end.

Fixpoint array_sort (l : list A) : list A :=
  match l with
  | [] => []
  | x :: l' => sort_insert x (array_sort l')
  end.
End ArraySort.

(** *** Player Ranking operations *)

(** [getPlayerRanking] (storage.ts 154-158): the first entry, in insertion
    order, of that player in that ranking. *)
Definition is_entry_of (playerId rankingId : Z) (pr : PlayerRanking.t) : bool :=
  (PlayerRanking.playerId pr =? playerId) && (PlayerRanking.rankingId pr =? rankingId).

Definition getPlayerRanking (playerId rankingId : Z) : Async (option PlayerRanking.t) :=
  gets (fun s => find (is_entry_of playerId rankingId) (JSMap.values (playerRankings s))).

(** [createPlayerRanking] (storage.ts 160-165) *)
Definition createPlayerRanking (insertPlayerRanking : InsertPlayerRanking.t)
    : Async PlayerRanking.t :=
  id <- gets playerRankingIdCounter ;;
  modify (set_playerRankingIdCounter (id + 1)) ;;
  let playerRanking :=
    PlayerRanking.mk id
      (InsertPlayerRanking.playerId insertPlayerRanking)
      (InsertPlayerRanking.rankingId insertPlayerRanking)
      (InsertPlayerRanking.category insertPlayerRanking)
      (InsertPlayerRanking.points insertPlayerRanking)
      (InsertPlayerRanking.wins insertPlayerRanking)
      (InsertPlayerRanking.losses insertPlayerRanking) in
  modify (set_playerRankings (JSMap.set id playerRanking)) ;;
  ret playerRanking.

(** [{ ...playerRanking, ...data }] *)
Definition merge_playerRanking (pr : PlayerRanking.t) (data : PartialPlayerRanking.t)
    : PlayerRanking.t :=
  PlayerRanking.mk
    (spread (PlayerRanking.id pr) (PartialPlayerRanking.id data))
    (spread (PlayerRanking.playerId pr) (PartialPlayerRanking.playerId data))
    (spread (PlayerRanking.rankingId pr) (PartialPlayerRanking.rankingId data))
    (spread (PlayerRanking.category pr) (PartialPlayerRanking.category data))
    (spread (PlayerRanking.points pr) (PartialPlayerRanking.points data))
    (spread (PlayerRanking.wins pr) (PartialPlayerRanking.wins data))
    (spread (PlayerRanking.losses pr) (PartialPlayerRanking.losses data)).

(** [updatePlayerRanking] (storage.ts 167-174) *)
Definition updatePlayerRanking (id : Z) (data : PartialPlayerRanking.t)
    : Async (option PlayerRanking.t) :=
  playerRanking <- gets (fun s => JSMap.get id (playerRankings s)) ;;
  match playerRanking with
  | None => ret None
  | Some playerRanking =>
      let updatedPlayerRanking := merge_playerRanking playerRanking data in
      modify (set_playerRankings (JSMap.set id updatedPlayerRanking)) ;;
      ret (Some updatedPlayerRanking)
  end.

(** The two shapes of [data] the ledger update passes:
    [{ points, wins, losses }] and [{ category }]. *)
Definition data_points_wins_losses (points wins losses : Z) : PartialPlayerRanking.t :=
  PartialPlayerRanking.mk None None None None (Some points) (Some wins) (Some losses).

Definition data_category (c : Category) : PartialPlayerRanking.t :=
  PartialPlayerRanking.mk None None None (Some c) None None None.

(** [getRankingPlayers] (storage.ts 176-211).  [category] is the optional
    query string; an absent or empty one does not filter. *)
Fixpoint push_rows (us : JSMap.t User.t) (i : Z) (l : list PlayerRanking.t)
    : list PlayerWithRanking.t :=
  match l with
  | [] => []
  | pr :: l' =>
      match JSMap.get (PlayerRanking.playerId pr) us with
      | Some user =>
          PlayerWithRanking.mk (User.id user) (User.username user)
            (User.fullName user) (User.photoUrl user)
            (PlayerRanking.category pr) (PlayerRanking.points pr)
            (i + 1)
            (PlayerRanking.wins pr) (PlayerRanking.losses pr) false
          :: push_rows us (i + 1) l'
      | None => push_rows us (i + 1) l'
      end
  end.

Definition truthy (s : option string) : bool :=
  match s with
  | Some x => negb (String.eqb x EmptyString)
  | None => false
  end.

Definition getRankingPlayers (rankingId : Z) (category : option string)
    : Async (list PlayerWithRanking.t) :=
  us <- gets users ;;
  all <- gets (fun s => JSMap.values (playerRankings s)) ;;
  let playerRankingsInRanking :=
    filter (fun pr => PlayerRanking.rankingId pr =? rankingId) all in
  let playerRankingsInRanking :=
    if truthy category then
      filter (fun pr => String.eqb (category_name (PlayerRanking.category pr))
                          (string_or category EmptyString))
        playerRankingsInRanking
    else playerRankingsInRanking in
  let playerRankingsInRanking :=
    array_sort (fun a b => PlayerRanking.points b - PlayerRanking.points a)
      playerRankingsInRanking in
  ret (push_rows us 0 playerRankingsInRanking).

(** *** Match operations *)

(** [createMatch] (storage.ts 243-248): [{ ...insertMatch, id }]; no
    [createdAt] is set. *)
Definition createMatch (insertMatch : InsertMatch.t) : Async Match.t :=
  id <- gets matchIdCounter ;;
  modify (set_matchIdCounter (id + 1)) ;;
  let match_ :=
    Match.mk id
      (InsertMatch.rankingId insertMatch)
      (InsertMatch.player1Id insertMatch)
      (InsertMatch.player2Id insertMatch)
      (InsertMatch.locationId insertMatch)
      (InsertMatch.locationName insertMatch)
      (InsertMatch.photoUrl insertMatch)
      (InsertMatch.status insertMatch)
      (InsertMatch.rejectionReason insertMatch)
      (InsertMatch.playedAt insertMatch)
      None
      (InsertMatch.score insertMatch) in
  modify (set_matches (JSMap.set id match_)) ;;
  ret match_.

(** [getRanking] (storage.ts 136-138) and [getMatch] (storage.ts 250-252) *)
Definition getRanking (id : Z) : Async (option Ranking.t) :=
  gets (fun s => JSMap.get id (rankings s)).

Definition getMatch (id : Z) : Async (option Match.t) :=
  gets (fun s => JSMap.get id (matches s)).

(** *** The score evaluator (storage.ts 389-401)

    The loop over [match.score.sets] threads the two counters
    [(player1Sets, player2Sets)]. *)
Definition count_set (acc : Z * Z) (set : SetScore.t) : Z * Z :=
  let '(player1Sets, player2Sets) := acc in
  if SetScore.player1Score set >? SetScore.player2Score set then
    (player1Sets + 1, player2Sets)
  else if SetScore.player2Score set >? SetScore.player1Score set then
    (player1Sets, player2Sets + 1)
  else (player1Sets, player2Sets).

Definition player1IsWinner (score : Score.t) : bool :=
  let '(player1Sets, player2Sets) := fold_left count_set (Score.sets score) (0, 0) in
  player1Sets >? player2Sets.

(** *** The ledger update (storage.ts 387-465)

    [update_player1] is the statement of lines 407-435, [update_player2] the
    one of lines 437-464; both read the entry fetched at lines 404-405. *)
Definition update_player1 (match_ : Match.t) (player1IsWinner : bool)
    (player1Ranking : option PlayerRanking.t) : Async unit :=
  match player1Ranking with
  | None =>
      createPlayerRanking
        (InsertPlayerRanking.mk (Match.player1Id match_) (Match.rankingId match_)
           CatC
           (if player1IsWinner then 10 else 0)
           (if player1IsWinner then 1 else 0)
           (if player1IsWinner then 0 else 1)) ;;
      ret tt
  | Some player1Ranking =>
      let points := PlayerRanking.points player1Ranking + (if player1IsWinner then 10 else 0) in
      let wins := PlayerRanking.wins player1Ranking + (if player1IsWinner then 1 else 0) in
      let losses := PlayerRanking.losses player1Ranking + (if player1IsWinner then 0 else 1) in
      updatePlayerRanking (PlayerRanking.id player1Ranking)
        (data_points_wins_losses points wins losses) ;;
      if (points >=? 1000) && negb (category_eqb (PlayerRanking.category player1Ranking) CatSS) then
        updatePlayerRanking (PlayerRanking.id player1Ranking) (data_category CatSS) ;; ret tt
      else if (points >=? 500) && negb (category_eqb (PlayerRanking.category player1Ranking) CatS)
                && negb (category_eqb (PlayerRanking.category player1Ranking) CatSS) then
        updatePlayerRanking (PlayerRanking.id player1Ranking) (data_category CatS) ;; ret tt
      else if (points >=? 250) && category_eqb (PlayerRanking.category player1Ranking) CatC then
        updatePlayerRanking (PlayerRanking.id player1Ranking) (data_category CatB) ;; ret tt
      else if (points >=? 100) && category_eqb (PlayerRanking.category player1Ranking) CatB then
        updatePlayerRanking (PlayerRanking.id player1Ranking) (data_category CatA) ;; ret tt
      else ret tt
  end.

Definition update_player2 (match_ : Match.t) (player1IsWinner : bool)
    (player2Ranking : option PlayerRanking.t) : Async unit :=
  match player2Ranking with
  | None =>
      createPlayerRanking
        (InsertPlayerRanking.mk (Match.player2Id match_) (Match.rankingId match_)
           CatC
           (if player1IsWinner then 0 else 10)
           (if player1IsWinner then 0 else 1)
           (if player1IsWinner then 1 else 0)) ;;
      ret tt
  | Some player2Ranking =>
      let points := PlayerRanking.points player2Ranking + (if player1IsWinner then 0 else 10) in
      let wins := PlayerRanking.wins player2Ranking + (if player1IsWinner then 0 else 1) in
      let losses := PlayerRanking.losses player2Ranking + (if player1IsWinner then 1 else 0) in
      updatePlayerRanking (PlayerRanking.id player2Ranking)
        (data_points_wins_losses points wins losses) ;;
      if (points >=? 1000) && negb (category_eqb (PlayerRanking.category player2Ranking) CatSS) then
        updatePlayerRanking (PlayerRanking.id player2Ranking) (data_category CatSS) ;; ret tt
      else if (points >=? 500) && negb (category_eqb (PlayerRanking.category player2Ranking) CatS)
                && negb (category_eqb (PlayerRanking.category player2Ranking) CatSS) then
        updatePlayerRanking (PlayerRanking.id player2Ranking) (data_category CatS) ;; ret tt
      else if (points >=? 250) && category_eqb (PlayerRanking.category player2Ranking) CatC then
        updatePlayerRanking (PlayerRanking.id player2Ranking) (data_category CatB) ;; ret tt
      else if (points >=? 100) && category_eqb (PlayerRanking.category player2Ranking) CatB then
        updatePlayerRanking (PlayerRanking.id player2Ranking) (data_category CatA) ;; ret tt
      else ret tt
  end.

Definition updatePlayerRankingsForMatch (match_ : Match.t) : Async unit :=
  let player1IsWinner := player1IsWinner (Match.score match_) in
  player1Ranking <- getPlayerRanking (Match.player1Id match_) (Match.rankingId match_) ;;
  player2Ranking <- getPlayerRanking (Match.player2Id match_) (Match.rankingId match_) ;;
  update_player1 match_ player1IsWinner player1Ranking ;;
  update_player2 match_ player1IsWinner player2Ranking.

(** *** [validateMatch] (storage.ts 365-384) *)
Definition no_reason_provided : string := "No reason provided".

Definition validateMatch (matchId : Z) (isApproved : bool) (rejectionReason : option string)
    : Async (option Match.t) :=
  match_ <- gets (fun s => JSMap.get matchId (matches s)) ;;
  match match_ with
  | None => ret None
  | Some match_ =>
      let status := if isApproved then approved else rejected in
      let updatedMatch :=
        Match.mk (Match.id match_) (Match.rankingId match_)
          (Match.player1Id match_) (Match.player2Id match_)
          (Match.locationId match_) (Match.locationName match_)
          (Match.photoUrl match_)
          (Some status)
          (if isApproved then None
           else Some (string_or rejectionReason no_reason_provided))
          (Match.playedAt match_) (Match.createdAt match_)
          (Match.score match_) in
      modify (set_matches (JSMap.set matchId updatedMatch)) ;;
      (if isApproved then updatePlayerRankingsForMatch updatedMatch else ret tt) ;;
      ret (Some updatedMatch)
  end.

(** ** The match routes ([server/routes.ts]) *)

(** What a handler sends: a status code and a JSON body.  The suspension
    message embeds a localised date, kept here as the timestamp it prints. *)
Inductive Body : Type :=
| body_match (m : Match.t)
| body_message (message : string)
| body_suspended (until : Z).

Module Response.
Record t : Type := mk { status : Z; body : Body }.
End Response.

(** [user.suspendedUntil && new Date(user.suspendedUntil) > new Date()] *)
Definition is_suspended (user : User.t) (now : Z) : bool :=
  match User.suspendedUntil user with
  | Some until => until >? now
  | None => false
  end.

Definition role_eqb (a b : UserRole) : bool :=
  match a, b with
  | player, player | admin, admin => true
  | _, _ => false
  end.

Definition with_player1Id (matchData : InsertMatch.t) (player1Id : Z) : InsertMatch.t :=
  InsertMatch.mk (InsertMatch.rankingId matchData) player1Id
    (InsertMatch.player2Id matchData) (InsertMatch.locationId matchData)
    (InsertMatch.locationName matchData) (InsertMatch.photoUrl matchData)
    (InsertMatch.status matchData) (InsertMatch.rejectionReason matchData)
    (InsertMatch.playedAt matchData) (InsertMatch.score matchData).

Definition with_status (matchData : InsertMatch.t) (status : MatchStatus) : InsertMatch.t :=
  InsertMatch.mk (InsertMatch.rankingId matchData) (InsertMatch.player1Id matchData)
    (InsertMatch.player2Id matchData) (InsertMatch.locationId matchData)
    (InsertMatch.locationName matchData) (InsertMatch.photoUrl matchData)
    (Some status) (InsertMatch.rejectionReason matchData)
    (InsertMatch.playedAt matchData) (InsertMatch.score matchData).

(** [POST /api/matches] (routes.ts 421-470).  [req_user] is the session's user
    ([isAuthenticated] answers 401 without one), [now] the clock read by
    [new Date()], and [parsed] what [validateRequest(insertMatchSchema,
    req.body)] gives: the parsed data, or the message of the error it throws,
    which the handler's [catch] turns into a 400.  The schema makes
    [player1Id] a required integer, so [!matchData.player1Id] holds exactly
    when it is 0. *)
Definition post_api_matches (req_user : option User.t) (now : Z)
    (parsed : string + InsertMatch.t) : Async Response.t :=
  match req_user with
  | None => ret (Response.mk 401 (body_message "Unauthorized"))
  | Some user =>
    match parsed with
    | inl message => ret (Response.mk 400 (body_message message))
    | inr matchData =>
      if is_suspended user now then
        ret (Response.mk 403
               (body_suspended (spread 0 (User.suspendedUntil user))))
      else
        let resolved :=
          if InsertMatch.player1Id matchData =? 0 then
            Some (with_player1Id matchData (User.id user))
          else if negb (InsertMatch.player1Id matchData =? User.id user)
                    && negb (role_eqb (User.role user) admin) then
            None
          else Some matchData in
        match resolved with
        | None =>
            ret (Response.mk 403 (body_message "You can only record your own matches"))
        | Some matchData =>
          if InsertMatch.player1Id matchData =? InsertMatch.player2Id matchData then
            ret (Response.mk 400 (body_message "You cannot play against yourself"))
          else
            ranking <- getRanking (InsertMatch.rankingId matchData) ;;
            match ranking with
            | None => ret (Response.mk 404 (body_message "Ranking not found"))
            | Some ranking =>
              let matchData :=
                if Ranking.requiresValidation ranking
                then with_status matchData pending
                else with_status matchData approved in
              match_ <- createMatch matchData ;;
              (match Match.status match_ with
               | Some approved => validateMatch (Match.id match_) true None ;; ret tt
               | _ => ret tt
               end) ;;
              ret (Response.mk 201 (body_match match_))
            end
        end
    end
  end.

(** [POST /api/admin/validate-match/:id] (routes.ts 532-550).  [approved_] is
    the body's [approved], [None] when it is not a boolean. *)
Definition post_api_admin_validate_match (req_user : option User.t) (matchId : Z)
    (approved_ : option bool) (rejectionReason : option string) : Async Response.t :=
  match req_user with
  | Some user =>
    if role_eqb (User.role user) admin then
      match approved_ with
      | None => ret (Response.mk 400 (body_message "Approved status is required"))
      | Some approved_ =>
          updatedMatch <- validateMatch matchId approved_ rejectionReason ;;
          match updatedMatch with
          | None => ret (Response.mk 404 (body_message "Match not found"))
          | Some updatedMatch => ret (Response.mk 200 (body_match updatedMatch))
          end
      end
    else ret (Response.mk 403 (body_message "Forbidden: Admin access required"))
  | None => ret (Response.mk 403 (body_message "Forbidden: Admin access required"))
  end.

(** ** Well-formed stores

    The ledger map of every store the routes can reach: [createPlayerRanking]
    stores each entry under a fresh [id] taken from the counter, and the only
    updates the server makes ([{ points, wins, losses }] and [{ category }])
    leave [id] alone. *)
Definition store_ok (s : MemStorage) : bool :=
  JSMap.wf PlayerRanking.id (playerRankingIdCounter s) (playerRankings s).

(** The stored matches all oppose two distinct players: [POST /api/matches]
    is the only route that stores one, and it refuses the others. *)
Definition distinct_players (m : Match.t) : bool :=
  negb (Match.player1Id m =? Match.player2Id m).

Definition matches_ok (s : MemStorage) : bool :=
  forallb distinct_players (JSMap.values (matches s)).

Definition server_ok (s : MemStorage) : bool := store_ok s && matches_ok s.

(** Users are stored under their own [id] ([createUser], [updateUser] with
    [{ photoUrl }], [suspendPlayer]). *)
Definition users_ok (s : MemStorage) : bool :=
  JSMap.keyed_by User.id (users s).

(** ** The specification's words *)

(** The category decision tree of the ledger (four branches, in order). *)
Definition promote (points : Z) (category : Category) : Category :=
  if (1000 <=? points) && negb (category_eqb category CatSS) then CatSS
  else if (500 <=? points) && negb (category_eqb category CatS)
            && negb (category_eqb category CatSS) then CatS
  else if (250 <=? points) && category_eqb category CatC then CatB
  else if (100 <=? points) && category_eqb category CatB then CatA
  else category.

(** Sets won by each side: the side with strictly more games in the set. *)
Definition player1Sets (sets : list SetScore.t) : nat :=
  List.length (filter (fun set => SetScore.player2Score set <? SetScore.player1Score set) sets).

Definition player2Sets (sets : list SetScore.t) : nat :=
  List.length (filter (fun set => SetScore.player1Score set <? SetScore.player2Score set) sets).

Definition with_category (pr : PlayerRanking.t) (c : Category) : PlayerRanking.t :=
  PlayerRanking.mk (PlayerRanking.id pr) (PlayerRanking.playerId pr)
    (PlayerRanking.rankingId pr) c
    (PlayerRanking.points pr) (PlayerRanking.wins pr)
    (PlayerRanking.losses pr).

(** The ledger entry of a player in a ranking, as [getPlayerRanking] reads it. *)
Definition ledger (s : MemStorage) (playerId rankingId : Z) : option PlayerRanking.t :=
  result (getPlayerRanking playerId rankingId) s.

(** The decision tree with the entry read before the update ([stale])
    deciding the branch and the stored entry ([current]) kept when no branch
    fires: what the chain of [updatePlayerRanking] calls does to the map. *)
Definition promote_from (points : Z) (stale current : Category) : Category :=
  if (1000 <=? points) && negb (category_eqb stale CatSS) then CatSS
  else if (500 <=? points) && negb (category_eqb stale CatS)
            && negb (category_eqb stale CatSS) then CatS
  else if (250 <=? points) && category_eqb stale CatC then CatB
  else if (100 <=? points) && category_eqb stale CatB then CatA
  else current.

(** The stored entry [cur] once the block for an existing entry has run on
    the entry [pr] read at the start of the call. *)
Definition settle (cur pr : PlayerRanking.t) (won : bool) : PlayerRanking.t :=
  let points := PlayerRanking.points pr + (if won then 10 else 0) in
  PlayerRanking.mk (PlayerRanking.id cur) (PlayerRanking.playerId cur)
    (PlayerRanking.rankingId cur)
    (promote_from points (PlayerRanking.category pr) (PlayerRanking.category cur))
    points
    (PlayerRanking.wins pr + (if won then 1 else 0))
    (PlayerRanking.losses pr + (if won then 0 else 1)).

(** The entry created for a player without one. *)
Definition fresh (id playerId rankingId : Z) (won : bool) : PlayerRanking.t :=
  PlayerRanking.mk id playerId rankingId CatC
    (if won then 10 else 0) (if won then 1 else 0) (if won then 0 else 1).

(** The entry of a player after the call, from the entry before it. *)
Definition entry_after (before : option PlayerRanking.t) (id p r : Z) (won : bool)
    : PlayerRanking.t :=
  match before with
  | Some pr => settle pr pr won
  | None => fresh id p r won
  end.

(** Who is credited with the win, and who with the loss. *)
Definition winner (match_ : Match.t) : Z :=
  if player1IsWinner (Match.score match_)
  then Match.player1Id match_ else Match.player2Id match_.

Definition loser (match_ : Match.t) : Z :=
  if player1IsWinner (Match.score match_)
  then Match.player2Id match_ else Match.player1Id match_.

(** The access policy the route applies before it creates a match: the actor
    is not suspended and records a match of their own, unless an admin. *)
Definition canCreateMatch (user : User.t) (now : Z) (matchData : InsertMatch.t) : bool :=
  negb (is_suspended user now)
  && ((InsertMatch.player1Id matchData =? 0)
      || (InsertMatch.player1Id matchData =? User.id user)
      || role_eqb (User.role user) admin).

(** Player 1 of the match once an unset [player1Id] is taken to be the actor. *)
Definition resolved_player1Id (user : User.t) (matchData : InsertMatch.t) : Z :=
  if InsertMatch.player1Id matchData =? 0 then User.id user
  else InsertMatch.player1Id matchData.

(** The match [createMatch] stores for [matchData] under [id]. *)
Definition match_of (id : Z) (matchData : InsertMatch.t) : Match.t :=
  Match.mk id
    (InsertMatch.rankingId matchData) (InsertMatch.player1Id matchData)
    (InsertMatch.player2Id matchData) (InsertMatch.locationId matchData)
    (InsertMatch.locationName matchData) (InsertMatch.photoUrl matchData)
    (InsertMatch.status matchData) (InsertMatch.rejectionReason matchData)
    (InsertMatch.playedAt matchData) None (InsertMatch.score matchData).

(** What a row of the ranking table and a ledger entry have in common. *)
Definition row_entry (row : PlayerWithRanking.t) : Z * Category * Z * Z * Z :=
  (PlayerWithRanking.playerId row, PlayerWithRanking.category row,
   PlayerWithRanking.points row, PlayerWithRanking.wins row,
   PlayerWithRanking.losses row).

Definition ledger_entry (pr : PlayerRanking.t) : Z * Category * Z * Z * Z :=
  (PlayerRanking.playerId pr, PlayerRanking.category pr,
   PlayerRanking.points pr, PlayerRanking.wins pr, PlayerRanking.losses pr).

(** The ledger entries of a ranking, restricted to a category when one is
    given, in insertion order. *)
Definition entries_of (s : MemStorage) (rankingId : Z) (category : option Category)
    : list PlayerRanking.t :=
  filter (fun pr =>
            (PlayerRanking.rankingId pr =? rankingId)
            && match category with
               | Some c => category_eqb (PlayerRanking.category pr) c
               | None => true
               end)
    (JSMap.values (playerRankings s)).

Definition has_user (s : MemStorage) (pr : PlayerRanking.t) : bool :=
  match JSMap.get (PlayerRanking.playerId pr) (users s) with
  | Some _ => true
  | None => false
  end.

(** Everything of the store but the ledger map and its counter. *)
Definition same_but_ledger (s s' : MemStorage) : Prop :=
  users s' = users s /\ rankings s' = rankings s /\
  locations s' = locations s /\ matches s' = matches s /\
  userIdCounter s' = userIdCounter s /\
  rankingIdCounter s' = rankingIdCounter s /\
  locationIdCounter s' = locationIdCounter s /\
  matchIdCounter s' = matchIdCounter s.

(** ** Sample data *)

(** The store the constructor leaves (storage.ts 76-99). *)
Definition admin_user : User.t :=
  User.mk 1 "admin" "adminpass" "Administrator" "admin@tennisrank.com"
    None admin None.

Definition new_MemStorage : MemStorage :=
  mkStorage [(1, admin_user)] [] [] [] [] 2 1 1 1 1.

Definition alice : User.t :=
  User.mk 2 "alice" "pw" "Alice" "alice@example.org" None player None.

Definition bob : User.t :=
  User.mk 3 "bob" "pw" "Bob" "bob@example.org" None player None.

Definition club_ranking : Ranking.t :=
  Ranking.mk 1 "Club" None true true 1.

Definition open_ranking : Ranking.t :=
  Ranking.mk 2 "Open" None true false 1.

Definition straight_sets : Score.t :=
  Score.mk [SetScore.mk 6 3; SetScore.mk 6 4] None.

(** Alice, category B with 240 points in the club ranking, beats Bob, who has
    no entry yet. *)
Definition alice_entry : PlayerRanking.t :=
  PlayerRanking.mk 1 2 1 CatB 240 24 3.

Definition alice_beats_bob : Match.t :=
  Match.mk 1 1 2 3 None None None (Some pending) None None None straight_sets.

Definition club_store : MemStorage :=
  mkStorage [(1, admin_user); (2, alice); (3, bob)]
    [(1, club_ranking); (2, open_ranking)]
    [(1, alice_entry)] [] [(1, alice_beats_bob)] 4 3 2 1 2.

Definition alice_vs_bob (rankingId : Z) : InsertMatch.t :=
  InsertMatch.mk rankingId 2 3 None None None None None None straight_sets.

(** Alice records, in the open ranking, a win over a player id that no user
    has: the route does not look player 2 up. *)
Definition alice_vs_nobody : InsertMatch.t :=
  InsertMatch.mk 2 2 99 None None None None None None straight_sets.

Definition unknown_opponent_store : MemStorage :=
  after (post_api_matches (Some alice) 0 (inr alice_vs_nobody)) club_store.

(** Carol has category C and 990 points in the club ranking. *)
Definition carol_entry : PlayerRanking.t :=
  PlayerRanking.mk 1 4 1 CatC 990 99 0.

Definition carol_store : MemStorage :=
  mkStorage [(1, admin_user)] [(1, club_ranking)] [(1, carol_entry)] [] [] 2 2 2 1 1.

Definition carol_beats_bob : Match.t :=
  Match.mk 1 1 4 3 None None None (Some pending) None None None straight_sets.

(** ** The rest of the store and of the routes *)

Definition set_users (f : JSMap.t User.t -> JSMap.t User.t) (s : MemStorage)
    : MemStorage :=
  mkStorage (f (users s)) (rankings s) (playerRankings s) (locations s)
    (matches s) (userIdCounter s) (rankingIdCounter s)
    (playerRankingIdCounter s) (locationIdCounter s) (matchIdCounter s).

Definition set_rankings (f : JSMap.t Ranking.t -> JSMap.t Ranking.t) (s : MemStorage)
    : MemStorage :=
  mkStorage (users s) (f (rankings s)) (playerRankings s) (locations s)
    (matches s) (userIdCounter s) (rankingIdCounter s)
    (playerRankingIdCounter s) (locationIdCounter s) (matchIdCounter s).

Definition set_rankingIdCounter (n : Z) (s : MemStorage) : MemStorage :=
  mkStorage (users s) (rankings s) (playerRankings s) (locations s)
    (matches s) (userIdCounter s) n
    (playerRankingIdCounter s) (locationIdCounter s) (matchIdCounter s).

Definition set_locations (f : JSMap.t Location.t -> JSMap.t Location.t) (s : MemStorage)
    : MemStorage :=
  mkStorage (users s) (rankings s) (playerRankings s) (f (locations s))
    (matches s) (userIdCounter s) (rankingIdCounter s)
    (playerRankingIdCounter s) (locationIdCounter s) (matchIdCounter s).

(** *** User operations *)

(** [Partial<User>] *)
Module PartialUser.
Record t : Type := mk
  { id : option Z;
    username : option string;
    password : option string;
    fullName : option string;
    email : option string;
    photoUrl : option (option string);
    role : option UserRole;
    suspendedUntil : option (option Z) }.
End PartialUser.

(** [getUser] (storage.ts 102-104) *)
Definition getUser (id : Z) : Async (option User.t) :=
  gets (fun s => JSMap.get id (users s)).

(** [{ ...user, ...userData }] *)
Definition merge_user (user : User.t) (userData : PartialUser.t) : User.t :=
  User.mk
    (spread (User.id user) (PartialUser.id userData))
    (spread (User.username user) (PartialUser.username userData))
    (spread (User.password user) (PartialUser.password userData))
    (spread (User.fullName user) (PartialUser.fullName userData))
    (spread (User.email user) (PartialUser.email userData))
    (spread (User.photoUrl user) (PartialUser.photoUrl userData))
    (spread (User.role user) (PartialUser.role userData))
    (spread (User.suspendedUntil user) (PartialUser.suspendedUntil userData)).

(** [updateUser] (storage.ts 119-126) *)
Definition updateUser (id : Z) (userData : PartialUser.t) : Async (option User.t) :=
  user <- gets (fun s => JSMap.get id (users s)) ;;
  match user with
  | None => ret None
  | Some user =>
      let updatedUser := merge_user user userData in
      modify (set_users (JSMap.set id updatedUser)) ;;
      ret (Some updatedUser)
  end.

(** *** Ranking operations *)

(** [Partial<Ranking>] *)
Module PartialRanking.
Record t : Type := mk
  { id : option Z;
    name : option string;
    description : option (option string);
    isPublic : option bool;
    requiresValidation : option bool;
    createdById : option Z }.
End PartialRanking.

(** [getRankings] (storage.ts 140-142) *)
Definition getRankings : Async (list Ranking.t) :=
  gets (fun s => JSMap.values (rankings s)).

(** [{ ...ranking, ...rankingData }] *)
Definition merge_ranking (ranking : Ranking.t) (rankingData : PartialRanking.t)
    : Ranking.t :=
  Ranking.mk
    (spread (Ranking.id ranking) (PartialRanking.id rankingData))
    (spread (Ranking.name ranking) (PartialRanking.name rankingData))
    (spread (Ranking.description ranking) (PartialRanking.description rankingData))
    (spread (Ranking.isPublic ranking) (PartialRanking.isPublic rankingData))
    (spread (Ranking.requiresValidation ranking)
       (PartialRanking.requiresValidation rankingData))
    (spread (Ranking.createdById ranking) (PartialRanking.createdById rankingData)).

(** [updateRanking] (storage.ts 144-151) *)
Definition updateRanking (id : Z) (rankingData : PartialRanking.t)
    : Async (option Ranking.t) :=
  ranking <- gets (fun s => JSMap.get id (rankings s)) ;;
  match ranking with
  | None => ret None
  | Some ranking =>
      let updatedRanking := merge_ranking ranking rankingData in
      modify (set_rankings (JSMap.set id updatedRanking)) ;;
      ret (Some updatedRanking)
  end.

(** *** Location operations *)

(** [getLocation] (storage.ts 221-223) *)
Definition getLocation (id : Z) : Async (option Location.t) :=
  gets (fun s => JSMap.get id (locations s)).

(** [deleteLocation] (storage.ts 238-240) *)
Definition deleteLocation (id : Z) : Async bool :=
  deleted <- gets (fun s => JSMap.delete id (locations s)) ;;
  modify (set_locations (fun _ => snd deleted)) ;;
  ret (fst deleted).

(** *** Match operations *)

(** [MatchWithDetails]: the match and what is shown of its players, ranking
    and location. *)
Module PlayerBrief.
Record t : Type := mk
  { id : Z; username : string; fullName : string; photoUrl : option string }.
End PlayerBrief.

Module RankingBrief.
Record t : Type := mk { id : Z; name : string }.
End RankingBrief.

Module LocationBrief.
Record t : Type := mk { id : Z; name : string }.
End LocationBrief.

Module MatchWithDetails.
Record t : Type := mk
  { match_ : Match.t;
    player1 : PlayerBrief.t;
    player2 : PlayerBrief.t;
    ranking : RankingBrief.t;
    location : option LocationBrief.t }.
End MatchWithDetails.

Definition brief_of (user : User.t) : PlayerBrief.t :=
  PlayerBrief.mk (User.id user) (User.username user) (User.fullName user)
    (User.photoUrl user).

(** A number used as a condition: absent, [NaN] and 0 are falsy.  [None]
    stands for an absent field and for [NaN]. *)
Definition truthy_number (n : option Z) : bool :=
  match n with
  | Some k => negb (k =? 0)
  | None => false
  end.

(** [enrichMatch] (storage.ts 311-350) *)
Definition enrichMatch (match_ : Match.t) : Async (option MatchWithDetails.t) :=
  player1 <- gets (fun s => JSMap.get (Match.player1Id match_) (users s)) ;;
  player2 <- gets (fun s => JSMap.get (Match.player2Id match_) (users s)) ;;
  ranking <- gets (fun s => JSMap.get (Match.rankingId match_) (rankings s)) ;;
  match player1, player2, ranking with
  | Some player1, Some player2, Some ranking =>
      let enrichedMatch :=
        MatchWithDetails.mk match_ (brief_of player1) (brief_of player2)
          (RankingBrief.mk (Ranking.id ranking) (Ranking.name ranking)) None in
      if truthy_number (Match.locationId match_) then
        location <- gets (fun s =>
                      JSMap.get (spread 0 (Match.locationId match_)) (locations s)) ;;
        match location with
        | Some location =>
            ret (Some (MatchWithDetails.mk match_ (brief_of player1) (brief_of player2)
                         (RankingBrief.mk (Ranking.id ranking) (Ranking.name ranking))
                         (Some (LocationBrief.mk (Location.id location)
                                  (Location.name location)))))
        | None => ret (Some enrichedMatch)
        end
      else ret (Some enrichedMatch)
  | _, _, _ => ret None
  end.

(** [getMatchWithDetails] (storage.ts 254-259) *)
Definition getMatchWithDetails (id : Z) : Async (option MatchWithDetails.t) :=
  match_ <- gets (fun s => JSMap.get id (matches s)) ;;
  match match_ with
  | None => ret None
  | Some match_ => enrichMatch match_
  end.

(** The [filters] of [getMatches]. *)
Module MatchFilters.
Record t : Type := mk
  { playerId : option Z;
    rankingId : option Z;
    status : option MatchStatus }.
End MatchFilters.

(** [new Date(b.playedAt).getTime() - new Date(a.playedAt).getTime()]: without
    a [playedAt] the difference is [NaN], which [sort] reads as 0. *)
Definition by_date_desc (a b : Match.t) : Z :=
  match Match.playedAt b, Match.playedAt a with
  | Some tb, Some ta => tb - ta
  | _, _ => 0
  end.

(** The loop of storage.ts 290-296. *)
Fixpoint enrich_each (l : list Match.t) : Async (list MatchWithDetails.t) :=
  match l with
  | [] => ret []
  | match_ :: l' =>
      enrichedMatch <- enrichMatch match_ ;;
      enrichedMatches <- enrich_each l' ;;
      ret (match enrichedMatch with
           | Some e => e :: enrichedMatches
           | None => enrichedMatches
           end)
  end.

Definition status_is (status : MatchStatus) (m : Match.t) : bool :=
  match Match.status m, status with
  | Some pending, pending | Some approved, approved | Some rejected, rejected => true
  | _, _ => false
  end.

(** [getMatches] (storage.ts 261-299) *)
Definition getMatches (filters : option MatchFilters.t)
    : Async (list MatchWithDetails.t) :=
  filteredMatches <- gets (fun s => JSMap.values (matches s)) ;;
  let filteredMatches :=
    match filters with
    | None => filteredMatches
    | Some filters =>
        let filteredMatches :=
          if truthy_number (MatchFilters.playerId filters) then
            filter (fun m =>
                      (Match.player1Id m =? spread 0 (MatchFilters.playerId filters))
                      || (Match.player2Id m =? spread 0 (MatchFilters.playerId filters)))
              filteredMatches
          else filteredMatches in
        let filteredMatches :=
          if truthy_number (MatchFilters.rankingId filters) then
            filter (fun m => Match.rankingId m =? spread 0 (MatchFilters.rankingId filters))
              filteredMatches
          else filteredMatches in
        match MatchFilters.status filters with
        | Some status => filter (status_is status) filteredMatches
        | None => filteredMatches
        end
    end in
  let filteredMatches := array_sort by_date_desc filteredMatches in
  enrich_each filteredMatches.

(** *** The reading routes and the admin's ledger route *)

(** A handler's answer: a status with its JSON payload, or a status with
    [{ message }]. *)
Inductive Reply (A : Type) : Type :=
| reply (status : Z) (payload : A)
| refusal (status : Z) (message : string).
Arguments reply {A} status payload.
Arguments refusal {A} status message.

Definition reply_status {A : Type} (r : Reply A) : Z :=
  match r with
  | reply status _ => status
  | refusal status _ => status
  end.

(** [POST /api/player-rankings] (routes.ts 313-332).  [parsed] is what
    [validateRequest(insertPlayerRankingSchema, req.body)] gives, for a body
    that carries every field of the entry. *)
Definition post_api_player_rankings (req_user : option User.t)
    (parsed : string + InsertPlayerRanking.t) : Async (Reply PlayerRanking.t) :=
  match req_user with
  | Some user =>
    if role_eqb (User.role user) admin then
      match parsed with
      | inl message => ret (refusal 400 message)
      | inr playerRankingData =>
          existingPlayerRanking <-
            getPlayerRanking (InsertPlayerRanking.playerId playerRankingData)
              (InsertPlayerRanking.rankingId playerRankingData) ;;
          match existingPlayerRanking with
          | Some _ => ret (refusal 400 "Player is already in this ranking")
          | None =>
              playerRanking <- createPlayerRanking playerRankingData ;;
              ret (reply 201 playerRanking)
          end
      end
    else ret (refusal 403 "Forbidden: Admin access required")
  | None => ret (refusal 403 "Forbidden: Admin access required")
  end.

(** [GET /api/rankings] (routes.ts 253-269) *)
Definition get_api_rankings (req_user : option User.t) : Async (Reply (list Ranking.t)) :=
  match req_user with
  | None => ret (refusal 401 "Unauthorized")
  | Some user =>
      rankings <- getRankings ;;
      let filteredRankings :=
        if negb (role_eqb (User.role user) admin)
        then filter Ranking.isPublic rankings
        else rankings in
      ret (reply 200 filteredRankings)
  end.

(** [GET /api/rankings/:id] (routes.ts 271-294).  [rankingId] is what
    [parseInt(req.params.id)] reads, [None] for [NaN]: no map holds [NaN] as
    a key, so [getRanking(NaN)] is undefined. *)
Definition get_api_rankings_id (req_user : option User.t) (rankingId : option Z)
    : Async (Reply Ranking.t) :=
  match req_user, rankingId with
  | None, _ => ret (refusal 401 "Unauthorized")
  | Some user, None => ret (refusal 404 "Ranking not found")
  | Some user, Some rankingId =>
      ranking <- getRanking rankingId ;;
      match ranking with
      | None => ret (refusal 404 "Ranking not found")
      | Some ranking =>
          if negb (Ranking.isPublic ranking) && negb (role_eqb (User.role user) admin) then
            playerRanking <- getPlayerRanking (User.id user) rankingId ;;
            match playerRanking with
            | None => ret (refusal 403 "You don't have access to this ranking")
            | Some _ => ret (reply 200 ranking)
            end
          else ret (reply 200 ranking)
      end
  end.

Definition with_isCurrentUser (row : PlayerWithRanking.t) (flag : bool)
    : PlayerWithRanking.t :=
  PlayerWithRanking.mk (PlayerWithRanking.playerId row)
    (PlayerWithRanking.username row) (PlayerWithRanking.fullName row)
    (PlayerWithRanking.photoUrl row) (PlayerWithRanking.category row)
    (PlayerWithRanking.points row) (PlayerWithRanking.position row)
    (PlayerWithRanking.wins row) (PlayerWithRanking.losses row) flag.

(** [GET /api/rankings/:id/players] (routes.ts 334-367) *)
Definition get_api_rankings_id_players (req_user : option User.t)
    (rankingId : option Z) (category : option string)
    : Async (Reply (list PlayerWithRanking.t)) :=
  match req_user, rankingId with
  | None, _ => ret (refusal 401 "Unauthorized")
  | Some user, None => ret (refusal 404 "Ranking not found")
  | Some user, Some rankingId =>
      ranking <- getRanking rankingId ;;
      match ranking with
      | None => ret (refusal 404 "Ranking not found")
      | Some ranking =>
          let list_players :=
            players <- getRankingPlayers rankingId category ;;
            ret (reply 200
                   (map (fun player =>
                           with_isCurrentUser player
                             (PlayerWithRanking.playerId player =? User.id user))
                      players)) in
          if negb (Ranking.isPublic ranking) && negb (role_eqb (User.role user) admin) then
            playerRanking <- getPlayerRanking (User.id user) rankingId ;;
            match playerRanking with
            | None => ret (refusal 403 "You don't have access to this ranking")
            | Some _ => list_players
            end
          else list_players
      end
  end.

(** [GET /api/matches] (routes.ts 472-505).  [query_playerId] and
    [query_rankingId] are what [parseInt] reads from the query, [None] when
    the parameter is absent or reads as [NaN]; [query_status] is the status
    the query names, [None] when it names none of the three. *)
Definition get_api_matches (req_user : option User.t)
    (query_playerId query_rankingId : option Z) (query_status : option MatchStatus)
    : Async (Reply (list MatchWithDetails.t)) :=
  match req_user with
  | None => ret (refusal 401 "Unauthorized")
  | Some user =>
      let filters :=
        if negb (role_eqb (User.role user) admin) && negb (truthy_number query_playerId)
        then MatchFilters.mk query_playerId query_rankingId (Some approved)
        else MatchFilters.mk query_playerId query_rankingId query_status in
      matches <- getMatches (Some filters) ;;
      ret (reply 200 matches)
  end.

(** [GET /api/matches/:id] (routes.ts 507-529) *)
Definition get_api_matches_id (req_user : option User.t) (matchId : option Z)
    : Async (Reply MatchWithDetails.t) :=
  match req_user, matchId with
  | None, _ => ret (refusal 401 "Unauthorized")
  | Some user, None => ret (refusal 404 "Match not found")
  | Some user, Some matchId =>
      match_ <- getMatchWithDetails matchId ;;
      match match_ with
      | None => ret (refusal 404 "Match not found")
      | Some match_ =>
          let m := MatchWithDetails.match_ match_ in
          if negb (role_eqb (User.role user) admin)
             && negb (status_is approved m)
             && negb (Match.player1Id m =? User.id user)
             && negb (Match.player2Id m =? User.id user) then
            ret (refusal 403 "You don't have permission to view this match")
          else ret (reply 200 match_)
      end
  end.

(** What [PATCH /api/users/:id/photo] answers with. *)
Module UserPhoto.
Record t : Type := mk
  { id : Z; username : string; fullName : string; email : string;
    photoUrl : option string }.
End UserPhoto.

(** [PATCH /api/users/:id/photo] (routes.ts 210-240).  [photoUrl] is the
    body's field when it is a string. *)
Definition patch_api_users_id_photo (req_user : option User.t) (userId : option Z)
    (photoUrl : option string) : Async (Reply UserPhoto.t) :=
  match req_user with
  | None => ret (refusal 401 "Unauthorized")
  | Some currentUser =>
      let same := match userId with
                  | Some id => id =? User.id currentUser
                  | None => false
                  end in
      if negb same && negb (role_eqb (User.role currentUser) admin) then
        ret (refusal 403 "Forbidden: You can only update your own photo")
      else if negb (truthy photoUrl) then
        ret (refusal 400 "Photo URL is required")
      else
        updatedUser <-
          match userId with
          | Some id =>
              updateUser id
                (PartialUser.mk None None None None None (Some photoUrl) None None)
          | None => ret None
          end ;;
        match updatedUser with
        | None => ret (refusal 404 "User not found")
        | Some updatedUser =>
            ret (reply 200
                   (UserPhoto.mk (User.id updatedUser) (User.username updatedUser)
                      (User.fullName updatedUser) (User.email updatedUser)
                      (User.photoUrl updatedUser)))
        end
  end.

(** [DELETE /api/locations/:id] (routes.ts 405-418) *)
Definition delete_api_locations_id (req_user : option User.t) (locationId : option Z)
    : Async (Reply unit) :=
  match req_user with
  | Some user =>
    if role_eqb (User.role user) admin then
      success <- match locationId with
                 | Some id => deleteLocation id
                 | None => ret false
                 end ;;
      if success then ret (reply 204 tt)
      else ret (refusal 404 "Location not found")
    else ret (refusal 403 "Forbidden: Admin access required")
  | None => ret (refusal 403 "Forbidden: Admin access required")
  end.

(** ** Further notions used by the properties *)

(** The order of the categories: C < B < A < S < SS. *)
Definition category_rank (c : Category) : Z :=
  match c with
  | CatC => 0 | CatB => 1 | CatA => 2 | CatS => 3 | CatSS => 4
  end.

(** The pair a ledger entry is kept for. *)
Definition entry_pair (pr : PlayerRanking.t) : Z * Z :=
  (PlayerRanking.playerId pr, PlayerRanking.rankingId pr).

(** A score with the two sides exchanged. *)
Definition swap_set (set : SetScore.t) : SetScore.t :=
  SetScore.mk (SetScore.player2Score set) (SetScore.player1Score set).

Definition swap_sides (score : Score.t) : Score.t :=
  Score.mk (map swap_set (Score.sets score)) (option_map swap_set (Score.tiebreak score)).

(** What [enrichMatch] reads of the store. *)
Definition enrichable (s : MemStorage) (m : Match.t) : bool :=
  match JSMap.get (Match.player1Id m) (users s),
        JSMap.get (Match.player2Id m) (users s),
        JSMap.get (Match.rankingId m) (rankings s) with
  | Some _, Some _, Some _ => true
  | _, _, _ => false
  end.

(** The matches a filter lets through. *)
Definition passes (filters : MatchFilters.t) (m : Match.t) : bool :=
  (if truthy_number (MatchFilters.playerId filters)
   then (Match.player1Id m =? spread 0 (MatchFilters.playerId filters))
        || (Match.player2Id m =? spread 0 (MatchFilters.playerId filters))
   else true)
  && (if truthy_number (MatchFilters.rankingId filters)
      then Match.rankingId m =? spread 0 (MatchFilters.rankingId filters)
      else true)
  && match MatchFilters.status filters with
     | Some status => status_is status m
     | None => true
     end.

(** ** More sample data *)




(** The ledger holds at most one entry for a player in a ranking. *)
Definition ledger_unique (s : MemStorage) : Prop :=
  NoDup (map entry_pair (JSMap.values (playerRankings s))).

(** What [isAdmin] lets through. *)
Definition is_admin (req_user : option User.t) : bool :=
  match req_user with
  | Some user => role_eqb (User.role user) admin
  | None => false
  end.

(** What [enrichMatch] returns on a store. *)
Definition enrich (s : MemStorage) (m : Match.t) : option MatchWithDetails.t :=
  result (enrichMatch m) s.

(** The instant a match was played, for a match that records one. *)
Definition played (m : Match.t) : Z := spread 0 (Match.playedAt m).

Definition dated (m : Match.t) : bool :=
  match Match.playedAt m with Some _ => true | None => false end.

(** A private ranking that does not require validation, in a store where
    Alice has one entry, in the club ranking. *)
Definition secret_ranking : Ranking.t :=
  Ranking.mk 3 "Secret" None false false 1.

Definition secret_store : MemStorage :=
  mkStorage [(1, admin_user); (2, alice); (3, bob)]
    [(1, club_ranking); (2, open_ranking); (3, secret_ranking)]
    [(1, alice_entry)] [] [(1, alice_beats_bob)] 4 4 2 1 2.

(** A store with one location, and a match played there. *)
Definition centre_court : Location.t :=
  Location.mk 1 "Centre Court" None None 1.

Definition match_at_court : Match.t :=
  Match.mk 1 1 2 3 (Some 1) None None (Some pending) None None None straight_sets.

Definition court_store : MemStorage :=
  mkStorage [(1, admin_user); (2, alice); (3, bob)]
    [(1, club_ranking); (2, open_ranking)]
    [(1, alice_entry)] [(1, centre_court)] [(1, match_at_court)] 4 3 2 2 2.

(** The user once [{ photoUrl }] is spread over it. *)
Definition with_photoUrl (user : User.t) (photoUrl : string) : User.t :=
  User.mk (User.id user) (User.username user) (User.password user)
    (User.fullName user) (User.email user) (Some photoUrl) (User.role user)
    (User.suspendedUntil user).

(** [{ requiresValidation }] as the body of an update. *)
Definition data_requiresValidation (b : bool) : PartialRanking.t :=
  PartialRanking.mk None None None None (Some b) None.

(** Two stores with the same ledger map and ledger counter, and two
    computations that cannot be told apart by what they return and by the
    ledger they leave, on such stores. *)
Definition same_ledger (s s' : MemStorage) : Prop :=
  playerRankings s = playerRankings s' /\
  playerRankingIdCounter s = playerRankingIdCounter s'.

Definition ledger_sim {A : Type} (c c' : Async A) : Prop :=
  forall s s', same_ledger s s' ->
    fst (c s) = fst (c' s') /\ same_ledger (snd (c s)) (snd (c' s')).

(** The match [validateMatch] stores when it approves the match created
    from [matchData] under [id]. *)
Definition stored_approved (id : Z) (matchData : InsertMatch.t) : Match.t :=
  Match.mk id
    (InsertMatch.rankingId matchData) (InsertMatch.player1Id matchData)
    (InsertMatch.player2Id matchData) (InsertMatch.locationId matchData)
    (InsertMatch.locationName matchData) (InsertMatch.photoUrl matchData)
    (Some approved) None
    (InsertMatch.playedAt matchData) None (InsertMatch.score matchData).

(** * Properties *)

Unset Implicit Arguments.

(** ** Facts about [JSMap] *)

Section JSMapFacts.
Variable V : Type.
Variable idof : V -> Z.
Implicit Types (m : JSMap.t V) (k : Z) (v c : V) (f : V -> bool).

Lemma get_set_same m k v : JSMap.get k (JSMap.set k v m) = Some v.
Proof.
  induction m as [|[k' v'] m IH]; simpl.
  - now rewrite Z.eqb_refl.
  - destruct (k =? k') eqn:E; simpl; rewrite ?Z.eqb_refl, ?E; auto.
Qed.

Lemma get_set_other m k k' v :
  k <> k' -> JSMap.get k' (JSMap.set k v m) = JSMap.get k' m.
Proof.
  intros Hne. induction m as [|[k0 v0] m IH]; simpl.
  - destruct (k' =? k) eqn:E; auto. apply Z.eqb_eq in E. congruence.
  - destruct (k =? k0) eqn:E; simpl.
    + apply Z.eqb_eq in E. subst k0.
      destruct (k' =? k) eqn:E'; auto.
      apply Z.eqb_eq in E'. congruence.
    + now rewrite IH.
Qed.

Lemma set_set m k v v' :
  JSMap.set k v' (JSMap.set k v m) = JSMap.set k v' m.
Proof.
  induction m as [|[k0 v0] m IH]; simpl.
  - now rewrite Z.eqb_refl.
  - destruct (k =? k0) eqn:E; simpl; rewrite ?Z.eqb_refl, ?E; congruence.
Qed.

Lemma get_none_set m k v :
  JSMap.get k m = None -> JSMap.set k v m = m ++ [(k, v)].
Proof.
  induction m as [|[k0 v0] m IH]; simpl; auto.
  destruct (k =? k0); [discriminate|]. intros H. now rewrite IH.
Qed.

Lemma keys_below_get m n k :
  JSMap.keys_below n m = true -> n <= k -> JSMap.get k m = None.
Proof.
  induction m as [|[k0 v0] m IH]; simpl; auto.
  intros H Hle. apply andb_true_iff in H as [H1 H2].
  apply Z.ltb_lt in H1.
  destruct (k =? k0) eqn:E; [apply Z.eqb_eq in E; lia | auto].
Qed.

Lemma keys_below_weaken m n n' :
  JSMap.keys_below n m = true -> n <= n' -> JSMap.keys_below n' m = true.
Proof.
  induction m as [|[k0 v0] m IH]; simpl; auto.
  intros H Hle. apply andb_true_iff in H as [H1 H2].
  apply andb_true_iff. split; auto.
  apply Z.ltb_lt in H1. apply Z.ltb_lt. lia.
Qed.

(** The entry [find] returns is the one stored under its own id. *)
Lemma find_values_get m f c :
  JSMap.distinct_keys m = true -> JSMap.keyed_by idof m = true ->
  find f (JSMap.values m) = Some c ->
  JSMap.get (idof c) m = Some c /\ f c = true.
Proof.
  induction m as [|[k0 v0] m IH]; simpl; [discriminate|].
  intros Hd Hk Hf.
  apply andb_true_iff in Hk as [Hk0 Hk]. apply Z.eqb_eq in Hk0.
  destruct (JSMap.get k0 m) eqn:G; [discriminate|].
  destruct (f v0) eqn:F.
  - injection Hf as <-. now rewrite Hk0, Z.eqb_refl.
  - destruct (IH Hd Hk Hf) as [Hg Hc]. split; auto.
    destruct (idof c =? k0) eqn:E; auto.
    apply Z.eqb_eq in E. congruence.
Qed.

(** Writing an entry the predicate rejects, over one it rejects (or under a
    new key), does not change what [find] returns. *)
Lemma find_set_miss m f k v :
  f v = false ->
  (forall c, JSMap.get k m = Some c -> f c = false) ->
  find f (JSMap.values (JSMap.set k v m)) = find f (JSMap.values m).
Proof.
  intros Hv. induction m as [|[k0 v0] m IH]; simpl; intros Hc.
  - now rewrite Hv.
  - destruct (k =? k0) eqn:E; simpl.
    + rewrite Hv, (Hc v0); auto.
    + destruct (f v0); auto.
Qed.

(** Overwriting the entry [find] returns with one the predicate accepts
    makes [find] return the new one. *)
Lemma find_set_hit m f c v :
  JSMap.distinct_keys m = true -> JSMap.keyed_by idof m = true ->
  find f (JSMap.values m) = Some c -> f v = true ->
  find f (JSMap.values (JSMap.set (idof c) v m)) = Some v.
Proof.
  intros Hd Hk Hf Hv. revert Hd Hk Hf.
  induction m as [|[k0 v0] m IH]; simpl; [discriminate|].
  intros Hd Hk Hf.
  apply andb_true_iff in Hk as [Hk0 Hk]. apply Z.eqb_eq in Hk0.
  destruct (JSMap.get k0 m) eqn:G; [discriminate|].
  destruct (f v0) eqn:F.
  - injection Hf as <-. rewrite Hk0, Z.eqb_refl. simpl. now rewrite Hv.
  - destruct (find_values_get m f c Hd Hk Hf) as [Hg _].
    destruct (idof c =? k0) eqn:E.
    + apply Z.eqb_eq in E. congruence.
    + simpl. rewrite F. auto.
Qed.

(** A new key goes last: [find] reaches it when nothing before matches. *)
Lemma find_set_fresh m f k v :
  find f (JSMap.values m) = None -> JSMap.get k m = None -> f v = true ->
  find f (JSMap.values (JSMap.set k v m)) = Some v.
Proof.
  intros Hf Hg Hv. rewrite (get_none_set m k v Hg).
  unfold JSMap.values. rewrite map_app. simpl.
  revert Hf. unfold JSMap.values.
  induction (map snd m) as [|x l IH]; simpl.
  - now rewrite Hv.
  - destruct (f x); [discriminate | auto].
Qed.

Lemma get_set_keeps_none m k k' v c :
  JSMap.get k m = Some c -> JSMap.get k' m = None ->
  JSMap.get k' (JSMap.set k v m) = None.
Proof.
  intros Hk Hk'. destruct (Z.eq_dec k k') as [->|Hne]; [congruence|].
  now rewrite get_set_other.
Qed.

Lemma wf_set_update m n k v c :
  JSMap.wf idof n m = true -> JSMap.get k m = Some c -> idof v = k ->
  JSMap.wf idof n (JSMap.set k v m) = true.
Proof.
  unfold JSMap.wf. intros H Hg Hv.
  apply andb_true_iff in H as [H Hb]. apply andb_true_iff in H as [Hd Hk].
  revert Hd Hk Hb Hg.
  induction m as [|[k0 v0] m IH]; simpl; [discriminate|].
  intros Hd Hk Hb Hg.
  apply andb_true_iff in Hk as [Hk0 Hk].
  apply andb_true_iff in Hb as [Hb0 Hb].
  destruct (JSMap.get k0 m) eqn:G; [discriminate|].
  destruct (k =? k0) eqn:E; simpl.
  - apply Z.eqb_eq in E. subst k0. rewrite G, Hd, Hk, Hb, Hb0.
    subst k. now rewrite Z.eqb_refl.
  - rewrite (get_set_keeps_none m k k0 v c Hg G).
    rewrite Hk0, Hb0. simpl. now apply IH.
Qed.

Lemma wf_set_fresh m n v :
  JSMap.wf idof n m = true -> idof v = n ->
  JSMap.wf idof (n + 1) (JSMap.set n v m) = true.
Proof.
  unfold JSMap.wf. intros H Hv.
  apply andb_true_iff in H as [H Hb]. apply andb_true_iff in H as [Hd Hk].
  assert (Hn : JSMap.get n m = None)
    by (apply keys_below_get with (n := n); auto; lia).
  revert Hd Hk Hb Hn.
  induction m as [|[k0 v0] m IH]; simpl.
  - intros _ _ _ _. rewrite Hv, Z.eqb_refl. simpl.
    rewrite andb_true_r. apply Z.ltb_lt. lia.
  - intros Hd Hk Hb Hn.
    apply andb_true_iff in Hk as [Hk0 Hk].
    apply andb_true_iff in Hb as [Hb0 Hb].
    destruct (JSMap.get k0 m) eqn:G; [discriminate|].
    destruct (n =? k0) eqn:E; [discriminate|]. simpl.
    assert (Hne : n <> k0) by (apply Z.eqb_neq; auto).
    rewrite (get_set_other m n k0 v Hne), G, Hk0. simpl.
    apply Z.ltb_lt in Hb0.
    replace (k0 <? n + 1) with true by (symmetry; apply Z.ltb_lt; lia).
    simpl. now apply IH.
Qed.
End JSMapFacts.

(** ** The store primitives, as equations *)

Lemma get_set_id {V : Type} (m : JSMap.t V) (k : Z) (c : V) :
  JSMap.get k m = Some c -> JSMap.set k c m = m.
Proof.
  induction m as [|[k0 v0] m IH]; simpl; [discriminate|].
  destruct (k =? k0) eqn:E.
  - apply Z.eqb_eq in E. intros H. injection H as ->. now subst.
  - intros H. now rewrite IH.
Qed.

Lemma updatePlayerRanking_some s id data cur :
  JSMap.get id (playerRankings s) = Some cur ->
  updatePlayerRanking id data s =
    (Some (merge_playerRanking cur data),
     set_playerRankings (JSMap.set id (merge_playerRanking cur data)) s).
Proof.
  intros H. unfold updatePlayerRanking, bind, gets, modify, ret. now rewrite H.
Qed.

Lemma set_playerRankings_twice f g s :
  set_playerRankings g (set_playerRankings f s) =
  set_playerRankings (fun m => g (f m)) s.
Proof. reflexivity. Qed.

(** The chain of lines 426-434 (and 455-463), run on a store where the entry
    is [cur], writes [promote_from] of the stale category into it. *)
Lemma category_chain s id points stale cur :
  JSMap.get id (playerRankings s) = Some cur ->
  (if (points >=? 1000) && negb (category_eqb stale CatSS) then
     updatePlayerRanking id (data_category CatSS) ;; ret tt
   else if (points >=? 500) && negb (category_eqb stale CatS)
             && negb (category_eqb stale CatSS) then
     updatePlayerRanking id (data_category CatS) ;; ret tt
   else if (points >=? 250) && category_eqb stale CatC then
     updatePlayerRanking id (data_category CatB) ;; ret tt
   else if (points >=? 100) && category_eqb stale CatB then
     updatePlayerRanking id (data_category CatA) ;; ret tt
   else ret tt) s
  = (tt, set_playerRankings
           (JSMap.set id
              (with_category cur
                 (promote_from points stale (PlayerRanking.category cur)))) s).
Proof.
  intros H. unfold promote_from. rewrite !Z.geb_leb.
  repeat match goal with
  | |- context [if ?b then _ else _] =>
      lazymatch b with
      | andb _ _ => destruct b eqn:?
      end
  end;
  unfold bind, ret; rewrite ?(updatePlayerRanking_some s id _ cur H);
  try reflexivity.
  destruct s, cur; unfold set_playerRankings, with_category; simpl in *.
  now rewrite get_set_id.
Qed.

Lemma update_existing s id cur pr (won : bool) :
  JSMap.get id (playerRankings s) = Some cur ->
  let points := PlayerRanking.points pr + (if won then 10 else 0) in
  let wins := PlayerRanking.wins pr + (if won then 1 else 0) in
  let losses := PlayerRanking.losses pr + (if won then 0 else 1) in
  (updatePlayerRanking id (data_points_wins_losses points wins losses) ;;
   if (points >=? 1000) && negb (category_eqb (PlayerRanking.category pr) CatSS) then
     updatePlayerRanking id (data_category CatSS) ;; ret tt
   else if (points >=? 500) && negb (category_eqb (PlayerRanking.category pr) CatS)
             && negb (category_eqb (PlayerRanking.category pr) CatSS) then
     updatePlayerRanking id (data_category CatS) ;; ret tt
   else if (points >=? 250) && category_eqb (PlayerRanking.category pr) CatC then
     updatePlayerRanking id (data_category CatB) ;; ret tt
   else if (points >=? 100) && category_eqb (PlayerRanking.category pr) CatB then
     updatePlayerRanking id (data_category CatA) ;; ret tt
   else ret tt) s
  = (tt, set_playerRankings (JSMap.set id (settle cur pr won)) s).
Proof.
  intros H points wins losses.
  unfold bind at 1. rewrite (updatePlayerRanking_some s id _ cur H).
  erewrite category_chain by (simpl; apply get_set_same).
  rewrite set_playerRankings_twice. unfold set_playerRankings. simpl.
  now rewrite set_set.
Qed.

Lemma update_player1_some match_ w pr cur s :
  JSMap.get (PlayerRanking.id pr) (playerRankings s) = Some cur ->
  update_player1 match_ w (Some pr) s =
    (tt, set_playerRankings (JSMap.set (PlayerRanking.id pr) (settle cur pr w)) s).
Proof. intros H. unfold update_player1. now apply update_existing. Qed.

Lemma update_player2_some match_ w pr cur s :
  JSMap.get (PlayerRanking.id pr) (playerRankings s) = Some cur ->
  update_player2 match_ w (Some pr) s =
    (tt, set_playerRankings
           (JSMap.set (PlayerRanking.id pr) (settle cur pr (negb w))) s).
Proof.
  intros H. rewrite <- (update_existing s _ cur pr (negb w) H).
  unfold update_player2. now destruct w.
Qed.

Lemma update_player1_none match_ w s :
  update_player1 match_ w None s =
    (tt, set_playerRankings
           (JSMap.set (playerRankingIdCounter s)
              (fresh (playerRankingIdCounter s) (Match.player1Id match_)
                 (Match.rankingId match_) w))
           (set_playerRankingIdCounter (playerRankingIdCounter s + 1) s)).
Proof. reflexivity. Qed.

Lemma update_player2_none match_ w s :
  update_player2 match_ w None s =
    (tt, set_playerRankings
           (JSMap.set (playerRankingIdCounter s)
              (fresh (playerRankingIdCounter s) (Match.player2Id match_)
                 (Match.rankingId match_) (negb w)))
           (set_playerRankingIdCounter (playerRankingIdCounter s + 1) s)).
Proof. now destruct w. Qed.

(** ** One player's block, on well-formed stores *)

Lemma ledger_unfold s p r :
  ledger s p r = find (is_entry_of p r) (JSMap.values (playerRankings s)).
Proof. reflexivity. Qed.

Lemma is_entry_of_true p r pr :
  is_entry_of p r pr = true <->
  PlayerRanking.playerId pr = p /\ PlayerRanking.rankingId pr = r.
Proof.
  unfold is_entry_of. rewrite andb_true_iff, !Z.eqb_eq. tauto.
Qed.

Lemma is_entry_of_other p r p' r' pr :
  is_entry_of p r pr = true -> p' <> p \/ r' <> r ->
  is_entry_of p' r' pr = false.
Proof.
  intros H Hne. apply is_entry_of_true in H as [<- <-].
  unfold is_entry_of. apply andb_false_iff.
  destruct Hne; [left | right]; apply Z.eqb_neq; congruence.
Qed.

Lemma store_ok_parts s :
  store_ok s = true ->
  JSMap.distinct_keys (playerRankings s) = true /\
  JSMap.keyed_by PlayerRanking.id (playerRankings s) = true /\
  JSMap.keys_below (playerRankingIdCounter s) (playerRankings s) = true.
Proof.
  unfold store_ok, JSMap.wf. rewrite !andb_true_iff. tauto.
Qed.

Lemma ledger_some_get s p r pr :
  store_ok s = true -> ledger s p r = Some pr ->
  JSMap.get (PlayerRanking.id pr) (playerRankings s) = Some pr /\
  PlayerRanking.playerId pr = p /\ PlayerRanking.rankingId pr = r.
Proof.
  intros Hok H. destruct (store_ok_parts s Hok) as (Hd & Hk & _).
  rewrite ledger_unfold in H.
  destruct (find_values_get _ PlayerRanking.id _ _ _ Hd Hk H) as [Hg He].
  apply is_entry_of_true in He. tauto.
Qed.

(** Overwriting a player's entry with its settled version. *)
Lemma settled_store s p r pr won :
  store_ok s = true -> ledger s p r = Some pr ->
  let s' := set_playerRankings
              (JSMap.set (PlayerRanking.id pr) (settle pr pr won)) s in
  store_ok s' = true /\
  ledger s' p r = Some (settle pr pr won) /\
  (forall p' r', p' <> p \/ r' <> r -> ledger s' p' r' = ledger s p' r').
Proof.
  intros Hok H s'.
  destruct (ledger_some_get s p r pr Hok H) as (Hg & Hp & Hr).
  destruct (store_ok_parts s Hok) as (Hd & Hk & _).
  assert (He : is_entry_of p r (settle pr pr won) = true)
    by (apply is_entry_of_true; simpl; tauto).
  split; [|split].
  - unfold store_ok, s'. simpl.
    now apply wf_set_update with (c := pr).
  - rewrite ledger_unfold. unfold s'. simpl.
    now apply find_set_hit.
  - intros p' r' Hne. rewrite !ledger_unfold. unfold s'. simpl.
    apply find_set_miss.
    + now apply is_entry_of_other with (p := p) (r := r).
    + intros c Hc. rewrite Hg in Hc. injection Hc as <-.
      apply is_entry_of_other with (p := p) (r := r); [|exact Hne].
      apply is_entry_of_true; split; assumption.
Qed.

(** Creating the entry of a player who has none. *)
Lemma created_store s p r won :
  store_ok s = true -> ledger s p r = None ->
  let n := playerRankingIdCounter s in
  let s' := set_playerRankings (JSMap.set n (fresh n p r won))
              (set_playerRankingIdCounter (n + 1) s) in
  store_ok s' = true /\
  ledger s' p r = Some (fresh n p r won) /\
  (forall p' r', p' <> p \/ r' <> r -> ledger s' p' r' = ledger s p' r').
Proof.
  intros Hok H n s'.
  destruct (store_ok_parts s Hok) as (Hd & Hk & Hb).
  assert (Hn : JSMap.get n (playerRankings s) = None)
    by (apply keys_below_get with (n := n); auto; unfold n; lia).
  assert (He : is_entry_of p r (fresh n p r won) = true)
    by (apply is_entry_of_true; simpl; tauto).
  split; [|split].
  - unfold store_ok, s'. simpl. now apply wf_set_fresh.
  - rewrite ledger_unfold. unfold s'. simpl.
    now apply find_set_fresh.
  - intros p' r' Hne. rewrite !ledger_unfold. unfold s'. simpl.
    apply find_set_miss.
    + now apply is_entry_of_other with (p := p) (r := r).
    + intros c Hc. fold n in Hc. congruence.
Qed.

(** ** The ledger update on a match between two distinct players *)
Lemma ledger_update s match_ :
  store_ok s = true ->
  Match.player1Id match_ <> Match.player2Id match_ ->
  let w := player1IsWinner (Match.score match_) in
  let r := Match.rankingId match_ in
  let s' := after (updatePlayerRankingsForMatch match_) s in
  exists id1 id2,
    store_ok s' = true /\
    ledger s' (Match.player1Id match_) r =
      Some (entry_after (ledger s (Match.player1Id match_) r) id1
              (Match.player1Id match_) r w) /\
    ledger s' (Match.player2Id match_) r =
      Some (entry_after (ledger s (Match.player2Id match_) r) id2
              (Match.player2Id match_) r (negb w)) /\
    (forall p' r',
        (p' <> Match.player1Id match_ \/ r' <> r) ->
        (p' <> Match.player2Id match_ \/ r' <> r) ->
        ledger s' p' r' = ledger s p' r').
Proof.
  intros Hok Hne w r s'.
  set (p1 := Match.player1Id match_) in *.
  set (p2 := Match.player2Id match_) in *.
  assert (Hs' : s' = snd (update_player2 match_ w (ledger s p2 r)
                       (snd (update_player1 match_ w (ledger s p1 r) s)))).
  { unfold s', after, updatePlayerRankingsForMatch, bind, getPlayerRanking, gets.
    fold w. simpl.
    destruct (update_player1 match_ w _ s) as [[] s1]. reflexivity. }
  (* player 1 *)
  assert (H1 : exists id1 s1,
             snd (update_player1 match_ w (ledger s p1 r) s) = s1 /\
             store_ok s1 = true /\
             ledger s1 p1 r = Some (entry_after (ledger s p1 r) id1 p1 r w) /\
             (forall p' r', p' <> p1 \/ r' <> r -> ledger s1 p' r' = ledger s p' r')).
  { destruct (ledger s p1 r) as [pr1|] eqn:L1.
    - destruct (ledger_some_get s p1 r pr1 Hok L1) as (Hg & _).
      rewrite (update_player1_some match_ w pr1 pr1 s Hg).
      exists 0, (set_playerRankings
                   (JSMap.set (PlayerRanking.id pr1) (settle pr1 pr1 w)) s).
      split; [reflexivity|]. now apply settled_store.
    - rewrite update_player1_none.
      eexists (playerRankingIdCounter s), _. split; [reflexivity|].
      now apply created_store. }
  destruct H1 as (id1 & s1 & E1 & Hok1 & L1 & F1).
  rewrite E1 in Hs'.
  assert (L2 : ledger s1 p2 r = ledger s p2 r)
    by (apply F1; left; apply not_eq_sym; exact Hne).
  (* player 2 *)
  assert (H2 : exists id2,
             store_ok s' = true /\
             ledger s' p2 r = Some (entry_after (ledger s p2 r) id2 p2 r (negb w)) /\
             (forall p' r', p' <> p2 \/ r' <> r -> ledger s' p' r' = ledger s1 p' r')).
  { rewrite Hs'. destruct (ledger s p2 r) as [pr2|] eqn:E2.
    - destruct (ledger_some_get s1 p2 r pr2 Hok1 L2) as (Hg & _).
      rewrite (update_player2_some match_ w pr2 pr2 s1 Hg).
      exists 0. now apply settled_store.
    - rewrite update_player2_none.
      exists (playerRankingIdCounter s1). now apply created_store. }
  destruct H2 as (id2 & Hok' & L2' & F2).
  exists id1, id2. repeat split; auto.
  - rewrite F2 by (left; exact Hne). exact L1.
  - intros p' r' N1 N2. rewrite F2 by exact N2. now apply F1.
Qed.

(** ** The score evaluator *)

Lemma count_set_fold sets a b :
  fold_left count_set sets (a, b) =
    (a + Z.of_nat (player1Sets sets), b + Z.of_nat (player2Sets sets)).
Proof.
  revert a b. induction sets as [|set sets IH]; intros a b.
  - simpl. f_equal; lia.
  - cbn [fold_left]. unfold count_set at 2. rewrite !Z.gtb_ltb.
    unfold player1Sets, player2Sets in *. cbn [filter].
    destruct (SetScore.player2Score set <? SetScore.player1Score set) eqn:E1;
      destruct (SetScore.player1Score set <? SetScore.player2Score set) eqn:E2;
      rewrite IH; cbn [List.length]; f_equal; lia.
Qed.

(** C4.  For every score (any sequence of sets of game counts, with or without
    a tiebreak pair), [player1IsWinner] is true exactly when player 1 has won
    strictly more sets than player 2, a set being won by the side with
    strictly more games in it; the tiebreak pair plays no part; and with equal
    set counts, in particular with no set at all, the result is false, so that
    player 2 is the one credited with the win. *)
Theorem player1IsWinner_counts_sets :
  forall (sets : list SetScore.t) (tiebreak : option SetScore.t),
    let score := Score.mk sets tiebreak in
    player1IsWinner score = (player2Sets sets <? player1Sets sets)%nat /\
    player1IsWinner score = player1IsWinner (Score.mk sets None) /\
    (player1Sets sets = player2Sets sets -> player1IsWinner score = false) /\
    player1IsWinner (Score.mk [] tiebreak) = false /\
    (forall match_, Match.score match_ = score ->
       player1Sets sets = player2Sets sets ->
       winner match_ = Match.player2Id match_).
Proof.
  intros sets tiebreak score.
  assert (E : forall tb, player1IsWinner (Score.mk sets tb) =
                         (player2Sets sets <? player1Sets sets)%nat).
  { intros tb. unfold player1IsWinner. cbn [Score.sets].
    rewrite count_set_fold. rewrite Z.gtb_ltb. cbn [Z.add].
    destruct (player2Sets sets <? player1Sets sets)%nat eqn:N.
    - apply Nat.ltb_lt in N. apply Z.ltb_lt. lia.
    - apply Nat.ltb_ge in N. apply Z.ltb_ge. lia. }
  assert (T : player1Sets sets = player2Sets sets ->
              player1IsWinner score = false).
  { intros H. unfold score. rewrite E, H. apply Nat.ltb_irrefl. }
  split; [|split; [|split; [|split]]].
  - apply E.
  - unfold score. now rewrite !E.
  - exact T.
  - reflexivity.
  - intros match_ Hs H. unfold winner. rewrite Hs. now rewrite (T H).
Qed.

(** The theorem at a tied score: one set each. *)
Lemma player1IsWinner_counts_sets_witness :
  player1Sets [SetScore.mk 6 3; SetScore.mk 4 6] =
    player2Sets [SetScore.mk 6 3; SetScore.mk 4 6] /\
  player1IsWinner (Score.mk [SetScore.mk 6 3; SetScore.mk 4 6] None) = false.
Proof.
  split; [reflexivity|].
  apply (proj1 (proj2 (proj2
           (player1IsWinner_counts_sets
              [SetScore.mk 6 3; SetScore.mk 4 6] None)))).
  reflexivity.
Defined.

(** ** Points, wins, losses and category after an approval *)

Lemma promote_from_same points c : promote_from points c c = promote points c.
Proof. reflexivity. Qed.

Lemma winner_loser match_ :
  (winner match_ = Match.player1Id match_ /\ loser match_ = Match.player2Id match_ /\
   player1IsWinner (Match.score match_) = true) \/
  (winner match_ = Match.player2Id match_ /\ loser match_ = Match.player1Id match_ /\
   player1IsWinner (Match.score match_) = false).
Proof.
  unfold winner, loser. destruct (player1IsWinner (Match.score match_)); auto.
Qed.

(** The entries of the winner and of the loser after the call. *)
Lemma ledger_update_winner_loser s match_ :
  store_ok s = true ->
  Match.player1Id match_ <> Match.player2Id match_ ->
  let r := Match.rankingId match_ in
  let s' := after (updatePlayerRankingsForMatch match_) s in
  exists idw idl,
    ledger s' (winner match_) r =
      Some (entry_after (ledger s (winner match_) r) idw (winner match_) r true) /\
    ledger s' (loser match_) r =
      Some (entry_after (ledger s (loser match_) r) idl (loser match_) r false).
Proof.
  intros Hok Hne r s'.
  destruct (ledger_update s match_ Hok Hne) as (id1 & id2 & _ & L1 & L2 & _).
  fold r s' in L1, L2.
  destruct (winner_loser match_) as [(-> & -> & W) | (-> & -> & W)];
    rewrite W in L1, L2; simpl in L1, L2; eauto.
Qed.

(** C1.  For every entry the ledger holds for one of the two (distinct)
    players of a match, the entry after the match-approval update carries the
    new points (10 more for the winner, unchanged for the loser) and the
    category the four-branch decision tree [promote] gives for those new
    points and the category the entry had before the call: SS from 1000
    points unless already SS, else S from 500 unless already S or SS, else B
    from 250 when exactly C, else A from 100 when exactly B, else unchanged.
    In particular an entry at C whose points reach 1000 ends at SS. *)
Theorem category_follows_decision_tree :
  forall (s : MemStorage) (match_ : Match.t) (p : Z) (pr : PlayerRanking.t),
    store_ok s = true ->
    Match.player1Id match_ <> Match.player2Id match_ ->
    p = Match.player1Id match_ \/ p = Match.player2Id match_ ->
    ledger s p (Match.rankingId match_) = Some pr ->
    exists pr',
      ledger (after (updatePlayerRankingsForMatch match_) s) p
        (Match.rankingId match_) = Some pr' /\
      PlayerRanking.id pr' = PlayerRanking.id pr /\
      PlayerRanking.points pr' =
        PlayerRanking.points pr + (if p =? winner match_ then 10 else 0) /\
      PlayerRanking.category pr' =
        promote (PlayerRanking.points pr') (PlayerRanking.category pr) /\
      (PlayerRanking.category pr = CatC -> 1000 <= PlayerRanking.points pr' ->
       PlayerRanking.category pr' = CatSS).
Proof.
  intros s match_ p pr Hok Hne Hp L.
  destruct (ledger_update s match_ Hok Hne) as (id1 & id2 & _ & L1 & L2 & _).
  cbv zeta in L1, L2.
  assert (H : exists won,
             ledger (after (updatePlayerRankingsForMatch match_) s) p
               (Match.rankingId match_) = Some (settle pr pr won) /\
             (if p =? winner match_ then 10 else 0) = (if won then 10 else 0)).
  { unfold winner.
    destruct Hp as [-> | ->]; rewrite L in *; simpl in L1, L2.
    - exists (player1IsWinner (Match.score match_)). split; [exact L1|].
      destruct (player1IsWinner (Match.score match_)).
      + now rewrite Z.eqb_refl.
      + apply Z.eqb_neq in Hne. now rewrite Hne.
    - exists (negb (player1IsWinner (Match.score match_))). split; [exact L2|].
      destruct (player1IsWinner (Match.score match_)); simpl.
      + apply not_eq_sym in Hne. apply Z.eqb_neq in Hne. now rewrite Hne.
      + now rewrite Z.eqb_refl. }
  destruct H as (won & L' & Hgain).
  exists (settle pr pr won). rewrite Hgain.
  split; [exact L'|]. simpl. rewrite promote_from_same.
  repeat split.
  intros Hc Hpts. rewrite Hc. unfold promote.
  apply Z.leb_le in Hpts. now rewrite Hpts.
Qed.

Lemma club_store_ok : store_ok club_store = true.
Proof. reflexivity. Qed.

Lemma alice_is_not_bob :
  Match.player1Id alice_beats_bob <> Match.player2Id alice_beats_bob.
Proof. discriminate. Qed.

(** The theorem at Alice's entry in the club ranking. *)
Lemma category_follows_decision_tree_witness :
  exists pr',
    ledger (after (updatePlayerRankingsForMatch alice_beats_bob) club_store) 2 1
      = Some pr' /\
    PlayerRanking.id pr' = 1 /\
    PlayerRanking.points pr' = 240 + 10 /\
    PlayerRanking.category pr' = promote (PlayerRanking.points pr') CatB /\
    (CatB = CatC -> 1000 <= PlayerRanking.points pr' ->
     PlayerRanking.category pr' = CatSS).
Proof.
  apply (category_follows_decision_tree club_store alice_beats_bob 2 alice_entry).
  - reflexivity.
  - discriminate.
  - left. reflexivity.
  - reflexivity.
Defined.

Lemma ledger_update_player s match_ p :
  store_ok s = true ->
  Match.player1Id match_ <> Match.player2Id match_ ->
  p = Match.player1Id match_ \/ p = Match.player2Id match_ ->
  exists id,
    ledger (after (updatePlayerRankingsForMatch match_) s) p (Match.rankingId match_) =
      Some (entry_after (ledger s p (Match.rankingId match_)) id p
              (Match.rankingId match_) (p =? winner match_)).
Proof.
  intros Hok Hne Hp.
  destruct (ledger_update_winner_loser s match_ Hok Hne) as (idw & idl & Lw & Ll).
  cbv zeta in Lw, Ll.
  assert (Hwl : winner match_ <> loser match_).
  { destruct (winner_loser match_) as [(-> & -> & _) | (-> & -> & _)]; auto. }
  assert (Hcase : p = winner match_ \/ p = loser match_).
  { destruct (winner_loser match_) as [(-> & -> & _) | (-> & -> & _)]; tauto. }
  destruct Hcase as [-> | ->].
  - exists idw. now rewrite Z.eqb_refl.
  - exists idl. apply not_eq_sym in Hwl. apply Z.eqb_neq in Hwl. now rewrite Hwl.
Qed.

(** C2, as the store has it.  A player whose entry has 240 points and category
    B, and who wins an approved match against another player in that ranking,
    ends with 250 points and category A: the fourth branch (100 points or
    more, category exactly B) fires. *)
Theorem b_player_reaching_250_is_promoted_to_A :
  forall (s : MemStorage) (match_ : Match.t) (pr : PlayerRanking.t),
    store_ok s = true ->
    Match.player1Id match_ <> Match.player2Id match_ ->
    ledger s (winner match_) (Match.rankingId match_) = Some pr ->
    PlayerRanking.points pr = 240 ->
    PlayerRanking.category pr = CatB ->
    exists pr',
      ledger (after (updatePlayerRankingsForMatch match_) s) (winner match_)
        (Match.rankingId match_) = Some pr' /\
      PlayerRanking.points pr' = 250 /\
      PlayerRanking.category pr' = CatA.
Proof.
  intros s match_ pr Hok Hne L Hpts Hcat.
  destruct (ledger_update_winner_loser s match_ Hok Hne) as (idw & _ & Lw & _).
  cbv zeta in Lw. rewrite L in Lw. simpl in Lw.
  eexists. split; [exact Lw|]. simpl. rewrite Hpts, Hcat. split; reflexivity.
Qed.

Lemma b_player_reaching_250_is_promoted_to_A_witness :
  exists pr',
    ledger (after (updatePlayerRankingsForMatch alice_beats_bob) club_store)
      (winner alice_beats_bob) (Match.rankingId alice_beats_bob) = Some pr' /\
    PlayerRanking.points pr' = 250 /\
    PlayerRanking.category pr' = CatA.
Proof.
  apply (b_player_reaching_250_is_promoted_to_A club_store alice_beats_bob alice_entry).
  - reflexivity.
  - discriminate.
  - reflexivity.
  - reflexivity.
  - reflexivity.
Defined.

(** C2, as the specification words it, fails: Alice has 240 points and
    category B in the club ranking and wins her match against Bob; her entry
    then has 250 points, but its category is not B any more. *)
Lemma b_player_reaching_250_does_not_stay_B :
  (ledger club_store 2 1 = Some alice_entry /\
   PlayerRanking.points alice_entry = 240 /\
   PlayerRanking.category alice_entry = CatB /\
   winner alice_beats_bob = 2 /\
   Match.rankingId alice_beats_bob = 1) /\
  ~ (exists pr',
       ledger (after (updatePlayerRankingsForMatch alice_beats_bob) club_store) 2 1
         = Some pr' /\
       PlayerRanking.points pr' = 250 /\
       PlayerRanking.category pr' = CatB).
Proof.
  split.
  - repeat split.
  - intros (pr' & L & _ & Hcat).
    vm_compute in L. injection L as <-. discriminate Hcat.
Qed.

(** C3.  For every match between two distinct players, the ledger update
    credits exactly one of them, the winner, with 10 points and one win (an
    entry created for the winner has 10 points, 1 win and no loss) and the
    other, the loser, with one loss and nothing else (an entry created for
    the loser has no points, no win and 1 loss); the winner is player 1 when
    [player1IsWinner] holds of the score and player 2 otherwise. *)
Theorem winner_and_loser_are_credited :
  forall (s : MemStorage) (match_ : Match.t),
    store_ok s = true ->
    Match.player1Id match_ <> Match.player2Id match_ ->
    let r := Match.rankingId match_ in
    let s' := after (updatePlayerRankingsForMatch match_) s in
    (winner match_, loser match_) =
      (if player1IsWinner (Match.score match_)
       then (Match.player1Id match_, Match.player2Id match_)
       else (Match.player2Id match_, Match.player1Id match_)) /\
    (exists w',
        ledger s' (winner match_) r = Some w' /\
        match ledger s (winner match_) r with
        | Some w =>
            PlayerRanking.points w' = PlayerRanking.points w + 10 /\
            PlayerRanking.wins w' = PlayerRanking.wins w + 1 /\
            PlayerRanking.losses w' = PlayerRanking.losses w
        | None =>
            PlayerRanking.points w' = 10 /\
            PlayerRanking.wins w' = 1 /\
            PlayerRanking.losses w' = 0
        end) /\
    (exists l',
        ledger s' (loser match_) r = Some l' /\
        match ledger s (loser match_) r with
        | Some l =>
            PlayerRanking.points l' = PlayerRanking.points l /\
            PlayerRanking.wins l' = PlayerRanking.wins l /\
            PlayerRanking.losses l' = PlayerRanking.losses l + 1
        | None =>
            PlayerRanking.points l' = 0 /\
            PlayerRanking.wins l' = 0 /\
            PlayerRanking.losses l' = 1
        end).
Proof.
  intros s match_ Hok Hne r s'.
  destruct (ledger_update_winner_loser s match_ Hok Hne) as (idw & idl & Lw & Ll).
  fold r s' in Lw, Ll.
  split; [|split].
  - unfold winner, loser. now destruct (player1IsWinner (Match.score match_)).
  - eexists. split; [exact Lw|].
    destruct (ledger s (winner match_) r); simpl; repeat split; lia.
  - eexists. split; [exact Ll|].
    destruct (ledger s (loser match_) r); simpl; repeat split; lia.
Qed.

Lemma winner_and_loser_are_credited_witness :
  let s' := after (updatePlayerRankingsForMatch alice_beats_bob) club_store in
  (exists w', ledger s' 2 1 = Some w' /\
              PlayerRanking.points w' = 250 /\ PlayerRanking.wins w' = 25 /\
              PlayerRanking.losses w' = 3) /\
  (exists l', ledger s' 3 1 = Some l' /\
              PlayerRanking.points l' = 0 /\ PlayerRanking.wins l' = 0 /\
              PlayerRanking.losses l' = 1).
Proof.
  apply (winner_and_loser_are_credited club_store alice_beats_bob).
  - reflexivity.
  - discriminate.
Defined.

(** C9.  The ledger update keeps [points = 10 * wins]: for every match
    between two distinct players and each of the two, an entry that satisfies
    the equation before the call satisfies it after, and an entry the call
    creates satisfies it (10 points and 1 win for the winner, none of either
    for the loser). *)
Theorem points_are_ten_times_wins :
  forall (s : MemStorage) (match_ : Match.t) (p : Z),
    store_ok s = true ->
    Match.player1Id match_ <> Match.player2Id match_ ->
    p = Match.player1Id match_ \/ p = Match.player2Id match_ ->
    let r := Match.rankingId match_ in
    exists pr',
      ledger (after (updatePlayerRankingsForMatch match_) s) p r = Some pr' /\
      match ledger s p r with
      | Some pr =>
          PlayerRanking.points pr = 10 * PlayerRanking.wins pr ->
          PlayerRanking.points pr' = 10 * PlayerRanking.wins pr'
      | None =>
          PlayerRanking.points pr' = 10 * PlayerRanking.wins pr' /\
          PlayerRanking.points pr' = (if p =? winner match_ then 10 else 0) /\
          PlayerRanking.wins pr' = (if p =? winner match_ then 1 else 0)
      end.
Proof.
  intros s match_ p Hok Hne Hp r.
  destruct (ledger_update_player s match_ p Hok Hne Hp) as (id & L).
  fold r in L. eexists. split; [exact L|].
  destruct (ledger s p r); destruct (p =? winner match_);
    cbn [entry_after settle fresh PlayerRanking.points PlayerRanking.wins]; lia.
Qed.

Lemma points_are_ten_times_wins_witness :
  exists pr',
    ledger (after (updatePlayerRankingsForMatch alice_beats_bob) club_store) 2 1
      = Some pr' /\
    (240 = 10 * 24 -> PlayerRanking.points pr' = 10 * PlayerRanking.wins pr').
Proof.
  apply (points_are_ten_times_wins club_store alice_beats_bob 2).
  - reflexivity.
  - discriminate.
  - left. reflexivity.
Defined.

(** ** What the ledger update leaves alone *)

Lemma same_but_ledger_refl s : same_but_ledger s s.
Proof. repeat split. Qed.

Lemma same_but_ledger_trans s1 s2 s3 :
  same_but_ledger s1 s2 -> same_but_ledger s2 s3 -> same_but_ledger s1 s3.
Proof.
  unfold same_but_ledger.
  intros (A1 & A2 & A3 & A4 & A5 & A6 & A7 & A8)
         (B1 & B2 & B3 & B4 & B5 & B6 & B7 & B8).
  repeat split; congruence.
Qed.

Lemma ret_frame {A : Type} (a : A) s : same_but_ledger s (after (ret a) s).
Proof. apply same_but_ledger_refl. Qed.

Lemma bind_frame {A B : Type} (c : Async A) (k : A -> Async B) :
  (forall s, same_but_ledger s (after c s)) ->
  (forall a s, same_but_ledger s (after (k a) s)) ->
  forall s, same_but_ledger s (after (bind c k) s).
Proof.
  intros Hc Hk s. unfold after, bind in *.
  specialize (Hc s). destruct (c s) as [a s1]. simpl in Hc.
  apply same_but_ledger_trans with (s2 := s1); [exact Hc | apply Hk].
Qed.

Lemma getPlayerRanking_frame p r s :
  same_but_ledger s (after (getPlayerRanking p r) s).
Proof. apply same_but_ledger_refl. Qed.

Lemma updatePlayerRanking_frame id data s :
  same_but_ledger s (after (updatePlayerRanking id data) s).
Proof.
  unfold after, updatePlayerRanking, bind, gets, modify, ret.
  destruct (JSMap.get id (playerRankings s)); simpl; repeat split.
Qed.

Lemma createPlayerRanking_frame ins s :
  same_but_ledger s (after (createPlayerRanking ins) s).
Proof. repeat split. Qed.

Ltac frame_step :=
  first
    [ apply ret_frame
    | apply updatePlayerRanking_frame
    | apply createPlayerRanking_frame
    | apply getPlayerRanking_frame
    | apply bind_frame; intros ].

Lemma update_player1_frame match_ w o s :
  same_but_ledger s (after (update_player1 match_ w o) s).
Proof.
  revert s. unfold update_player1. destruct o as [pr|]; cbv zeta.
  - apply bind_frame; intros; [frame_step|].
    repeat match goal with
           | |- context [if ?b then _ else _] => destruct b
           end; repeat frame_step.
  - intros s. repeat split.
Qed.

Lemma update_player2_frame match_ w o s :
  same_but_ledger s (after (update_player2 match_ w o) s).
Proof.
  revert s. unfold update_player2. destruct o as [pr|]; cbv zeta.
  - apply bind_frame; intros; [frame_step|].
    repeat match goal with
           | |- context [if ?b then _ else _] => destruct b
           end; repeat frame_step.
  - intros s. repeat split.
Qed.

Lemma updatePlayerRankingsForMatch_frame match_ s :
  same_but_ledger s (after (updatePlayerRankingsForMatch match_) s).
Proof.
  revert s. unfold updatePlayerRankingsForMatch. cbv zeta.
  repeat (apply bind_frame; intros; [apply getPlayerRanking_frame|]).
  apply bind_frame; intros.
  - apply update_player1_frame.
  - apply update_player2_frame.
Qed.

(** ** [validateMatch] *)

(** The outcome of [validateMatch] on a stored match. *)
Lemma validateMatch_some s matchId (isApproved : bool) rejectionReason match_ :
  JSMap.get matchId (matches s) = Some match_ ->
  let updatedMatch :=
    Match.mk (Match.id match_) (Match.rankingId match_)
      (Match.player1Id match_) (Match.player2Id match_)
      (Match.locationId match_) (Match.locationName match_)
      (Match.photoUrl match_)
      (Some (if isApproved then approved else rejected))
      (if isApproved then None
       else Some (string_or rejectionReason no_reason_provided))
      (Match.playedAt match_) (Match.createdAt match_) (Match.score match_) in
  let s1 := set_matches (JSMap.set matchId updatedMatch) s in
  validateMatch matchId isApproved rejectionReason s =
    (Some updatedMatch,
     if isApproved then after (updatePlayerRankingsForMatch updatedMatch) s1
     else s1).
Proof.
  intros H updatedMatch s1.
  unfold validateMatch, bind, gets. rewrite H. fold updatedMatch.
  unfold modify. fold s1. destruct isApproved.
  - unfold after. destruct (updatePlayerRankingsForMatch updatedMatch s1) as [[] s2].
    reflexivity.
  - reflexivity.
Qed.

(** C10.  For every stored match, [validateMatch] changes the match's [status]
    and [rejectionReason] and no other field of it: approving sets
    [rejectionReason] to undefined whatever it was before, and the players,
    ranking, score, location, photo and timestamps are those of the match
    before the call, for an approval and for a rejection alike.  The match
    returned is the one stored, and no other match changes. *)
Theorem validateMatch_touches_status_and_reason_only :
  forall (s : MemStorage) (matchId : Z) (isApproved : bool)
         (rejectionReason : option string) (match_ : Match.t),
    JSMap.get matchId (matches s) = Some match_ ->
    let s' := after (validateMatch matchId isApproved rejectionReason) s in
    exists m',
      result (validateMatch matchId isApproved rejectionReason) s = Some m' /\
      JSMap.get matchId (matches s') = Some m' /\
      Match.status m' = Some (if isApproved then approved else rejected) /\
      (isApproved = true -> Match.rejectionReason m' = None) /\
      Match.id m' = Match.id match_ /\
      Match.rankingId m' = Match.rankingId match_ /\
      Match.player1Id m' = Match.player1Id match_ /\
      Match.player2Id m' = Match.player2Id match_ /\
      Match.score m' = Match.score match_ /\
      Match.locationId m' = Match.locationId match_ /\
      Match.locationName m' = Match.locationName match_ /\
      Match.photoUrl m' = Match.photoUrl match_ /\
      Match.playedAt m' = Match.playedAt match_ /\
      Match.createdAt m' = Match.createdAt match_ /\
      (forall k, k <> matchId ->
         JSMap.get k (matches s') = JSMap.get k (matches s)).
Proof.
  intros s matchId isApproved rejectionReason match_ H s'.
  unfold s', result, after.
  rewrite (validateMatch_some s matchId isApproved rejectionReason match_ H).
  cbn [fst snd]. eexists. split; [reflexivity|].
  assert (M : forall s1 : MemStorage,
             matches (if isApproved
                      then after (updatePlayerRankingsForMatch
                                    (Match.mk (Match.id match_) (Match.rankingId match_)
                                       (Match.player1Id match_) (Match.player2Id match_)
                                       (Match.locationId match_) (Match.locationName match_)
                                       (Match.photoUrl match_)
                                       (Some (if isApproved then approved else rejected))
                                       (if isApproved then None
                                        else Some (string_or rejectionReason no_reason_provided))
                                       (Match.playedAt match_) (Match.createdAt match_)
                                       (Match.score match_))) s1
                      else s1) = matches s1).
  { intros s1. destruct isApproved; [|reflexivity].
    apply (updatePlayerRankingsForMatch_frame _ s1). }
  rewrite M. cbn [matches set_matches].
  split; [apply get_set_same|].
  split; [reflexivity|].
  split; [intros ->; reflexivity|].
  repeat (split; [reflexivity|]).
  intros k Hk. apply get_set_other. auto.
Qed.

(** The theorem at the pending match of the club store, approved. *)
Lemma validateMatch_touches_status_and_reason_only_witness :
  exists m',
    result (validateMatch 1 true None) club_store = Some m' /\
    Match.status m' = Some approved /\
    Match.rejectionReason m' = None /\
    Match.score m' = straight_sets.
Proof.
  destruct (validateMatch_touches_status_and_reason_only
              club_store 1 true None alice_beats_bob eq_refl)
    as (m' & R & _ & St & Rr & _ & _ & _ & _ & Sc & _).
  exists m'. repeat split; auto.
Defined.

(** C6, as the store has it.  Rejecting a stored match sets its status to
    [rejected]; its [rejectionReason] is the supplied reason when that is a
    non-empty string, and the placeholder ['No reason provided'] when no
    reason or the empty string is supplied; the ledger map and its counter
    are left as they were, so that no entry is created or modified. *)
Theorem rejecting_stores_reason_and_spares_ledger :
  forall (s : MemStorage) (matchId : Z) (rejectionReason : option string)
         (match_ : Match.t),
    JSMap.get matchId (matches s) = Some match_ ->
    let s' := after (validateMatch matchId false rejectionReason) s in
    exists m',
      result (validateMatch matchId false rejectionReason) s = Some m' /\
      JSMap.get matchId (matches s') = Some m' /\
      Match.status m' = Some rejected /\
      (forall r, rejectionReason = Some r -> r <> EmptyString ->
                 Match.rejectionReason m' = Some r) /\
      (rejectionReason = None \/ rejectionReason = Some EmptyString ->
       Match.rejectionReason m' = Some "No reason provided"%string) /\
      playerRankings s' = playerRankings s /\
      playerRankingIdCounter s' = playerRankingIdCounter s.
Proof.
  intros s matchId rejectionReason match_ H s'.
  unfold s', result, after.
  rewrite (validateMatch_some s matchId false rejectionReason match_ H).
  cbn [fst snd]. eexists. split; [reflexivity|].
  cbn [matches set_matches Match.status Match.rejectionReason].
  split; [apply get_set_same|].
  split; [reflexivity|].
  split; [|split; [|split; reflexivity]].
  - intros r -> Hr. unfold string_or.
    destruct (String.eqb r EmptyString) eqn:E; [|reflexivity].
    apply String.eqb_eq in E. contradiction.
  - intros [-> | ->]; reflexivity.
Qed.

Lemma rejecting_stores_reason_and_spares_ledger_witness :
  exists m',
    result (validateMatch 1 false (Some "double fault"%string)) club_store = Some m' /\
    Match.status m' = Some rejected /\
    Match.rejectionReason m' = Some "double fault"%string /\
    playerRankings (after (validateMatch 1 false (Some "double fault"%string)) club_store)
      = playerRankings club_store.
Proof.
  destruct (rejecting_stores_reason_and_spares_ledger
              club_store 1 (Some "double fault"%string) alice_beats_bob eq_refl)
    as (m' & R & _ & St & Rr & _ & L & _).
  exists m'. repeat split; auto.
  apply Rr; [reflexivity | discriminate].
Defined.

(** C6, as the specification words it, fails: a rejection whose supplied
    reason is the empty string does not store that reason. *)
Lemma rejecting_with_empty_reason_stores_placeholder :
  exists m',
    result (validateMatch 1 false (Some EmptyString)) club_store = Some m' /\
    Match.rejectionReason m' = Some "No reason provided"%string /\
    Match.rejectionReason m' <> Some EmptyString.
Proof.
  eexists. split; [reflexivity|]. split; [reflexivity | discriminate].
Qed.

(** ** Creating a match *)

Lemma with_player1Id_same matchData :
  with_player1Id matchData (InsertMatch.player1Id matchData) = matchData.
Proof. now destruct matchData. Qed.

Lemma createMatch_eq insertMatch s :
  createMatch insertMatch s =
    (match_of (matchIdCounter s) insertMatch,
     set_matches (JSMap.set (matchIdCounter s) (match_of (matchIdCounter s) insertMatch))
       (set_matchIdCounter (matchIdCounter s + 1) s)).
Proof. reflexivity. Qed.

(** What the handler does once the access policy has let the actor through:
    the same-player check, then the ranking lookup, on the data with player 1
    resolved. *)
Lemma post_api_matches_granted s user now matchData :
  canCreateMatch user now matchData = true ->
  let data := with_player1Id matchData (resolved_player1Id user matchData) in
  post_api_matches (Some user) now (inr matchData) s =
    if InsertMatch.player1Id data =? InsertMatch.player2Id data then
      (Response.mk 400 (body_message "You cannot play against yourself"), s)
    else
      match JSMap.get (InsertMatch.rankingId data) (rankings s) with
      | None => (Response.mk 404 (body_message "Ranking not found"), s)
      | Some ranking =>
          let data' := if Ranking.requiresValidation ranking
                       then with_status data pending
                       else with_status data approved in
          (createMatch data' ;;
           (if Ranking.requiresValidation ranking then ret tt
            else validateMatch (matchIdCounter s) true None ;; ret tt) ;;
           ret (Response.mk 201 (body_match (match_of (matchIdCounter s) data')))) s
      end.
Proof.
  intros H data. unfold canCreateMatch in H. unfold resolved_player1Id in data.
  apply andb_true_iff in H as [Hs Ha]. apply negb_true_iff in Hs.
  unfold post_api_matches. rewrite Hs.
  assert (E : (if InsertMatch.player1Id matchData =? 0
               then Some (with_player1Id matchData (User.id user))
               else if negb (InsertMatch.player1Id matchData =? User.id user)
                         && negb (role_eqb (User.role user) admin)
                    then None else Some matchData) = Some data).
  { unfold data. destruct (InsertMatch.player1Id matchData =? 0); [reflexivity|].
    simpl in Ha. rewrite with_player1Id_same.
    destruct (InsertMatch.player1Id matchData =? User.id user); simpl in *;
      [reflexivity|]. now rewrite Ha. }
  rewrite E.
  destruct (InsertMatch.player1Id data =? InsertMatch.player2Id data); [reflexivity|].
  unfold bind at 1. unfold getRanking, gets.
  destruct (JSMap.get (InsertMatch.rankingId data) (rankings s)) as [ranking|];
    [|reflexivity].
  cbv zeta. destruct (Ranking.requiresValidation ranking); reflexivity.
Qed.

(** Without the access policy's leave, or when the two players coincide, the
    handler changes nothing. *)
Lemma post_api_matches_same_player_no_change s user now matchData :
  resolved_player1Id user matchData = InsertMatch.player2Id matchData ->
  after (post_api_matches (Some user) now (inr matchData)) s = s.
Proof.
  unfold resolved_player1Id, after, post_api_matches. intros H.
  destruct (is_suspended user now); [reflexivity|].
  destruct (InsertMatch.player1Id matchData =? 0) eqn:E0.
  - cbn [InsertMatch.player1Id InsertMatch.player2Id with_player1Id].
    rewrite H, Z.eqb_refl. reflexivity.
  - destruct (negb (InsertMatch.player1Id matchData =? User.id user)
              && negb (role_eqb (User.role user) admin)); [reflexivity|].
    rewrite H, Z.eqb_refl. reflexivity.
Qed.

(** C7.  For every [createMatch] input whose player 1, once resolved, is also
    its player 2, the call changes nothing in the store, so no match is
    created; and when the access policy lets the actor create the match, the
    answer is the bad-request 400 ["You cannot play against yourself"],
    whichever ranking the input names and whether or not it exists. *)
Theorem createMatch_rejects_playing_oneself :
  forall (s : MemStorage) (user : User.t) (now : Z) (matchData : InsertMatch.t),
    resolved_player1Id user matchData = InsertMatch.player2Id matchData ->
    after (post_api_matches (Some user) now (inr matchData)) s = s /\
    (canCreateMatch user now matchData = true ->
     result (post_api_matches (Some user) now (inr matchData)) s =
       Response.mk 400 (body_message "You cannot play against yourself")).
Proof.
  intros s user now matchData H. split.
  - now apply post_api_matches_same_player_no_change.
  - intros Hc. unfold result.
    rewrite (post_api_matches_granted s user now matchData Hc).
    cbn [InsertMatch.player1Id InsertMatch.player2Id with_player1Id].
    rewrite H, Z.eqb_refl. reflexivity.
Qed.

(** The theorem for Alice recording a match against herself in a ranking that
    does not exist. *)
Lemma createMatch_rejects_playing_oneself_witness :
  after (post_api_matches (Some alice) 0
           (inr (InsertMatch.mk 99 0 2 None None None None None None straight_sets)))
    club_store = club_store /\
  result (post_api_matches (Some alice) 0
            (inr (InsertMatch.mk 99 0 2 None None None None None None straight_sets)))
    club_store = Response.mk 400 (body_message "You cannot play against yourself").
Proof.
  destruct (createMatch_rejects_playing_oneself club_store alice 0
              (InsertMatch.mk 99 0 2 None None None None None None straight_sets)
              eq_refl) as [H1 H2].
  split; [exact H1 | exact (H2 eq_refl)].
Defined.

(** C5.  For every [createMatch] call the access policy lets through, with
    distinct players and an existing ranking: when the ranking does not
    require validation, the answer is 201 with a match of status [approved],
    and the store is the one the ledger update for the stored match leaves,
    run right after the match was stored as approved; when the ranking
    requires validation, the answer is 201 with a match of status [pending],
    stored as returned, and the ledger map and its counter are unchanged. *)
Theorem createMatch_initial_status :
  forall (s : MemStorage) (user : User.t) (now : Z) (matchData : InsertMatch.t)
         (ranking : Ranking.t),
    canCreateMatch user now matchData = true ->
    resolved_player1Id user matchData <> InsertMatch.player2Id matchData ->
    JSMap.get (InsertMatch.rankingId matchData) (rankings s) = Some ranking ->
    let s' := after (post_api_matches (Some user) now (inr matchData)) s in
    exists m,
      result (post_api_matches (Some user) now (inr matchData)) s =
        Response.mk 201 (body_match m) /\
      Match.id m = matchIdCounter s /\
      Match.rankingId m = InsertMatch.rankingId matchData /\
      Match.player1Id m = resolved_player1Id user matchData /\
      Match.player2Id m = InsertMatch.player2Id matchData /\
      Match.score m = InsertMatch.score matchData /\
      if Ranking.requiresValidation ranking then
        Match.status m = Some pending /\
        JSMap.get (Match.id m) (matches s') = Some m /\
        playerRankings s' = playerRankings s /\
        playerRankingIdCounter s' = playerRankingIdCounter s
      else
        Match.status m = Some approved /\
        exists stored s1,
          s' = after (updatePlayerRankingsForMatch stored) s1 /\
          JSMap.get (Match.id m) (matches s') = Some stored /\
          Match.status stored = Some approved /\
          Match.rankingId stored = Match.rankingId m /\
          Match.player1Id stored = Match.player1Id m /\
          Match.player2Id stored = Match.player2Id m /\
          Match.score stored = Match.score m /\
          playerRankings s1 = playerRankings s /\
          playerRankingIdCounter s1 = playerRankingIdCounter s.
Proof.
  intros s user now matchData ranking Hc Hne Hr s'.
  unfold s', result, after.
  rewrite (post_api_matches_granted s user now matchData Hc).
  cbn [InsertMatch.player1Id InsertMatch.player2Id InsertMatch.rankingId with_player1Id].
  apply Z.eqb_neq in Hne. rewrite Hne, Hr. cbv zeta.
  destruct (Ranking.requiresValidation ranking).
  - eexists. split; [reflexivity|].
    repeat (split; [reflexivity|]).
    split; [|split; reflexivity].
    cbn. apply get_set_same.
  - unfold bind. rewrite createMatch_eq.
    erewrite (validateMatch_some _ (matchIdCounter s) true None)
      by (cbn [matches set_matches]; apply get_set_same).
    unfold ret. cbn [fst snd].
    eexists. split; [reflexivity|].
    repeat (split; [reflexivity|]).
    eexists. eexists. split; [reflexivity|].
    split.
    + rewrite (proj1 (proj2 (proj2 (proj2
                 (updatePlayerRankingsForMatch_frame _ _))))).
      cbn. rewrite set_set. apply get_set_same.
    + repeat (split; [reflexivity|]). reflexivity.
Qed.

Lemma createMatch_initial_status_witness :
  exists m,
    result (post_api_matches (Some alice) 0 (inr (alice_vs_bob 2))) club_store =
      Response.mk 201 (body_match m) /\
    Match.status m = Some approved /\
    Match.player1Id m = 2 /\ Match.player2Id m = 3.
Proof.
  pose proof (createMatch_initial_status club_store alice 0 (alice_vs_bob 2)
                open_ranking eq_refl ltac:(vm_compute; discriminate) eq_refl) as H.
  cbv zeta in H. destruct H as (m & R & _ & _ & P1 & P2 & _ & H).
  cbn [Ranking.requiresValidation open_ranking] in H. destruct H as (St & _).
  exists m. repeat split; assumption.
Defined.

(** ** The ranking table *)

Section SortByKey.
Variable A : Type.
Variable key : A -> Z.

(** The comparator [(a, b) => b.key - a.key]: greatest key first. *)
Local Abbreviation cmp := (fun a b : A => key b - key a).
Local Abbreviation ge := (fun a b : A => key b <= key a).

Lemma sort_insert_Forall (P : A -> Prop) x l :
  P x -> Forall P l -> Forall P (sort_insert cmp x l).
Proof.
  intros Hx Hl. induction Hl as [|y l Hy Hl IH]; simpl.
  - auto.
  - destruct (cmp x y <=? 0); auto.
Qed.

Lemma sort_insert_sorted x l :
  StronglySorted ge l -> StronglySorted ge (sort_insert cmp x l).
Proof.
  induction 1 as [|y l Hs IH Hy]; simpl.
  - constructor; constructor.
  - destruct (cmp x y <=? 0) eqn:E.
    + apply Z.leb_le in E.
      constructor; [constructor; assumption|].
      constructor; [lia|].
      eapply Forall_impl; [|exact Hy]. cbv beta. intros a Ha. lia.
    + apply Z.leb_gt in E.
      constructor; [exact IH|].
      apply sort_insert_Forall; [lia | exact Hy].
Qed.

Lemma array_sort_sorted l : StronglySorted ge (array_sort cmp l).
Proof.
  induction l as [|x l IH]; simpl.
  - constructor.
  - now apply sort_insert_sorted.
Qed.

(** Stability: the entries of any one key keep their order. *)
Lemma sort_insert_stable p x l :
  filter (fun a => key a =? p) (sort_insert cmp x l) =
  filter (fun a => key a =? p) (x :: l).
Proof.
  induction l as [|y l IH]; [reflexivity|].
  cbn [sort_insert]. destruct (cmp x y <=? 0) eqn:E; [reflexivity|].
  apply Z.leb_gt in E.
  cbn [filter] in *. rewrite IH.
  destruct (key x =? p) eqn:Ex; destruct (key y =? p) eqn:Ey; try reflexivity.
  apply Z.eqb_eq in Ex. apply Z.eqb_eq in Ey. lia.
Qed.

Lemma array_sort_stable p l :
  filter (fun a => key a =? p) (array_sort cmp l) =
  filter (fun a => key a =? p) l.
Proof.
  induction l as [|x l IH]; [reflexivity|].
  cbn [array_sort]. rewrite sort_insert_stable. cbn [filter]. now rewrite IH.
Qed.

Lemma sort_insert_perm x l : Permutation (sort_insert cmp x l) (x :: l).
Proof.
  induction l as [|y l IH]; simpl; [reflexivity|].
  destruct (cmp x y <=? 0); [reflexivity|].
  rewrite IH. apply perm_swap.
Qed.

Lemma array_sort_perm l : Permutation (array_sort cmp l) l.
Proof.
  induction l as [|x l IH]; simpl; [reflexivity|].
  rewrite sort_insert_perm. now constructor.
Qed.
End SortByKey.

Lemma filter_swap {A : Type} (f g : A -> bool) l :
  filter f (filter g l) = filter g (filter f l).
Proof.
  induction l as [|x l IH]; [reflexivity|]. simpl.
  destruct (f x) eqn:F; destruct (g x) eqn:G; simpl; rewrite ?F, ?G, IH; reflexivity.
Qed.

Lemma filter_both {A : Type} (f g : A -> bool) l :
  filter f (filter g l) = filter (fun x => g x && f x) l.
Proof.
  induction l as [|x l IH]; [reflexivity|]. simpl.
  destruct (g x); simpl; [destruct (f x)|]; now rewrite IH.
Qed.

Lemma filter_perm {A : Type} (f : A -> bool) l l' :
  Permutation l l' -> Permutation (filter f l) (filter f l').
Proof.
  induction 1 as [|x l l' H IH|x y l|l1 l2 l3 H1 IH1 H2 IH2]; simpl.
  - constructor.
  - destruct (f x); [now constructor | assumption].
  - destruct (f x); destruct (f y); try reflexivity. apply perm_swap.
  - now transitivity (filter f l2).
Qed.

Lemma filter_sorted {A : Type} (R : A -> A -> Prop) (f : A -> bool) l :
  StronglySorted R l -> StronglySorted R (filter f l).
Proof.
  induction 1 as [|x l Hs IH Hx]; simpl; [constructor|].
  destruct (f x); [|assumption].
  constructor; [assumption|].
  apply Forall_forall. intros a Ha. apply filter_In in Ha as [Ha _].
  revert a Ha. now apply Forall_forall.
Qed.

Lemma keyed_by_get {V : Type} (idof : V -> Z) (m : JSMap.t V) k v :
  JSMap.keyed_by idof m = true -> JSMap.get k m = Some v -> idof v = k.
Proof.
  induction m as [|[k0 v0] m IH]; simpl; [discriminate|].
  intros H G. apply andb_true_iff in H as [H0 H].
  destruct (k =? k0) eqn:E.
  - apply Z.eqb_eq in E. apply Z.eqb_eq in H0. congruence.
  - auto.
Qed.

(** The rows pushed are those of the entries whose player is a user. *)
Lemma push_rows_entries s i l :
  users_ok s = true ->
  map row_entry (push_rows (users s) i l) = map ledger_entry (filter (has_user s) l).
Proof.
  intros Hok. revert i. induction l as [|pr l IH]; intros i; [reflexivity|].
  cbn [push_rows filter]. unfold has_user at 1.
  destruct (JSMap.get (PlayerRanking.playerId pr) (users s)) as [user|] eqn:G.
  - cbn [map]. rewrite IH. f_equal.
    unfold row_entry, ledger_entry. cbn.
    now rewrite (keyed_by_get User.id (users s) _ user Hok G).
  - apply IH.
Qed.

Lemma category_name_eqb a c :
  String.eqb (category_name a) (category_name c) = category_eqb a c.
Proof. destruct a, c; reflexivity. Qed.

(** The entries [getRankingPlayers] sorts. *)
Lemma getRankingPlayers_eq s rankingId category :
  result (getRankingPlayers rankingId (option_map category_name category)) s =
    push_rows (users s) 0
      (array_sort (fun a b => PlayerRanking.points b - PlayerRanking.points a)
         (entries_of s rankingId category)).
Proof.
  unfold result, getRankingPlayers, bind, gets, ret. cbn [fst].
  f_equal. f_equal. unfold entries_of.
  destruct category as [c|]; cbn [option_map].
  - replace (truthy (Some (category_name c))) with true by now destruct c.
    rewrite filter_both. apply filter_ext. intros pr. f_equal.
    replace (string_or (Some (category_name c)) EmptyString)
      with (category_name c) by now destruct c.
    apply category_name_eqb.
  - cbn [truthy]. apply filter_ext. intros pr. now rewrite andb_true_r.
Qed.

(** C8, as the store has it.  For every ranking id and optional category
    filter, [getRankingPlayers] returns one row for each ledger entry of that
    ranking (of that category, when one is given) whose player is a user of
    the store, and for no other entry; the rows are ordered by points
    descending, and rows with equal points are in the insertion order of
    their entries. *)
Theorem getRankingPlayers_lists_known_players_by_points :
  forall (s : MemStorage) (rankingId : Z) (category : option Category),
    users_ok s = true ->
    let rows :=
      result (getRankingPlayers rankingId (option_map category_name category)) s in
    let known := filter (has_user s) (entries_of s rankingId category) in
    exists sorted,
      map row_entry rows = map ledger_entry sorted /\
      Permutation sorted known /\
      StronglySorted
        (fun a b => PlayerRanking.points b <= PlayerRanking.points a) sorted /\
      (forall p,
          filter (fun pr => PlayerRanking.points pr =? p) sorted =
          filter (fun pr => PlayerRanking.points pr =? p) known).
Proof.
  intros s rankingId category Hok rows known.
  exists (filter (has_user s)
            (array_sort (fun a b => PlayerRanking.points b - PlayerRanking.points a)
               (entries_of s rankingId category))).
  split; [|split; [|split]].
  - unfold rows. rewrite getRankingPlayers_eq. now apply push_rows_entries.
  - apply filter_perm. apply array_sort_perm.
  - apply filter_sorted. apply array_sort_sorted.
  - intros p. unfold known.
    rewrite (filter_swap _ (has_user s)), array_sort_stable.
    apply filter_swap.
Qed.

Lemma club_users_ok : users_ok club_store = true.
Proof. reflexivity. Qed.

Lemma getRankingPlayers_lists_known_players_by_points_witness :
  exists sorted,
    map row_entry (result (getRankingPlayers 1 (Some "B"%string)) club_store) =
      map ledger_entry sorted /\
    Permutation sorted [alice_entry].
Proof.
  destruct (getRankingPlayers_lists_known_players_by_points
              club_store 1 (Some CatB) eq_refl) as (sorted & E & P & _).
  exists sorted. split; [exact E | exact P].
Defined.

(** C8, as the specification words it, fails: after Alice has recorded a win
    over a player id that no user has, the open ranking holds two ledger
    entries, and the table lists one; no arrangement of the ranking's entries
    is the list returned. *)
Lemma getRankingPlayers_omits_unknown_players :
  List.length (entries_of unknown_opponent_store 2 None) = 2%nat /\
  List.length (result (getRankingPlayers 2 None) unknown_opponent_store) = 1%nat /\
  ~ (exists l,
       Permutation l (entries_of unknown_opponent_store 2 None) /\
       map row_entry (result (getRankingPlayers 2 None) unknown_opponent_store) =
         map ledger_entry l).
Proof.
  split; [reflexivity|]. split; [reflexivity|].
  intros (l & P & E).
  apply Permutation_length in P.
  apply (f_equal (@List.length _)) in E. rewrite !length_map in E.
  change (List.length (entries_of unknown_opponent_store 2 None)) with 2%nat in P.
  change (List.length (result (getRankingPlayers 2 None) unknown_opponent_store))
    with 1%nat in E.
  congruence.
Qed.

(** ** The scenarios of the specification, run on the model *)

(** A ranking that requires validation, two players without entries, score
    6-3 6-4: the match is created pending and the ledger is unchanged; once
    approved, the winner has 10 points, 1 win, no loss, the loser no points,
    no win, 1 loss, both in category C. *)
Example scenario_pending_then_approved :
  let create := post_api_matches (Some alice) 0 (inr (alice_vs_bob 1)) in
  let s0 := set_playerRankings (fun _ => []) club_store in
  let s1 := after create s0 in
  let s2 := after (validateMatch 2 true None) s1 in
  option_map Match.status (JSMap.get 2 (matches s1)) = Some (Some pending) /\
  playerRankings s1 = [] /\
  option_map Match.status (JSMap.get 2 (matches s2)) = Some (Some approved) /\
  option_map ledger_entry (ledger s2 2 1) = Some (2, CatC, 10, 1, 0) /\
  option_map ledger_entry (ledger s2 3 1) = Some (3, CatC, 0, 0, 1).
Proof. repeat split. Qed.

(** A ranking that does not require validation: the match is stored approved
    and the ledger already shows the result. *)
Example scenario_created_approved :
  let s1 := after (post_api_matches (Some alice) 0 (inr (alice_vs_bob 2))) club_store in
  option_map Match.status (JSMap.get 2 (matches s1)) = Some (Some approved) /\
  option_map ledger_entry (ledger s1 2 2) = Some (2, CatC, 10, 1, 0) /\
  option_map ledger_entry (ledger s1 3 2) = Some (3, CatC, 0, 0, 1) /\
  option_map ledger_entry (ledger s1 2 1) = Some (2, CatB, 240, 24, 3).
Proof. repeat split. Qed.

(** A player at category C who reaches 1000 points goes straight to SS. *)
Example scenario_C_to_SS :
  option_map ledger_entry
    (ledger (after (updatePlayerRankingsForMatch carol_beats_bob) carol_store) 4 1)
  = Some (4, CatSS, 1000, 100, 0).
Proof. reflexivity. Qed.

(** ** Well-formedness is an invariant of the server

    The hypotheses [store_ok] of the theorems above hold of the store the
    constructor leaves and are kept by the operations that write the ledger
    or the matches. *)

Lemma get_in_values {V : Type} (m : JSMap.t V) k v :
  JSMap.get k m = Some v -> In v (JSMap.values m).
Proof.
  induction m as [|[k0 v0] m IH]; simpl; [discriminate|].
  destruct (k =? k0); intros H; [injection H as ->; now left | right; auto].
Qed.

Lemma forallb_values_set {V : Type} (P : V -> bool) (m : JSMap.t V) k v :
  forallb P (JSMap.values m) = true -> P v = true ->
  forallb P (JSMap.values (JSMap.set k v m)) = true.
Proof.
  intros Hm Hv. induction m as [|[k0 v0] m IH]; simpl in *.
  - now rewrite Hv.
  - apply andb_true_iff in Hm as [H0 Hm].
    destruct (k =? k0); simpl; rewrite ?Hv, ?H0; auto.
Qed.

Lemma server_ok_parts s :
  server_ok s = true <-> store_ok s = true /\ matches_ok s = true.
Proof. unfold server_ok. apply andb_true_iff. Qed.

Lemma server_ok_new : server_ok new_MemStorage = true.
Proof. reflexivity. Qed.

Lemma store_ok_createPlayerRanking ins s :
  store_ok s = true -> store_ok (after (createPlayerRanking ins) s) = true.
Proof.
  intros H. unfold store_ok, after, createPlayerRanking, bind, gets, modify, ret.
  cbn. now apply wf_set_fresh.
Qed.

Lemma server_ok_createMatch insertMatch s :
  server_ok s = true ->
  InsertMatch.player1Id insertMatch <> InsertMatch.player2Id insertMatch ->
  server_ok (after (createMatch insertMatch) s) = true.
Proof.
  intros H Hne. apply server_ok_parts in H as [Hs Hm].
  apply server_ok_parts. unfold after. rewrite createMatch_eq. cbn [snd].
  split; [exact Hs|].
  unfold matches_ok. cbn [matches set_matches set_matchIdCounter].
  apply forallb_values_set; [exact Hm|].
  unfold distinct_players. cbn. apply negb_true_iff. now apply Z.eqb_neq.
Qed.

Lemma server_ok_validateMatch matchId isApproved rejectionReason s :
  server_ok s = true ->
  server_ok (after (validateMatch matchId isApproved rejectionReason) s) = true.
Proof.
  intros H. apply server_ok_parts in H as [Hs Hm].
  destruct (JSMap.get matchId (matches s)) as [match_|] eqn:G.
  - unfold after.
    rewrite (validateMatch_some s matchId isApproved rejectionReason match_ G).
    cbn [snd].
    assert (Hd : distinct_players match_ = true).
    { unfold matches_ok in Hm. rewrite forallb_forall in Hm.
      apply Hm. now apply get_in_values with (k := matchId). }
    set (updatedMatch := Match.mk _ _ _ _ _ _ _ _ _ _ _ _).
    set (s1 := set_matches (JSMap.set matchId updatedMatch) s).
    assert (H1 : store_ok s1 = true) by exact Hs.
    assert (M1 : matches_ok s1 = true).
    { unfold matches_ok, s1. cbn [matches set_matches].
      apply forallb_values_set; [exact Hm | exact Hd]. }
    destruct isApproved; [|apply server_ok_parts; now split].
    assert (Hne : Match.player1Id updatedMatch <> Match.player2Id updatedMatch).
    { unfold distinct_players in Hd. apply negb_true_iff in Hd.
      now apply Z.eqb_neq in Hd. }
    destruct (ledger_update s1 updatedMatch H1 Hne) as (_ & _ & Hok & _).
    apply server_ok_parts. split; [exact Hok|].
    unfold matches_ok.
    rewrite (proj1 (proj2 (proj2 (proj2
               (updatePlayerRankingsForMatch_frame updatedMatch s1))))).
    exact M1.
  - unfold after, validateMatch, bind, gets, ret. rewrite G. cbn [snd].
    apply server_ok_parts. now split.
Qed.

Lemma server_ok_post_api_matches req_user now parsed s :
  server_ok s = true ->
  server_ok (after (post_api_matches req_user now parsed) s) = true.
Proof.
  intros H. unfold after, post_api_matches.
  destruct req_user as [user|]; [|exact H].
  destruct parsed as [message|matchData]; [exact H|].
  destruct (is_suspended user now); [exact H|].
  match goal with
  | |- context [match ?r with Some _ => _ | None => _ end] =>
      destruct r as [data|]; [|exact H]
  end.
  destruct (InsertMatch.player1Id data =? InsertMatch.player2Id data) eqn:E;
    [exact H|].
  apply Z.eqb_neq in E.
  unfold bind at 1. unfold getRanking, gets.
  destruct (JSMap.get (InsertMatch.rankingId data) (rankings s)) as [ranking|];
    [|exact H].
  cbv zeta. unfold bind.
  set (data' := if Ranking.requiresValidation ranking
                then with_status data pending else with_status data approved).
  assert (Hne : InsertMatch.player1Id data' <> InsertMatch.player2Id data')
    by (unfold data'; now destruct (Ranking.requiresValidation ranking)).
  pose proof (server_ok_createMatch data' s H Hne) as H1.
  unfold after in H1. destruct (createMatch data' s) as [match_ s1].
  cbn [snd] in H1.
  destruct (Match.status match_) as [[| |]|]; try exact H1.
  pose proof (server_ok_validateMatch (Match.id match_) true None s1 H1) as H2.
  unfold after in H2. unfold ret.
  destruct (validateMatch (Match.id match_) true None s1) as [o s2]. exact H2.
Qed.

Lemma server_ok_post_api_admin_validate_match req_user matchId approved_ rejectionReason s :
  server_ok s = true ->
  server_ok
    (after (post_api_admin_validate_match req_user matchId approved_ rejectionReason) s)
  = true.
Proof.
  intros H. unfold after, post_api_admin_validate_match.
  destruct req_user as [user|]; [|exact H].
  destruct (role_eqb (User.role user) admin); [|exact H].
  destruct approved_ as [b|]; [|exact H].
  unfold bind.
  pose proof (server_ok_validateMatch matchId b rejectionReason s H) as H1.
  unfold after in H1.
  destruct (validateMatch matchId b rejectionReason s) as [[m|] s1]; exact H1.
Qed.

(** * Further properties of the store and of the routes *)

(** ** The ledger update *)

(** X1.  The ledger update of a match between two distinct players leaves the
    ledger entry of every other player, and of the two players in every other
    ranking, as it was, and changes nothing of the store outside the ledger
    map and its counter: users, rankings, locations, matches and their
    counters. *)
Theorem ledger_update_spares_the_rest :
  forall (s : MemStorage) (match_ : Match.t),
    store_ok s = true ->
    Match.player1Id match_ <> Match.player2Id match_ ->
    let s' := after (updatePlayerRankingsForMatch match_) s in
    (forall p r,
        p <> Match.player1Id match_ \/ r <> Match.rankingId match_ ->
        p <> Match.player2Id match_ \/ r <> Match.rankingId match_ ->
        ledger s' p r = ledger s p r) /\
    users s' = users s /\ rankings s' = rankings s /\
    locations s' = locations s /\ matches s' = matches s /\
    userIdCounter s' = userIdCounter s /\
    rankingIdCounter s' = rankingIdCounter s /\
    locationIdCounter s' = locationIdCounter s /\
    matchIdCounter s' = matchIdCounter s.
Proof.
  intros s match_ Hok Hne s'. split.
  - destruct (ledger_update s match_ Hok Hne) as (_ & _ & _ & _ & _ & F).
    exact F.
  - apply (updatePlayerRankingsForMatch_frame match_ s).
Qed.

Lemma ledger_update_spares_the_rest_witness :
  ledger (after (updatePlayerRankingsForMatch alice_beats_bob) club_store) 2 2
    = ledger club_store 2 2 /\
  matches (after (updatePlayerRankingsForMatch alice_beats_bob) club_store)
    = matches club_store.
Proof.
  destruct (ledger_update_spares_the_rest club_store alice_beats_bob
              eq_refl ltac:(discriminate)) as (F & _ & _ & _ & M & _).
  split; [|exact M].
  apply F; right; discriminate.
Defined.

Lemma promote_never_demotes points c :
  category_rank c <= category_rank (promote points c).
Proof.
  unfold promote.
  destruct c; cbn [category_eqb negb];
    rewrite ?andb_false_r, ?andb_true_r;
    repeat match goal with
           | |- context [if ?b then _ else _] => destruct b
           end; cbn [category_rank]; lia.
Qed.

(** X2.  The category of a player's entry never goes down in the order
    C < B < A < S < SS when a match of theirs against another player is
    approved, whether they win or lose. *)
Theorem category_never_goes_down :
  forall (s : MemStorage) (match_ : Match.t) (p : Z) (pr : PlayerRanking.t),
    store_ok s = true ->
    Match.player1Id match_ <> Match.player2Id match_ ->
    p = Match.player1Id match_ \/ p = Match.player2Id match_ ->
    ledger s p (Match.rankingId match_) = Some pr ->
    exists pr',
      ledger (after (updatePlayerRankingsForMatch match_) s) p
        (Match.rankingId match_) = Some pr' /\
      category_rank (PlayerRanking.category pr)
        <= category_rank (PlayerRanking.category pr').
Proof.
  intros s match_ p pr Hok Hne Hp L.
  destruct (ledger_update_player s match_ p Hok Hne Hp) as (id & L').
  rewrite L in L'. eexists. split; [exact L'|].
  cbn [entry_after settle PlayerRanking.category].
  rewrite promote_from_same. apply promote_never_demotes.
Qed.

Lemma category_never_goes_down_witness :
  exists pr',
    ledger (after (updatePlayerRankingsForMatch alice_beats_bob) club_store) 2 1
      = Some pr' /\
    category_rank CatB <= category_rank (PlayerRanking.category pr').
Proof.
  apply (category_never_goes_down club_store alice_beats_bob 2 alice_entry).
  - reflexivity.
  - discriminate.
  - left. reflexivity.
  - reflexivity.
Defined.



(** ** Approving a match *)

(** One approval on a well-formed store: the stored match keeps its players,
    ranking and score, the store stays well-formed, and the winner and the
    loser are credited. *)
Lemma approval_effect s matchId rejectionReason match_ :
  store_ok s = true ->
  JSMap.get matchId (matches s) = Some match_ ->
  Match.player1Id match_ <> Match.player2Id match_ ->
  let r := Match.rankingId match_ in
  let s' := after (validateMatch matchId true rejectionReason) s in
  store_ok s' = true /\
  (exists m',
      JSMap.get matchId (matches s') = Some m' /\
      Match.player1Id m' = Match.player1Id match_ /\
      Match.player2Id m' = Match.player2Id match_ /\
      Match.rankingId m' = r /\
      Match.score m' = Match.score match_) /\
  (exists idw idl,
      ledger s' (winner match_) r =
        Some (entry_after (ledger s (winner match_) r) idw (winner match_) r true) /\
      ledger s' (loser match_) r =
        Some (entry_after (ledger s (loser match_) r) idl (loser match_) r false)).
Proof.
  intros Hok G Hne r s'. unfold s', after.
  rewrite (validateMatch_some s matchId true rejectionReason match_ G).
  cbn [snd].
  set (updatedMatch := Match.mk _ _ _ _ _ _ _ _ _ _ _ _).
  set (s1 := set_matches (JSMap.set matchId updatedMatch) s).
  assert (H1 : store_ok s1 = true) by exact Hok.
  assert (Hne1 : Match.player1Id updatedMatch <> Match.player2Id updatedMatch)
    by exact Hne.
  split; [|split].
  - destruct (ledger_update s1 updatedMatch H1 Hne1) as (_ & _ & Hok' & _).
    exact Hok'.
  - exists updatedMatch.
    rewrite (proj1 (proj2 (proj2 (proj2
               (updatePlayerRankingsForMatch_frame updatedMatch s1))))).
    split; [apply get_set_same | repeat split].
  - exact (ledger_update_winner_loser s1 updatedMatch H1 Hne1).
Qed.

(** X4.  [validateMatch] does not look at the status a match already has:
    approving a stored match a second time credits the winner and the loser a
    second time.  After two approvals of a match between two distinct
    players, the winner's entry has 20 points and 2 wins more than before the
    first (counted from nothing when the entry did not exist) and the loser's
    entry 2 losses more. *)
Theorem approving_twice_credits_twice :
  forall (s : MemStorage) (matchId : Z) (reason1 reason2 : option string)
         (match_ : Match.t),
    store_ok s = true ->
    JSMap.get matchId (matches s) = Some match_ ->
    Match.player1Id match_ <> Match.player2Id match_ ->
    let r := Match.rankingId match_ in
    let s2 := after (validateMatch matchId true reason2)
                (after (validateMatch matchId true reason1) s) in
    (exists w',
        ledger s2 (winner match_) r = Some w' /\
        match ledger s (winner match_) r with
        | Some w =>
            PlayerRanking.points w' = PlayerRanking.points w + 20 /\
            PlayerRanking.wins w' = PlayerRanking.wins w + 2 /\
            PlayerRanking.losses w' = PlayerRanking.losses w
        | None =>
            PlayerRanking.points w' = 20 /\
            PlayerRanking.wins w' = 2 /\
            PlayerRanking.losses w' = 0
        end) /\
    (exists l',
        ledger s2 (loser match_) r = Some l' /\
        match ledger s (loser match_) r with
        | Some l =>
            PlayerRanking.points l' = PlayerRanking.points l /\
            PlayerRanking.wins l' = PlayerRanking.wins l /\
            PlayerRanking.losses l' = PlayerRanking.losses l + 2
        | None =>
            PlayerRanking.points l' = 0 /\
            PlayerRanking.wins l' = 0 /\
            PlayerRanking.losses l' = 2
        end).
Proof.
  intros s matchId reason1 reason2 match_ Hok G Hne r s2.
  destruct (approval_effect s matchId reason1 match_ Hok G Hne)
    as (Hok1 & (m1 & G1 & P1 & P2 & R1 & Sc1) & (idw & idl & Lw & Ll)).
  set (s1 := after (validateMatch matchId true reason1) s) in *.
  assert (Hne1 : Match.player1Id m1 <> Match.player2Id m1) by congruence.
  destruct (approval_effect s1 matchId reason2 m1 Hok1 G1 Hne1)
    as (_ & _ & (idw2 & idl2 & Lw2 & Ll2)).
  assert (Ew : winner m1 = winner match_)
    by (unfold winner; now rewrite Sc1, P1, P2).
  assert (El : loser m1 = loser match_)
    by (unfold loser; now rewrite Sc1, P1, P2).
  rewrite Ew, El, R1 in *. fold r in Lw, Ll, Lw2, Ll2. fold s2 in Lw2, Ll2.
  rewrite Lw in Lw2. rewrite Ll in Ll2.
  split.
  - eexists. split; [exact Lw2|].
    destruct (ledger s (winner match_) r);
      cbn [entry_after settle fresh PlayerRanking.points PlayerRanking.wins
             PlayerRanking.losses]; repeat split; lia.
  - eexists. split; [exact Ll2|].
    destruct (ledger s (loser match_) r);
      cbn [entry_after settle fresh PlayerRanking.points PlayerRanking.wins
             PlayerRanking.losses]; repeat split; lia.
Qed.

Lemma approving_twice_credits_twice_witness :
  let s2 := after (validateMatch 1 true None)
              (after (validateMatch 1 true None) club_store) in
  (exists w', ledger s2 2 1 = Some w' /\
              PlayerRanking.points w' = 260 /\ PlayerRanking.wins w' = 26 /\
              PlayerRanking.losses w' = 3) /\
  (exists l', ledger s2 3 1 = Some l' /\
              PlayerRanking.points l' = 0 /\ PlayerRanking.wins l' = 0 /\
              PlayerRanking.losses l' = 2).
Proof.
  apply (approving_twice_credits_twice club_store 1 None None alice_beats_bob).
  - reflexivity.
  - reflexivity.
  - discriminate.
Defined.

(** ** One entry for a player in a ranking *)

Lemma pairs_set_same (m : JSMap.t PlayerRanking.t) k v c :
  JSMap.get k m = Some c -> entry_pair v = entry_pair c ->
  map entry_pair (JSMap.values (JSMap.set k v m)) =
  map entry_pair (JSMap.values m).
Proof.
  intros G E. induction m as [|[k0 v0] m IH]; simpl in *; [discriminate|].
  destruct (k =? k0); simpl.
  - injection G as ->. now rewrite E.
  - now rewrite IH.
Qed.

Lemma find_none_no_pair p r (l : list PlayerRanking.t) :
  find (is_entry_of p r) l = None -> ~ In (p, r) (map entry_pair l).
Proof.
  induction l as [|x l IH]; simpl; [tauto|].
  destruct (is_entry_of p r x) eqn:E; [discriminate|].
  intros H [Hx | Hin]; [|now apply IH].
  unfold entry_pair in Hx. injection Hx as <- <-.
  unfold is_entry_of in E. now rewrite !Z.eqb_refl in E.
Qed.

Lemma settled_unique s p r pr won :
  store_ok s = true -> ledger s p r = Some pr -> ledger_unique s ->
  ledger_unique
    (set_playerRankings (JSMap.set (PlayerRanking.id pr) (settle pr pr won)) s).
Proof.
  intros Hok L U. destruct (ledger_some_get s p r pr Hok L) as (G & _).
  unfold ledger_unique. cbn [playerRankings set_playerRankings].
  now rewrite (pairs_set_same _ _ _ pr G).
Qed.

Lemma created_unique s p r won :
  store_ok s = true -> ledger s p r = None -> ledger_unique s ->
  ledger_unique
    (set_playerRankings
       (JSMap.set (playerRankingIdCounter s) (fresh (playerRankingIdCounter s) p r won))
       (set_playerRankingIdCounter (playerRankingIdCounter s + 1) s)).
Proof.
  intros Hok L U. destruct (store_ok_parts s Hok) as (_ & _ & Hb).
  unfold ledger_unique.
  cbn [playerRankings set_playerRankings set_playerRankingIdCounter].
  rewrite get_none_set
    by (apply keys_below_get with (n := playerRankingIdCounter s); auto; lia).
  unfold JSMap.values. rewrite !map_app. cbn [map].
  apply NoDup_app_remove_l with (l := []). cbn [app].
  apply Permutation_NoDup with (l := (p, r) :: map entry_pair (map snd (playerRankings s))).
  - apply Permutation_cons_append.
  - constructor; [|exact U]. now apply find_none_no_pair.
Qed.

Lemma updatePlayerRankingsForMatch_blocks match_ s :
  after (updatePlayerRankingsForMatch match_) s =
    snd (update_player2 match_ (player1IsWinner (Match.score match_))
           (ledger s (Match.player2Id match_) (Match.rankingId match_))
           (snd (update_player1 match_ (player1IsWinner (Match.score match_))
                   (ledger s (Match.player1Id match_) (Match.rankingId match_)) s))).
Proof.
  unfold after, updatePlayerRankingsForMatch, bind, getPlayerRanking, gets, ledger, result.
  cbn [fst snd].
  destruct (update_player1 match_ _ _ s) as [[] s1]. reflexivity.
Qed.

Lemma ledger_update_unique s match_ :
  store_ok s = true -> ledger_unique s ->
  Match.player1Id match_ <> Match.player2Id match_ ->
  ledger_unique (after (updatePlayerRankingsForMatch match_) s).
Proof.
  intros Hok U Hne. rewrite updatePlayerRankingsForMatch_blocks.
  set (w := player1IsWinner (Match.score match_)).
  set (r := Match.rankingId match_).
  set (p1 := Match.player1Id match_) in *.
  set (p2 := Match.player2Id match_) in *.
  assert (H1 : exists s1,
             snd (update_player1 match_ w (ledger s p1 r) s) = s1 /\
             store_ok s1 = true /\ ledger_unique s1 /\
             ledger s1 p2 r = ledger s p2 r).
  { destruct (ledger s p1 r) as [pr1|] eqn:L1.
    - destruct (ledger_some_get s p1 r pr1 Hok L1) as (G & _).
      rewrite (update_player1_some match_ w pr1 pr1 s G). cbn [snd].
      eexists. split; [reflexivity|].
      destruct (settled_store s p1 r pr1 w Hok L1) as (Hok1 & _ & F).
      split; [exact Hok1|]. split; [now apply settled_unique with (p := p1) (r := r)|].
      apply F. left. now apply not_eq_sym.
    - rewrite update_player1_none. cbn [snd].
      eexists. split; [reflexivity|].
      destruct (created_store s p1 r w Hok L1) as (Hok1 & _ & F).
      split; [exact Hok1|]. split; [now apply created_unique|].
      apply F. left. now apply not_eq_sym. }
  destruct H1 as (s1 & -> & Hok1 & U1 & <-).
  destruct (ledger s1 p2 r) as [pr2|] eqn:L2.
  - destruct (ledger_some_get s1 p2 r pr2 Hok1 L2) as (G & _).
    rewrite (update_player2_some match_ w pr2 pr2 s1 G). cbn [snd].
    now apply settled_unique with (p := p2) (r := r).
  - rewrite update_player2_none. cbn [snd]. now apply created_unique.
Qed.

Lemma validateMatch_unique matchId isApproved rejectionReason s :
  server_ok s = true -> ledger_unique s ->
  ledger_unique (after (validateMatch matchId isApproved rejectionReason) s).
Proof.
  intros H U. apply server_ok_parts in H as [Hs Hm].
  destruct (JSMap.get matchId (matches s)) as [match_|] eqn:G.
  - unfold after.
    rewrite (validateMatch_some s matchId isApproved rejectionReason match_ G).
    cbn [snd]. destruct isApproved; [|exact U].
    apply ledger_update_unique; [exact Hs | exact U |].
    cbn [Match.player1Id Match.player2Id].
    unfold matches_ok in Hm. rewrite forallb_forall in Hm.
    specialize (Hm match_ (get_in_values _ matchId match_ G)).
    unfold distinct_players in Hm. apply negb_true_iff in Hm.
    now apply Z.eqb_neq.
  - unfold after, validateMatch, bind, gets, ret. now rewrite G.
Qed.

Lemma post_api_matches_unique req_user now parsed s :
  server_ok s = true -> ledger_unique s ->
  ledger_unique (after (post_api_matches req_user now parsed) s).
Proof.
  intros H U. unfold after, post_api_matches.
  destruct req_user as [user|]; [|exact U].
  destruct parsed as [message|matchData]; [exact U|].
  destruct (is_suspended user now); [exact U|].
  match goal with
  | |- context [match ?r with Some _ => _ | None => _ end] =>
      destruct r as [data|]; [|exact U]
  end.
  destruct (InsertMatch.player1Id data =? InsertMatch.player2Id data) eqn:E;
    [exact U|].
  apply Z.eqb_neq in E.
  unfold bind at 1. unfold getRanking, gets.
  destruct (JSMap.get (InsertMatch.rankingId data) (rankings s)) as [ranking|];
    [|exact U].
  cbv zeta. unfold bind.
  set (data' := if Ranking.requiresValidation ranking
                then with_status data pending else with_status data approved).
  assert (Hne : InsertMatch.player1Id data' <> InsertMatch.player2Id data')
    by (unfold data'; now destruct (Ranking.requiresValidation ranking)).
  pose proof (server_ok_createMatch data' s H Hne) as H1.
  unfold after in H1. rewrite createMatch_eq in *. cbn [snd] in H1.
  cbn [match_of Match.status Match.id].
  set (s1 := set_matches _ _) in *.
  assert (U1 : ledger_unique s1) by exact U.
  destruct (InsertMatch.status data') as [[| |]|]; try exact U1.
  pose proof (validateMatch_unique (matchIdCounter s) true None s1 H1 U1) as U2.
  unfold after in U2. unfold ret.
  destruct (validateMatch (matchIdCounter s) true None s1) as [o s2]. exact U2.
Qed.

Lemma post_api_player_rankings_state req_user parsed s :
  after (post_api_player_rankings req_user parsed) s = s \/
  exists data,
    parsed = inr data /\
    ledger s (InsertPlayerRanking.playerId data) (InsertPlayerRanking.rankingId data)
      = None /\
    after (post_api_player_rankings req_user parsed) s =
      after (createPlayerRanking data) s.
Proof.
  unfold after, post_api_player_rankings.
  destruct req_user as [user|]; [|now left].
  destruct (role_eqb (User.role user) admin); [|now left].
  destruct parsed as [message|data]; [now left|].
  unfold bind at 1. unfold getPlayerRanking at 1. unfold gets at 1.
  destruct (find (is_entry_of (InsertPlayerRanking.playerId data)
                    (InsertPlayerRanking.rankingId data))
              (JSMap.values (playerRankings s))) eqn:L; [now left|].
  right. exists data. split; [reflexivity|]. split; [exact L|].
  unfold bind, getPlayerRanking, gets, ret. rewrite L.
  destruct (createPlayerRanking data s). reflexivity.
Qed.

Lemma post_api_player_rankings_ok req_user parsed s :
  store_ok s = true ->
  store_ok (after (post_api_player_rankings req_user parsed) s) = true /\
  matches (after (post_api_player_rankings req_user parsed) s) = matches s /\
  (ledger_unique s ->
   ledger_unique (after (post_api_player_rankings req_user parsed) s)).
Proof.
  intros Hok.
  destruct (post_api_player_rankings_state req_user parsed s)
    as [-> | (data & _ & L & ->)]; [now repeat split|].
  split; [|split].
  - apply (store_ok_createPlayerRanking data s Hok).
  - reflexivity.
  - intros U. unfold ledger_unique. cbn.
    destruct (store_ok_parts s Hok) as (_ & _ & Hb).
    rewrite get_none_set
      by (apply keys_below_get with (n := playerRankingIdCounter s); auto; lia).
    unfold JSMap.values. rewrite !map_app. cbn [map].
    apply Permutation_NoDup
      with (l := (InsertPlayerRanking.playerId data, InsertPlayerRanking.rankingId data)
                   :: map entry_pair (map snd (playerRankings s))).
    + apply Permutation_cons_append.
    + constructor; [|exact U]. now apply find_none_no_pair.
Qed.

(** X5.  Well-formedness is kept by the three routes that write the ledger
    or the matches: after [POST /api/matches], [POST
    /api/admin/validate-match/:id] or [POST /api/player-rankings], whatever
    the request and its answer, the ledger entries are still stored under
    their own distinct ids below the counter, and the stored matches still
    oppose two distinct players. *)
Theorem routes_keep_the_store_well_formed :
  forall (s : MemStorage) (req_user : option User.t) (now : Z)
         (parsed : string + InsertMatch.t) (matchId : Z)
         (approved_ : option bool) (rejectionReason : option string)
         (parsed_entry : string + InsertPlayerRanking.t),
    server_ok s = true ->
    server_ok (after (post_api_matches req_user now parsed) s) = true /\
    server_ok
      (after (post_api_admin_validate_match req_user matchId approved_ rejectionReason) s)
      = true /\
    server_ok (after (post_api_player_rankings req_user parsed_entry) s) = true.
Proof.
  intros s req_user now parsed matchId approved_ rejectionReason parsed_entry H.
  split; [|split].
  - now apply server_ok_post_api_matches.
  - now apply server_ok_post_api_admin_validate_match.
  - apply server_ok_parts in H as [Hs Hm]. apply server_ok_parts.
    destruct (post_api_player_rankings_ok req_user parsed_entry s Hs) as (Hs' & M & _).
    split; [exact Hs'|]. unfold matches_ok. now rewrite M.
Qed.

Lemma routes_keep_the_store_well_formed_witness :
  server_ok (after (post_api_matches (Some alice) 0 (inr (alice_vs_bob 2))) club_store)
    = true.
Proof.
  apply (routes_keep_the_store_well_formed club_store (Some alice) 0
           (inr (alice_vs_bob 2)) 1 None None (inl EmptyString)).
  reflexivity.
Defined.

(** X6.  On a well-formed store whose ledger holds at most one entry for a
    player in a ranking, the three routes that write the ledger keep it so:
    the ledger update creates an entry only for a player who has none, and
    [POST /api/player-rankings] refuses a second entry. *)
Theorem routes_keep_one_entry_per_player_and_ranking :
  forall (s : MemStorage) (req_user : option User.t) (now : Z)
         (parsed : string + InsertMatch.t) (matchId : Z)
         (approved_ : option bool) (rejectionReason : option string)
         (parsed_entry : string + InsertPlayerRanking.t),
    server_ok s = true ->
    ledger_unique s ->
    ledger_unique (after (post_api_matches req_user now parsed) s) /\
    ledger_unique
      (after (post_api_admin_validate_match req_user matchId approved_ rejectionReason) s)
    /\
    ledger_unique (after (post_api_player_rankings req_user parsed_entry) s).
Proof.
  intros s req_user now parsed matchId approved_ rejectionReason parsed_entry H U.
  split; [|split].
  - now apply post_api_matches_unique.
  - unfold after, post_api_admin_validate_match.
    destruct req_user as [user|]; [|exact U].
    destruct (role_eqb (User.role user) admin); [|exact U].
    destruct approved_ as [b|]; [|exact U].
    unfold bind.
    pose proof (validateMatch_unique matchId b rejectionReason s H U) as U1.
    unfold after in U1.
    destruct (validateMatch matchId b rejectionReason s) as [[m|] s1]; exact U1.
  - apply server_ok_parts in H as [Hs _].
    now apply (post_api_player_rankings_ok req_user parsed_entry s Hs).
Qed.

Lemma club_ledger_unique : ledger_unique club_store.
Proof.
  unfold ledger_unique. cbn. constructor; [intros []|constructor].
Qed.

Lemma routes_keep_one_entry_per_player_and_ranking_witness :
  ledger_unique
    (after (post_api_matches (Some alice) 0 (inr (alice_vs_bob 1))) club_store) /\
  ledger_unique (after (post_api_admin_validate_match (Some admin_user) 1 (Some true) None)
                   club_store).
Proof.
  destruct (routes_keep_one_entry_per_player_and_ranking club_store
              (Some admin_user) 0 (inr (alice_vs_bob 1)) 1 (Some true) None
              (inl EmptyString) eq_refl club_ledger_unique) as (U1 & U2 & _).
  split; [|exact U2].
  exact (proj1 (routes_keep_one_entry_per_player_and_ranking club_store
                  (Some alice) 0 (inr (alice_vs_bob 1)) 1 None None
                  (inl EmptyString) eq_refl club_ledger_unique)).
Defined.

(** X7.  [POST /api/player-rankings] on a well-formed store: a requester who
    is not an admin is answered 403 and nothing changes; for an admin, a
    player who already has an entry in the ranking is answered 400 and
    nothing changes; otherwise the answer is 201 with the new entry, which
    carries the fields of the request under the id the counter held, is what
    [getPlayerRanking] then returns for that player and ranking, and leaves
    the entries of every other player or ranking as they were. *)
Theorem admin_enrols_a_player_once :
  forall (s : MemStorage) (req_user : option User.t) (data : InsertPlayerRanking.t),
    store_ok s = true ->
    let p := InsertPlayerRanking.playerId data in
    let r := InsertPlayerRanking.rankingId data in
    let answer := result (post_api_player_rankings req_user (inr data)) s in
    let s' := after (post_api_player_rankings req_user (inr data)) s in
    (is_admin req_user = false ->
     answer = refusal 403 "Forbidden: Admin access required" /\ s' = s) /\
    (is_admin req_user = true -> ledger s p r <> None ->
     answer = refusal 400 "Player is already in this ranking" /\ s' = s) /\
    (is_admin req_user = true -> ledger s p r = None ->
     let pr := PlayerRanking.mk (playerRankingIdCounter s) p r
                 (InsertPlayerRanking.category data) (InsertPlayerRanking.points data)
                 (InsertPlayerRanking.wins data) (InsertPlayerRanking.losses data) in
     answer = reply 201 pr /\
     ledger s' p r = Some pr /\
     (forall p' r', p' <> p \/ r' <> r -> ledger s' p' r' = ledger s p' r')).
Proof.
  intros s req_user data Hok p r answer s'.
  unfold answer, s', result, after, post_api_player_rankings, is_admin.
  destruct req_user as [user|];
    [destruct (role_eqb (User.role user) admin)|];
    (split; [|split]); try discriminate; try (intros _; split; reflexivity).
  - intros _ L. unfold bind, getPlayerRanking, gets. cbv beta iota.
    change (find (is_entry_of (InsertPlayerRanking.playerId data)
                    (InsertPlayerRanking.rankingId data))
              (JSMap.values (playerRankings s)))
      with (ledger s p r).
    destruct (ledger s p r); [split; reflexivity | congruence].
  - intros _ L. unfold bind, getPlayerRanking, gets. cbv beta iota.
    change (find (is_entry_of (InsertPlayerRanking.playerId data)
                    (InsertPlayerRanking.rankingId data))
              (JSMap.values (playerRankings s)))
      with (ledger s p r).
    rewrite L. cbn [fst snd createPlayerRanking bind gets modify ret].
    fold p r.
    set (pr := PlayerRanking.mk (playerRankingIdCounter s) p r
                 (InsertPlayerRanking.category data) (InsertPlayerRanking.points data)
                 (InsertPlayerRanking.wins data) (InsertPlayerRanking.losses data)).
    destruct (store_ok_parts s Hok) as (_ & _ & Hb).
    assert (Hn : JSMap.get (playerRankingIdCounter s) (playerRankings s) = None)
      by (apply keys_below_get with (n := playerRankingIdCounter s); auto; lia).
    assert (He : is_entry_of p r pr = true)
      by (apply is_entry_of_true; split; reflexivity).
    split; [reflexivity|]. split.
    + rewrite ledger_unfold. cbn [playerRankings set_playerRankings
                                    set_playerRankingIdCounter].
      now apply find_set_fresh.
    + intros p' r' Hne. rewrite !ledger_unfold.
      cbn [playerRankings set_playerRankings set_playerRankingIdCounter].
      apply find_set_miss.
      * now apply is_entry_of_other with (p := p) (r := r).
      * intros c Hc. congruence.
Qed.

Lemma admin_enrols_a_player_once_witness :
  result (post_api_player_rankings (Some admin_user)
            (inr (InsertPlayerRanking.mk 2 1 CatC 0 0 0))) club_store
    = refusal 400 "Player is already in this ranking" /\
  ledger (after (post_api_player_rankings (Some admin_user)
                   (inr (InsertPlayerRanking.mk 3 1 CatC 0 0 0))) club_store) 3 1
    = Some (PlayerRanking.mk 2 3 1 CatC 0 0 0).
Proof.
  split.
  - apply (admin_enrols_a_player_once club_store (Some admin_user)
             (InsertPlayerRanking.mk 2 1 CatC 0 0 0) eq_refl);
      [reflexivity | discriminate].
  - apply (admin_enrols_a_player_once club_store (Some admin_user)
             (InsertPlayerRanking.mk 3 1 CatC 0 0 0) eq_refl); reflexivity.
Defined.

(** ** Creating a match: all or nothing *)




(** ** More on the score evaluator *)

Lemma player1IsWinner_by_counts score :
  player1IsWinner score =
    (player2Sets (Score.sets score) <? player1Sets (Score.sets score))%nat.
Proof.
  unfold player1IsWinner. rewrite count_set_fold, Z.gtb_ltb. cbn [Z.add].
  destruct (player2Sets (Score.sets score) <? player1Sets (Score.sets score))%nat eqn:N.
  - apply Nat.ltb_lt in N. apply Z.ltb_lt. lia.
  - apply Nat.ltb_ge in N. apply Z.ltb_ge. lia.
Qed.

(** X9.  The winner does not depend on the order in which the sets are
    listed, nor on the tiebreak pairs: two scores whose sets are the same up
    to their order have the same winner. *)
Theorem winner_ignores_the_order_of_sets :
  forall (score score' : Score.t),
    Permutation (Score.sets score) (Score.sets score') ->
    player1IsWinner score = player1IsWinner score'.
Proof.
  intros score score' P. rewrite !player1IsWinner_by_counts.
  assert (H1 : player1Sets (Score.sets score) = player1Sets (Score.sets score'))
    by (unfold player1Sets; apply Permutation_length, filter_perm, P).
  assert (H2 : player2Sets (Score.sets score) = player2Sets (Score.sets score'))
    by (unfold player2Sets; apply Permutation_length, filter_perm, P).
  now rewrite H1, H2.
Qed.

Lemma winner_ignores_the_order_of_sets_witness :
  player1IsWinner (Score.mk [SetScore.mk 3 6; SetScore.mk 6 4; SetScore.mk 7 5] None) =
  player1IsWinner (Score.mk [SetScore.mk 6 4; SetScore.mk 3 6; SetScore.mk 7 5]
                     (Some (SetScore.mk 7 3))).
Proof.
  apply (winner_ignores_the_order_of_sets
           (Score.mk [SetScore.mk 3 6; SetScore.mk 6 4; SetScore.mk 7 5] None)
           (Score.mk [SetScore.mk 6 4; SetScore.mk 3 6; SetScore.mk 7 5]
              (Some (SetScore.mk 7 3)))).
  apply perm_swap.
Defined.

Lemma swap_counts sets :
  player1Sets (map swap_set sets) = player2Sets sets /\
  player2Sets (map swap_set sets) = player1Sets sets.
Proof.
  unfold player1Sets, player2Sets.
  induction sets as [|x l [IH1 IH2]]; [split; reflexivity|].
  cbn [map filter swap_set SetScore.player1Score SetScore.player2Score].
  split.
  - destruct (SetScore.player1Score x <? SetScore.player2Score x);
      cbn [List.length]; now rewrite IH1.
  - destruct (SetScore.player2Score x <? SetScore.player1Score x);
      cbn [List.length]; now rewrite IH2.
Qed.

(** X10.  Exchanging the two sides of a score exchanges the winner, except on
    equal set counts: the exchanged score makes player 1 the winner exactly
    when the original gives player 2 strictly more sets, so a score never
    makes player 1 the winner both ways, and it makes player 2 the winner
    both ways exactly when the set counts are equal. *)
Theorem exchanging_sides_exchanges_the_winner :
  forall (score : Score.t),
    let sets := Score.sets score in
    player1IsWinner (swap_sides score) = (player1Sets sets <? player2Sets sets)%nat /\
    (player1IsWinner score = true -> player1IsWinner (swap_sides score) = false) /\
    (player1IsWinner score = false /\ player1IsWinner (swap_sides score) = false <->
     player1Sets sets = player2Sets sets).
Proof.
  intros score sets.
  assert (E : player1IsWinner (swap_sides score) =
              (player1Sets sets <? player2Sets sets)%nat).
  { rewrite player1IsWinner_by_counts. cbn [swap_sides Score.sets].
    destruct (swap_counts (Score.sets score)) as [-> ->]. reflexivity. }
  rewrite E, player1IsWinner_by_counts. fold sets.
  split; [reflexivity|]. split.
  - intros H. apply Nat.ltb_lt in H. apply Nat.ltb_ge. lia.
  - rewrite !Nat.ltb_ge. lia.
Qed.

(** ** Positions in the ranking table *)






(** ** The category filter and the table route *)

Lemma push_rows_nil us i : push_rows us i [] = [].
Proof. reflexivity. Qed.

Lemma filter_none {A : Type} (f : A -> bool) l :
  (forall x, f x = false) -> filter f l = [].
Proof.
  intros H. induction l as [|x l IH]; [reflexivity|]. simpl. now rewrite H.
Qed.

(** X12.  The category filter of [getRankingPlayers] is compared as a string:
    a filter that is not one of the names C, B, A, S, SS (a lower-case letter,
    say) gives an empty table, and the empty string is taken as no filter at
    all. *)
Theorem category_filter_is_a_name_or_nothing :
  forall (s : MemStorage) (rankingId : Z) (category : string),
    (category = EmptyString ->
     result (getRankingPlayers rankingId (Some category)) s =
     result (getRankingPlayers rankingId None) s) /\
    (category <> EmptyString ->
     (forall c, category_name c <> category) ->
     result (getRankingPlayers rankingId (Some category)) s = []).
Proof.
  intros s rankingId category. split.
  - intros ->. reflexivity.
  - intros Hne Hc.
    unfold result, getRankingPlayers, bind, gets, ret. cbn [fst].
    replace (truthy (Some category)) with true.
    2:{ unfold truthy. destruct (String.eqb category EmptyString) eqn:E;
          [apply String.eqb_eq in E; contradiction | reflexivity]. }
    rewrite filter_none; [reflexivity|].
    intros pr. apply String.eqb_neq. unfold string_or.
    destruct (String.eqb category EmptyString); [|apply Hc].
    destruct (PlayerRanking.category pr); discriminate.
Qed.

Lemma category_filter_is_a_name_or_nothing_witness :
  result (getRankingPlayers 1 (Some "b"%string)) club_store = [].
Proof.
  apply (category_filter_is_a_name_or_nothing club_store 1 "b"%string).
  - discriminate.
  - intros c. destruct c; discriminate.
Defined.

Lemma getRankingPlayers_pure rankingId category s :
  getRankingPlayers rankingId category s =
    (result (getRankingPlayers rankingId category) s, s).
Proof. reflexivity. Qed.

Lemma get_api_rankings_id_players_eq s user rankingId category :
  get_api_rankings_id_players (Some user) (Some rankingId) category s =
    (match JSMap.get rankingId (rankings s) with
     | None => refusal 404 "Ranking not found"
     | Some ranking =>
         if Ranking.isPublic ranking || role_eqb (User.role user) admin
            || match ledger s (User.id user) rankingId with
               | Some _ => true
               | None => false
               end
         then reply 200
                (map (fun player =>
                        with_isCurrentUser player
                          (PlayerWithRanking.playerId player =? User.id user))
                   (result (getRankingPlayers rankingId category) s))
         else refusal 403 "You don't have access to this ranking"
     end, s).
Proof.
  unfold get_api_rankings_id_players, bind, getRanking, getPlayerRanking, gets, ret.
  cbv beta iota zeta.
  destruct (JSMap.get rankingId (rankings s)) as [ranking|]; [|reflexivity].
  destruct (Ranking.isPublic ranking); cbn [negb andb orb];
    [now rewrite getRankingPlayers_pure|].
  destruct (role_eqb (User.role user) admin); cbn [negb andb orb];
    [now rewrite getRankingPlayers_pure|].
  cbv beta iota.
  change (find (is_entry_of (User.id user) rankingId)
            (JSMap.values (playerRankings s)))
    with (ledger s (User.id user) rankingId).
  destruct (ledger s (User.id user) rankingId); [|reflexivity].
  now rewrite getRankingPlayers_pure.
Qed.

(** X13.  [GET /api/rankings/:id/players] never changes the store.  Signed
    in, for an existing ranking that is public, or for an admin, or for a
    player with an entry in it, it answers 200 with the rows of
    [getRankingPlayers] in the same order, each flagged [isCurrentUser]
    exactly when its player is the requester; for a private ranking, to a
    requester who is neither an admin nor a player with an entry in it, it
    answers 403; for a ranking that does not exist, 404. *)
Theorem table_route_flags_the_requester :
  forall (s : MemStorage) (user : User.t) (rankingId : Z) (category : option string),
    let answer :=
      result (get_api_rankings_id_players (Some user) (Some rankingId) category) s in
    after (get_api_rankings_id_players (Some user) (Some rankingId) category) s = s /\
    match JSMap.get rankingId (rankings s) with
    | None => answer = refusal 404 "Ranking not found"
    | Some ranking =>
        if Ranking.isPublic ranking || role_eqb (User.role user) admin
           || match ledger s (User.id user) rankingId with
              | Some _ => true
              | None => false
              end
        then
          exists rows,
            answer = reply 200 rows /\
            map row_entry rows =
              map row_entry (result (getRankingPlayers rankingId category) s) /\
            map PlayerWithRanking.position rows =
              map PlayerWithRanking.position
                (result (getRankingPlayers rankingId category) s) /\
            Forall (fun row =>
                      PlayerWithRanking.isCurrentUser row =
                        (PlayerWithRanking.playerId row =? User.id user)) rows
        else answer = refusal 403 "You don't have access to this ranking"
    end.
Proof.
  intros s user rankingId category answer.
  unfold answer, result, after.
  rewrite get_api_rankings_id_players_eq. cbn [fst snd].
  split; [reflexivity|].
  destruct (JSMap.get rankingId (rankings s)) as [ranking|]; [|reflexivity].
  destruct (Ranking.isPublic ranking || role_eqb (User.role user) admin
            || match ledger s (User.id user) rankingId with
               | Some _ => true
               | None => false
               end); [|reflexivity].
  eexists. split; [reflexivity|].
  rewrite !map_map. repeat split.
  apply Forall_map. apply Forall_forall. reflexivity.
Qed.

(** ** Private rankings *)

(** X14.  Who may read a private ranking.  A signed-in requester who is not
    an admin and has no ledger entry in a private ranking is answered 403
    both by [GET /api/rankings/:id] and by [GET /api/rankings/:id/players];
    an admin, or a player with an entry, is answered 200 by both.  The list
    of [GET /api/rankings] leaves every private ranking out for every
    requester who is not an admin, entry or not, keeps the creation order,
    and is complete for an admin.  None of the three changes the store. *)
Theorem private_rankings_are_for_members_and_admins :
  forall (s : MemStorage) (user : User.t) (rankingId : Z) (ranking : Ranking.t)
         (category : option string),
    JSMap.get rankingId (rankings s) = Some ranking ->
    Ranking.isPublic ranking = false ->
    let member := match ledger s (User.id user) rankingId with
                  | Some _ => true
                  | None => false
                  end in
    let allowed := role_eqb (User.role user) admin || member in
    (reply_status (result (get_api_rankings_id (Some user) (Some rankingId)) s) =
       if allowed then 200 else 403) /\
    (reply_status
       (result (get_api_rankings_id_players (Some user) (Some rankingId) category) s) =
       if allowed then 200 else 403) /\
    (allowed = true ->
     result (get_api_rankings_id (Some user) (Some rankingId)) s = reply 200 ranking) /\
    result (get_api_rankings (Some user)) s =
      reply 200 (if role_eqb (User.role user) admin
                 then JSMap.values (rankings s)
                 else filter Ranking.isPublic (JSMap.values (rankings s))) /\
    after (get_api_rankings_id (Some user) (Some rankingId)) s = s /\
    after (get_api_rankings (Some user)) s = s.
Proof.
  intros s user rankingId ranking category G Hp member allowed.
  assert (E1 : get_api_rankings_id (Some user) (Some rankingId) s =
               (if allowed then reply 200 ranking
                else refusal 403 "You don't have access to this ranking", s)).
  { unfold get_api_rankings_id, bind, getRanking, getPlayerRanking, gets. rewrite G.
    cbv beta iota. rewrite Hp. cbn [negb andb]. unfold allowed, member.
    destruct (role_eqb (User.role user) admin); cbn [negb orb]; [reflexivity|].
    cbv beta iota.
    change (find (is_entry_of (User.id user) rankingId)
              (JSMap.values (playerRankings s)))
      with (ledger s (User.id user) rankingId).
    now destruct (ledger s (User.id user) rankingId). }
  split; [|split; [|split; [|split; [|split]]]].
  - unfold result. rewrite E1. cbn [fst]. now destruct allowed.
  - unfold result. rewrite get_api_rankings_id_players_eq, G, Hp. cbn [fst orb].
    fold member. fold allowed. now destruct allowed.
  - intros Ha. unfold result. rewrite E1, Ha. reflexivity.
  - unfold result, get_api_rankings, bind, getRankings, gets, ret. cbn [fst].
    now destruct (role_eqb (User.role user) admin).
  - unfold after. now rewrite E1.
  - reflexivity.
Qed.

Lemma private_rankings_are_for_members_and_admins_witness :
  reply_status (result (get_api_rankings_id (Some alice) (Some 3)) secret_store) = 403 /\
  reply_status (result (get_api_rankings_id (Some admin_user) (Some 3)) secret_store)
    = 200.
Proof.
  split.
  - apply (private_rankings_are_for_members_and_admins secret_store alice 3
             secret_ranking None eq_refl eq_refl).
  - apply (private_rankings_are_for_members_and_admins secret_store admin_user 3
             secret_ranking None eq_refl eq_refl).
Defined.

Lemma get_api_rankings_id_eq s user rankingId :
  get_api_rankings_id (Some user) (Some rankingId) s =
    (match JSMap.get rankingId (rankings s) with
     | None => refusal 404 "Ranking not found"
     | Some ranking =>
         if Ranking.isPublic ranking || role_eqb (User.role user) admin
            || match ledger s (User.id user) rankingId with
               | Some _ => true
               | None => false
               end
         then reply 200 ranking
         else refusal 403 "You don't have access to this ranking"
     end, s).
Proof.
  unfold get_api_rankings_id, bind, getRanking, getPlayerRanking, gets, ret.
  cbv beta iota zeta.
  destruct (JSMap.get rankingId (rankings s)) as [ranking|]; [|reflexivity].
  destruct (Ranking.isPublic ranking); cbn [negb andb orb]; [reflexivity|].
  destruct (role_eqb (User.role user) admin); cbn [negb andb orb]; [reflexivity|].
  cbv beta iota.
  change (find (is_entry_of (User.id user) rankingId)
            (JSMap.values (playerRankings s)))
    with (ledger s (User.id user) rankingId).
  now destruct (ledger s (User.id user) rankingId).
Qed.

(** The store a granted, auto-approved creation leaves. *)
Lemma post_api_matches_approved_state s user now matchData ranking :
  canCreateMatch user now matchData = true ->
  resolved_player1Id user matchData <> InsertMatch.player2Id matchData ->
  JSMap.get (InsertMatch.rankingId matchData) (rankings s) = Some ranking ->
  Ranking.requiresValidation ranking = false ->
  exists stored s1,
    after (post_api_matches (Some user) now (inr matchData)) s =
      after (updatePlayerRankingsForMatch stored) s1 /\
    Match.player1Id stored = resolved_player1Id user matchData /\
    Match.player2Id stored = InsertMatch.player2Id matchData /\
    Match.rankingId stored = InsertMatch.rankingId matchData /\
    Match.score stored = InsertMatch.score matchData /\
    playerRankings s1 = playerRankings s /\
    playerRankingIdCounter s1 = playerRankingIdCounter s /\
    rankings s1 = rankings s /\ users s1 = users s.
Proof.
  intros Hc Hne Hr Hv. unfold after.
  rewrite (post_api_matches_granted s user now matchData Hc).
  cbn [InsertMatch.player1Id InsertMatch.player2Id InsertMatch.rankingId with_player1Id].
  apply Z.eqb_neq in Hne. rewrite Hne, Hr. cbv zeta. rewrite Hv.
  unfold bind. rewrite createMatch_eq.
  erewrite (validateMatch_some _ (matchIdCounter s) true None)
    by (cbn [matches set_matches]; apply get_set_same).
  unfold ret. cbn [fst snd]. do 2 eexists. split; [reflexivity|].
  repeat split.
Qed.

(** X15.  Recording a match in a ranking that does not require validation
    makes both players members of it: after a 201 from [POST /api/matches] on
    a well-formed store, each of the two players has a ledger entry in the
    ranking, so that [GET /api/rankings/:id] answers them 200 with the
    ranking even when it is private and they had no entry before. *)
Theorem recording_a_match_opens_the_ranking :
  forall (s : MemStorage) (user viewer : User.t) (now : Z)
         (matchData : InsertMatch.t) (ranking : Ranking.t),
    store_ok s = true ->
    canCreateMatch user now matchData = true ->
    resolved_player1Id user matchData <> InsertMatch.player2Id matchData ->
    JSMap.get (InsertMatch.rankingId matchData) (rankings s) = Some ranking ->
    Ranking.requiresValidation ranking = false ->
    User.id viewer = resolved_player1Id user matchData \/
    User.id viewer = InsertMatch.player2Id matchData ->
    let s' := after (post_api_matches (Some user) now (inr matchData)) s in
    ledger s' (User.id viewer) (InsertMatch.rankingId matchData) <> None /\
    result (get_api_rankings_id (Some viewer) (Some (InsertMatch.rankingId matchData))) s'
      = reply 200 ranking.
Proof.
  intros s user viewer now matchData ranking Hok Hc Hne Hr Hv Hview s'.
  destruct (post_api_matches_approved_state s user now matchData ranking Hc Hne Hr Hv)
    as (stored & s1 & E & P1 & P2 & R & _ & Epr & Ec & Erk & _).
  fold s' in E.
  assert (Hok1 : store_ok s1 = true) by (unfold store_ok; now rewrite Epr, Ec).
  assert (Hne1 : Match.player1Id stored <> Match.player2Id stored) by congruence.
  assert (Hp : User.id viewer = Match.player1Id stored \/
               User.id viewer = Match.player2Id stored) by (rewrite P1, P2; exact Hview).
  destruct (ledger_update_player s1 stored (User.id viewer) Hok1 Hne1 Hp) as (id & L).
  rewrite <- E, R in L.
  assert (Hrk : rankings s' = rankings s).
  { rewrite E, <- Erk. apply (updatePlayerRankingsForMatch_frame stored s1). }
  split; [rewrite L; discriminate|].
  unfold result. rewrite get_api_rankings_id_eq, Hrk, Hr, L. cbn [fst].
  now rewrite !orb_true_r.
Qed.

Lemma recording_a_match_opens_the_ranking_witness :
  let s' := after (post_api_matches (Some alice) 0 (inr (alice_vs_bob 3))) secret_store in
  ledger s' 3 3 <> None /\
  result (get_api_rankings_id (Some bob) (Some 3)) s' = reply 200 secret_ranking.
Proof.
  apply (recording_a_match_opens_the_ranking secret_store alice bob 0 (alice_vs_bob 3)
           secret_ranking); try reflexivity.
  - discriminate.
  - right. reflexivity.
Defined.

(** ** Listing matches *)

Lemma enrichMatch_pure m s : enrichMatch m s = (enrich s m, s).
Proof.
  unfold enrich, result, enrichMatch, bind, gets, ret. cbv beta iota.
  destruct (JSMap.get (Match.player1Id m) (users s)); [|reflexivity].
  destruct (JSMap.get (Match.player2Id m) (users s)); [|reflexivity].
  destruct (JSMap.get (Match.rankingId m) (rankings s)); [|reflexivity].
  destruct (truthy_number (Match.locationId m)); [|reflexivity].
  cbv beta iota.
  now destruct (JSMap.get (spread 0 (Match.locationId m)) (locations s)).
Qed.

Lemma enrich_enrichable s m :
  match enrich s m with
  | Some e => enrichable s m = true /\ MatchWithDetails.match_ e = m
  | None => enrichable s m = false
  end.
Proof.
  unfold enrich, result, enrichMatch, enrichable, bind, gets, ret. cbv beta iota.
  destruct (JSMap.get (Match.player1Id m) (users s)); [|reflexivity].
  destruct (JSMap.get (Match.player2Id m) (users s)); [|reflexivity].
  destruct (JSMap.get (Match.rankingId m) (rankings s)); [|reflexivity].
  destruct (truthy_number (Match.locationId m)); [|split; reflexivity].
  cbv beta iota.
  destruct (JSMap.get (spread 0 (Match.locationId m)) (locations s));
    split; reflexivity.
Qed.

Lemma enrich_each_eq l s :
  exists rows,
    enrich_each l s = (rows, s) /\
    map MatchWithDetails.match_ rows = filter (enrichable s) l.
Proof.
  induction l as [|m l (rest & IHs & IHm)]; [exists []; split; reflexivity|].
  cbn [enrich_each]. unfold bind. rewrite enrichMatch_pure, IHs. unfold ret.
  pose proof (enrich_enrichable s m) as H. cbn [filter].
  destruct (enrich s m) as [e|].
  - destruct H as [-> <-]. exists (e :: rest). split; [reflexivity|].
    cbn [map]. f_equal. exact IHm.
  - rewrite H. exists rest. split; [reflexivity | exact IHm].
Qed.

Lemma filters_compose (filters : MatchFilters.t) (l : list Match.t) :
  match MatchFilters.status filters with
  | Some status =>
      filter (status_is status)
        (if truthy_number (MatchFilters.rankingId filters)
         then filter (fun m => Match.rankingId m =?
                               spread 0 (MatchFilters.rankingId filters))
                (if truthy_number (MatchFilters.playerId filters)
                 then filter (fun m =>
                                (Match.player1Id m =?
                                 spread 0 (MatchFilters.playerId filters))
                                || (Match.player2Id m =?
                                    spread 0 (MatchFilters.playerId filters))) l
                 else l)
         else (if truthy_number (MatchFilters.playerId filters)
               then filter (fun m =>
                              (Match.player1Id m =?
                               spread 0 (MatchFilters.playerId filters))
                              || (Match.player2Id m =?
                                  spread 0 (MatchFilters.playerId filters))) l
               else l))
  | None =>
      if truthy_number (MatchFilters.rankingId filters)
      then filter (fun m => Match.rankingId m =?
                            spread 0 (MatchFilters.rankingId filters))
             (if truthy_number (MatchFilters.playerId filters)
              then filter (fun m =>
                             (Match.player1Id m =?
                              spread 0 (MatchFilters.playerId filters))
                             || (Match.player2Id m =?
                                 spread 0 (MatchFilters.playerId filters))) l
              else l)
      else (if truthy_number (MatchFilters.playerId filters)
            then filter (fun m =>
                           (Match.player1Id m =?
                            spread 0 (MatchFilters.playerId filters))
                           || (Match.player2Id m =?
                               spread 0 (MatchFilters.playerId filters))) l
            else l)
  end = filter (passes filters) l.
Proof.
  unfold passes.
  destruct (MatchFilters.status filters);
    destruct (truthy_number (MatchFilters.rankingId filters));
    destruct (truthy_number (MatchFilters.playerId filters));
    rewrite ?filter_both;
    try (apply filter_ext; intros x; cbv beta iota;
         rewrite ?andb_true_r, ?andb_true_l, ?andb_assoc; reflexivity).
  symmetry. transitivity (filter (fun _ : Match.t => true) l);
    [apply filter_ext; reflexivity | apply filter_true].
Qed.

Lemma getMatches_eq filters s :
  exists rows,
    getMatches (Some filters) s = (rows, s) /\
    map MatchWithDetails.match_ rows =
      filter (enrichable s)
        (array_sort by_date_desc (filter (passes filters) (JSMap.values (matches s)))).
Proof.
  unfold getMatches. unfold bind at 1. unfold gets at 1. cbv beta iota zeta.
  rewrite <- filters_compose.
  destruct (MatchFilters.status filters); apply enrich_each_eq.
Qed.

Lemma sort_insert_perm_any {A : Type} (cmp : A -> A -> Z) x l :
  Permutation (sort_insert cmp x l) (x :: l).
Proof.
  induction l as [|y l IH]; simpl; [reflexivity|].
  destruct (cmp x y <=? 0); [reflexivity|].
  rewrite IH. apply perm_swap.
Qed.

Lemma array_sort_perm_any {A : Type} (cmp : A -> A -> Z) l :
  Permutation (array_sort cmp l) l.
Proof.
  induction l as [|x l IH]; simpl; [reflexivity|].
  rewrite sort_insert_perm_any. now constructor.
Qed.

Lemma sort_insert_ext {A : Type} (cmp cmp' : A -> A -> Z) x l :
  (forall b, In b l -> cmp x b = cmp' x b) ->
  sort_insert cmp x l = sort_insert cmp' x l.
Proof.
  induction l as [|y l IH]; intros H; [reflexivity|]. cbn [sort_insert].
  rewrite (H y) by now left.
  destruct (cmp' x y <=? 0); [reflexivity|].
  f_equal. apply IH. intros b Hb. apply H. now right.
Qed.

Lemma array_sort_ext {A : Type} (cmp cmp' : A -> A -> Z) l :
  (forall a b, In a l -> In b l -> cmp a b = cmp' a b) ->
  array_sort cmp l = array_sort cmp' l.
Proof.
  induction l as [|x l IH]; intros H; [reflexivity|]. cbn [array_sort].
  rewrite IH by (intros a b Ha Hb; apply H; now right).
  apply sort_insert_ext. intros b Hb. apply H; [now left|].
  right. exact (Permutation_in b (array_sort_perm_any cmp' l) Hb).
Qed.

(** X16.  [getMatches] reads and does not write.  The matches it returns are
    exactly the stored matches that pass the filters (a player filter keeps
    the matches where the player is on either side; a filter that is absent,
    or 0, does not filter) and whose two players and ranking are in the
    store, each once; and when every stored match records when it was played,
    they come most recent first. *)
Theorem getMatches_lists_what_passes :
  forall (s : MemStorage) (filters : MatchFilters.t),
    let listed :=
      map MatchWithDetails.match_ (result (getMatches (Some filters)) s) in
    after (getMatches (Some filters)) s = s /\
    Permutation listed
      (filter (fun m => passes filters m && enrichable s m) (JSMap.values (matches s)))
    /\
    (forallb dated (JSMap.values (matches s)) = true ->
     StronglySorted (fun a b => played b <= played a) listed).
Proof.
  intros s filters listed.
  destruct (getMatches_eq filters s) as (rows & E & Em).
  unfold listed, result, after. rewrite E. cbn [fst snd]. rewrite Em.
  split; [reflexivity|]. split.
  - rewrite <- filter_both. apply filter_perm. apply array_sort_perm_any.
  - intros Hd. apply filter_sorted.
    rewrite (array_sort_ext by_date_desc (fun a b => played b - played a)).
    + apply (array_sort_sorted Match.t played).
    + intros a b Ha Hb. rewrite forallb_forall in Hd.
      apply filter_In in Ha as [Ha _]. apply filter_In in Hb as [Hb _].
      specialize (Hd a Ha) as Da. specialize (Hd b Hb) as Db.
      unfold dated in Da, Db. unfold by_date_desc, played.
      destruct (Match.playedAt a); [|discriminate].
      destruct (Match.playedAt b); [|discriminate]. reflexivity.
Qed.

Lemma get_api_matches_eq s user query_playerId query_rankingId query_status :
  let filters :=
    if negb (role_eqb (User.role user) admin) && negb (truthy_number query_playerId)
    then MatchFilters.mk query_playerId query_rankingId (Some approved)
    else MatchFilters.mk query_playerId query_rankingId query_status in
  exists rows,
    get_api_matches (Some user) query_playerId query_rankingId query_status s =
      (reply 200 rows, s) /\
    map MatchWithDetails.match_ rows =
      filter (enrichable s)
        (array_sort by_date_desc (filter (passes filters) (JSMap.values (matches s)))).
Proof.
  intros filters. unfold get_api_matches. fold filters.
  destruct (getMatches_eq filters s) as (rows & E & Em).
  exists rows. split; [|exact Em]. unfold bind. now rewrite E.
Qed.

Lemma status_is_approved m :
  status_is approved m = true -> Match.status m = Some approved.
Proof.
  unfold status_is. destruct (Match.status m) as [[| |]|]; now intros.
Qed.

(** X17.  [GET /api/matches] never changes the store and always answers a
    signed-in requester 200.  To a requester who is not an admin and names no
    player in the query (or names player 0), it lists approved matches only,
    whatever status the query asks for. *)
Theorem without_a_player_filter_only_approved_matches :
  forall (s : MemStorage) (user : User.t) (query_playerId query_rankingId : option Z)
         (query_status : option MatchStatus),
    role_eqb (User.role user) admin = false ->
    truthy_number query_playerId = false ->
    exists rows,
      get_api_matches (Some user) query_playerId query_rankingId query_status s =
        (reply 200 rows, s) /\
      Forall (fun e => Match.status (MatchWithDetails.match_ e) = Some approved) rows.
Proof.
  intros s user qp qr qs Hrole Hp.
  destruct (get_api_matches_eq s user qp qr qs) as (rows & E & Em).
  rewrite Hrole, Hp in Em. cbn [negb andb] in Em.
  exists rows. split; [exact E|].
  apply Forall_forall. intros e He.
  apply (in_map MatchWithDetails.match_) in He. rewrite Em in He.
  apply filter_In in He as [He _].
  apply (Permutation_in _ (array_sort_perm_any by_date_desc _)) in He.
  apply filter_In in He as [_ Hpass].
  unfold passes in Hpass. cbn [MatchFilters.status] in Hpass.
  apply andb_true_iff in Hpass as [_ Hst]. now apply status_is_approved.
Qed.

Lemma without_a_player_filter_only_approved_matches_witness :
  exists rows,
    get_api_matches (Some alice) None None (Some pending) club_store =
      (reply 200 rows, club_store) /\
    Forall (fun e => Match.status (MatchWithDetails.match_ e) = Some approved) rows.
Proof.
  apply (without_a_player_filter_only_approved_matches club_store alice None None
           (Some pending)); reflexivity.
Defined.

(** X18.  The player filter of [GET /api/matches] is not compared with the
    requester: whoever is signed in, naming a player (other than 0) and no
    status lists every stored match of that player whose players and ranking
    are in the store, pending and rejected ones included, in the ranking
    asked for when one is named. *)
Theorem a_player_filter_lists_every_status :
  forall (s : MemStorage) (user : User.t) (playerId : Z)
         (query_rankingId : option Z) (m : Match.t),
    playerId <> 0 ->
    In m (JSMap.values (matches s)) ->
    Match.player1Id m = playerId \/ Match.player2Id m = playerId ->
    (truthy_number query_rankingId = true ->
     query_rankingId = Some (Match.rankingId m)) ->
    enrichable s m = true ->
    exists rows,
      get_api_matches (Some user) (Some playerId) query_rankingId None s =
        (reply 200 rows, s) /\
      In m (map MatchWithDetails.match_ rows).
Proof.
  intros s user playerId qr m Hp Hin Hside Hrk He.
  destruct (get_api_matches_eq s user (Some playerId) qr None) as (rows & E & Em).
  assert (Ht : truthy_number (Some playerId) = true)
    by (cbn; apply negb_true_iff; now apply Z.eqb_neq).
  rewrite Ht, andb_false_r in Em.
  exists rows. split; [exact E|]. rewrite Em.
  apply filter_In. split; [|exact He].
  apply (Permutation_in _ (Permutation_sym (array_sort_perm_any by_date_desc _))).
  apply filter_In. split; [exact Hin|].
  unfold passes. cbn [MatchFilters.playerId MatchFilters.rankingId MatchFilters.status].
  rewrite Ht. cbn [spread]. rewrite andb_true_r.
  apply andb_true_iff. split.
  - apply orb_true_iff. destruct Hside as [<- | <-];
      [left | right]; apply Z.eqb_refl.
  - destruct (truthy_number qr) eqn:Tq; [|reflexivity].
    rewrite (Hrk eq_refl). cbn [spread]. apply Z.eqb_refl.
Qed.

(** Bob, who is not an admin, asks for Alice's matches and is shown her
    pending match. *)
Lemma a_player_filter_lists_every_status_witness :
  exists rows,
    get_api_matches (Some bob) (Some 2) None None club_store =
      (reply 200 rows, club_store) /\
    In alice_beats_bob (map MatchWithDetails.match_ rows).
Proof.
  apply (a_player_filter_lists_every_status club_store bob 2 None alice_beats_bob).
  - discriminate.
  - left. reflexivity.
  - left. reflexivity.
  - discriminate.
  - reflexivity.
Defined.

(** X19.  [GET /api/matches/:id] never changes the store.  It answers 404
    when no match has that id or when one of the match's players or its
    ranking is not in the store; otherwise it answers 200 with the match to
    an admin, to either of its two players, and to anyone when the match is
    approved, and 403 to everyone else. *)
Theorem a_match_is_shown_to_its_players_and_admins :
  forall (s : MemStorage) (user : User.t) (matchId : Z),
    let answer := result (get_api_matches_id (Some user) (Some matchId)) s in
    after (get_api_matches_id (Some user) (Some matchId)) s = s /\
    match JSMap.get matchId (matches s) with
    | None => answer = refusal 404 "Match not found"
    | Some m =>
        if enrichable s m then
          if role_eqb (User.role user) admin
             || status_is approved m
             || (Match.player1Id m =? User.id user)
             || (Match.player2Id m =? User.id user)
          then exists e, answer = reply 200 e /\ MatchWithDetails.match_ e = m
          else answer = refusal 403 "You don't have permission to view this match"
        else answer = refusal 404 "Match not found"
    end.
Proof.
  intros s user matchId answer.
  unfold answer, result, after, get_api_matches_id, getMatchWithDetails, bind, gets, ret.
  cbv beta iota.
  destruct (JSMap.get matchId (matches s)) as [m|]; [|split; reflexivity].
  rewrite enrichMatch_pure. pose proof (enrich_enrichable s m) as H.
  destruct (enrich s m) as [e|].
  - destruct H as [-> Hm]. rewrite Hm. cbv zeta.
    rewrite <- !negb_orb.
    destruct (role_eqb (User.role user) admin || status_is approved m
              || (Match.player1Id m =? User.id user)
              || (Match.player2Id m =? User.id user));
      cbn [negb fst snd]; split; try reflexivity.
    exists e. split; [reflexivity | exact Hm].
  - rewrite H. split; reflexivity.
Qed.

(** ** Deleting a location *)

Lemma delete_found {V : Type} (m : JSMap.t V) k :
  fst (JSMap.delete k m) =
    match JSMap.get k m with Some _ => true | None => false end.
Proof.
  induction m as [|[k0 v0] m IH]; [reflexivity|]. simpl.
  destruct (k =? k0); [reflexivity|].
  destruct (JSMap.delete k m). exact IH.
Qed.

Lemma delete_get_other {V : Type} (m : JSMap.t V) k k' :
  k' <> k -> JSMap.get k' (snd (JSMap.delete k m)) = JSMap.get k' m.
Proof.
  intros Hne. induction m as [|[k0 v0] m IH]; [reflexivity|]. simpl.
  destruct (k =? k0) eqn:E.
  - apply Z.eqb_eq in E. subst k0. simpl.
    destruct (k' =? k) eqn:E'; [apply Z.eqb_eq in E'; contradiction | reflexivity].
  - destruct (JSMap.delete k m). simpl in *. now rewrite IH.
Qed.

Lemma delete_get_same {V : Type} (m : JSMap.t V) k :
  JSMap.distinct_keys m = true -> JSMap.get k (snd (JSMap.delete k m)) = None.
Proof.
  induction m as [|[k0 v0] m IH]; [reflexivity|]. simpl.
  destruct (JSMap.get k0 m) eqn:G; [discriminate|]. intros Hd.
  destruct (k =? k0) eqn:E.
  - apply Z.eqb_eq in E. subst k0. exact G.
  - destruct (JSMap.delete k m). simpl in *. rewrite E. now apply IH.
Qed.

Lemma delete_missing {V : Type} (m : JSMap.t V) k :
  JSMap.get k m = None -> snd (JSMap.delete k m) = m.
Proof.
  induction m as [|[k0 v0] m IH]; [reflexivity|]. simpl.
  destruct (k =? k0); [discriminate|]. intros G.
  destruct (JSMap.delete k m). simpl in *. now rewrite IH.
Qed.

(** X20.  [DELETE /api/locations/:id] for an admin: it answers 204 when a
    location has that id and 404, changing nothing, when none has; after it
    no location has that id (the map having no key twice), every other
    location is as before, and users, rankings, ledger and matches are
    untouched, the matches that name the location included.  Anyone else is
    answered 403 and nothing changes. *)
Theorem deleting_a_location_removes_that_one :
  forall (s : MemStorage) (req_user : option User.t) (locationId : Z),
    let answer := result (delete_api_locations_id req_user (Some locationId)) s in
    let s' := after (delete_api_locations_id req_user (Some locationId)) s in
    (is_admin req_user = false ->
     answer = refusal 403 "Forbidden: Admin access required" /\ s' = s) /\
    (is_admin req_user = true ->
     match JSMap.get locationId (locations s) with
     | Some _ => answer = reply 204 tt
     | None => answer = refusal 404 "Location not found" /\ s' = s
     end /\
     (JSMap.distinct_keys (locations s) = true ->
      JSMap.get locationId (locations s') = None) /\
     (forall k, k <> locationId ->
        JSMap.get k (locations s') = JSMap.get k (locations s)) /\
     users s' = users s /\ rankings s' = rankings s /\
     playerRankings s' = playerRankings s /\ matches s' = matches s).
Proof.
  intros s req_user locationId answer s'.
  unfold answer, s', result, after, delete_api_locations_id, is_admin.
  destruct req_user as [user|]; [|split; [split; reflexivity | discriminate]].
  destruct (role_eqb (User.role user) admin);
    [|split; [split; reflexivity | discriminate]].
  split; [discriminate|]. intros _.
  unfold deleteLocation, bind, gets, modify, ret. cbv beta iota.
  rewrite delete_found.
  destruct (JSMap.get locationId (locations s)) eqn:G; cbn [fst snd].
  - split; [reflexivity|]. cbn [locations set_locations].
    split; [apply delete_get_same|].
    split; [intros k Hk; now apply delete_get_other | repeat split].
  - rewrite (delete_missing _ _ G).
    assert (E : set_locations (fun _ => locations s) s = s) by now destruct s.
    rewrite E. split; [split; reflexivity|].
    split; [intros _; exact G | repeat split].
Qed.

Lemma deleting_a_location_removes_that_one_witness :
  result (delete_api_locations_id (Some admin_user) (Some 7)) club_store =
    refusal 404 "Location not found" /\
  after (delete_api_locations_id (Some admin_user) (Some 7)) club_store = club_store.
Proof.
  apply (deleting_a_location_removes_that_one club_store (Some admin_user) 7).
  reflexivity.
Defined.

Lemma enrich_eq s m :
  enrich s m =
    match JSMap.get (Match.player1Id m) (users s),
          JSMap.get (Match.player2Id m) (users s),
          JSMap.get (Match.rankingId m) (rankings s) with
    | Some player1, Some player2, Some ranking =>
        Some (MatchWithDetails.mk m (brief_of player1) (brief_of player2)
                (RankingBrief.mk (Ranking.id ranking) (Ranking.name ranking))
                (if truthy_number (Match.locationId m) then
                   match JSMap.get (spread 0 (Match.locationId m)) (locations s) with
                   | Some location =>
                       Some (LocationBrief.mk (Location.id location)
                               (Location.name location))
                   | None => None
                   end
                 else None))
    | _, _, _ => None
    end.
Proof.
  unfold enrich, result, enrichMatch, bind, gets, ret. cbv beta iota.
  destruct (JSMap.get (Match.player1Id m) (users s)); [|reflexivity].
  destruct (JSMap.get (Match.player2Id m) (users s)); [|reflexivity].
  destruct (JSMap.get (Match.rankingId m) (rankings s)); [|reflexivity].
  destruct (truthy_number (Match.locationId m)); [|reflexivity].
  cbv beta iota.
  now destruct (JSMap.get (spread 0 (Match.locationId m)) (locations s)).
Qed.

(** X21.  Deleting a location never hides a match: a match that
    [enrichMatch] could enrich before [deleteLocation] can be enriched after
    it, with the same players and ranking; it keeps its location when that
    is another one, and comes without a location when it was the one
    deleted. *)
Theorem a_match_outlives_its_location :
  forall (s : MemStorage) (locationId : Z) (m : Match.t) (e : MatchWithDetails.t),
    enrich s m = Some e ->
    let s' := after (deleteLocation locationId) s in
    exists e',
      enrich s' m = Some e' /\
      MatchWithDetails.match_ e' = m /\
      MatchWithDetails.player1 e' = MatchWithDetails.player1 e /\
      MatchWithDetails.player2 e' = MatchWithDetails.player2 e /\
      MatchWithDetails.ranking e' = MatchWithDetails.ranking e /\
      (Match.locationId m <> Some locationId ->
       MatchWithDetails.location e' = MatchWithDetails.location e) /\
      (Match.locationId m = Some locationId ->
       JSMap.distinct_keys (locations s) = true ->
       MatchWithDetails.location e' = None).
Proof.
  intros s locationId m e He s'.
  assert (Es : s' = set_locations
                      (fun _ => snd (JSMap.delete locationId (locations s))) s)
    by reflexivity.
  rewrite enrich_eq in He. rewrite enrich_eq, Es.
  cbn [users rankings locations set_locations].
  destruct (JSMap.get (Match.player1Id m) (users s)) as [u1|]; [|discriminate].
  destruct (JSMap.get (Match.player2Id m) (users s)) as [u2|]; [|discriminate].
  destruct (JSMap.get (Match.rankingId m) (rankings s)) as [rk|]; [|discriminate].
  injection He as <-. eexists. split; [reflexivity|].
  cbn [MatchWithDetails.match_ MatchWithDetails.player1 MatchWithDetails.player2
         MatchWithDetails.ranking MatchWithDetails.location].
  repeat (split; [reflexivity|]).
  destruct (truthy_number (Match.locationId m)) eqn:T; [|split; reflexivity].
  destruct (Match.locationId m) as [loc|]; [|discriminate]. cbn [spread].
  split.
  - intros Hne. rewrite delete_get_other; [reflexivity | congruence].
  - intros [= ->] Hd. now rewrite delete_get_same.
Qed.

Lemma a_match_outlives_its_location_witness :
  exists e',
    enrich (after (deleteLocation 1) court_store) match_at_court = Some e' /\
    MatchWithDetails.match_ e' = match_at_court /\
    MatchWithDetails.location e' = None.
Proof.
  destruct (a_match_outlives_its_location court_store 1 match_at_court _ eq_refl)
    as (e' & E & M & _ & _ & _ & _ & L).
  exists e'. split; [exact E|]. split; [exact M|]. apply L; reflexivity.
Defined.

(** ** Changing a photo *)

(** X22.  [PATCH /api/users/:id/photo]: a requester who is not an admin and
    names another user is answered 403; a missing or empty URL is answered
    400; an unknown user 404; and in these three cases nothing changes.
    Otherwise the answer is 200 and the user named has the new photo URL and
    every other field as before (name, password, email, role, suspension),
    while every other user is untouched.  So a player can change no one's
    record but their own, and of their own only the photo. *)
Theorem photo_route_changes_one_photo :
  forall (s : MemStorage) (currentUser : User.t) (userId : Z)
         (photoUrl : option string),
    let answer :=
      result (patch_api_users_id_photo (Some currentUser) (Some userId) photoUrl) s in
    let s' :=
      after (patch_api_users_id_photo (Some currentUser) (Some userId) photoUrl) s in
    let allowed := (userId =? User.id currentUser)
                   || role_eqb (User.role currentUser) admin in
    (forall k, k <> userId -> JSMap.get k (users s') = JSMap.get k (users s)) /\
    (allowed = false ->
     answer = refusal 403 "Forbidden: You can only update your own photo" /\ s' = s) /\
    (allowed = true -> truthy photoUrl = false ->
     answer = refusal 400 "Photo URL is required" /\ s' = s) /\
    (allowed = true -> truthy photoUrl = true ->
     match JSMap.get userId (users s) with
     | None => answer = refusal 404 "User not found" /\ s' = s
     | Some user =>
         exists url,
           photoUrl = Some url /\
           JSMap.get userId (users s') = Some (with_photoUrl user url) /\
           answer = reply 200
                      (UserPhoto.mk (User.id user) (User.username user)
                         (User.fullName user) (User.email user) (Some url))
     end).
Proof.
  intros s currentUser userId photoUrl answer s' allowed.
  unfold answer, s', result, after, patch_api_users_id_photo.
  rewrite <- negb_orb. fold allowed.
  destruct allowed; cbn [negb].
  2:{ split; [reflexivity|]. split; [split; reflexivity|].
      split; discriminate. }
  destruct (truthy photoUrl) eqn:T; cbn [negb].
  2:{ split; [reflexivity|]. split; [discriminate|].
      split; [split; reflexivity | discriminate]. }
  unfold updateUser, bind, gets, modify, ret. cbv beta iota.
  destruct (JSMap.get userId (users s)) as [user|] eqn:G; cbn [fst snd].
  - split; [intros k Hk; cbn [users set_users]; apply get_set_other; auto|].
    split; [discriminate|]. split; [discriminate|]. intros _ _.
    destruct photoUrl as [url|]; [|discriminate]. exists url.
    split; [reflexivity|].
    split; [cbn [users set_users]; apply get_set_same | reflexivity].
  - split; [reflexivity|]. split; [discriminate|]. split; [discriminate|].
    intros _ _. split; reflexivity.
Qed.

Lemma photo_route_changes_one_photo_witness :
  result (patch_api_users_id_photo (Some alice) (Some 3) (Some "x.png"%string))
    club_store
  = refusal 403 "Forbidden: You can only update your own photo" /\
  after (patch_api_users_id_photo (Some alice) (Some 3) (Some "x.png"%string))
    club_store = club_store.
Proof.
  apply (photo_route_changes_one_photo club_store alice 3 (Some "x.png"%string)).
  reflexivity.
Defined.

(** ** Validating through the route *)


(** ** Switching validation on and off *)

Lemma updateRanking_some s id rankingData ranking :
  JSMap.get id (rankings s) = Some ranking ->
  updateRanking id rankingData s =
    (Some (merge_ranking ranking rankingData),
     set_rankings (JSMap.set id (merge_ranking ranking rankingData)) s).
Proof.
  intros G. unfold updateRanking, bind, gets, modify, ret. now rewrite G.
Qed.

(** X24.  [updateRanking] with [{ requiresValidation }] takes effect for the
    next match and leaves the stored ones alone: on an existing ranking it
    changes that flag only, touches no other ranking and no match, and a
    match then created in the ranking (the access checks passing, the players
    differing) starts pending when the flag was set and approved when it was
    cleared.  On an id that no ranking has it returns undefined and changes
    nothing. *)
Theorem validation_switch_applies_to_the_next_match :
  forall (s : MemStorage) (rankingId : Z) (b : bool),
    let s1 := after (updateRanking rankingId (data_requiresValidation b)) s in
    match JSMap.get rankingId (rankings s) with
    | None =>
        result (updateRanking rankingId (data_requiresValidation b)) s = None /\
        s1 = s
    | Some ranking =>
        JSMap.get rankingId (rankings s1) =
          Some (Ranking.mk (Ranking.id ranking) (Ranking.name ranking)
                  (Ranking.description ranking) (Ranking.isPublic ranking) b
                  (Ranking.createdById ranking)) /\
        (forall k, k <> rankingId ->
           JSMap.get k (rankings s1) = JSMap.get k (rankings s)) /\
        matches s1 = matches s /\ playerRankings s1 = playerRankings s /\
        (forall user now matchData,
            canCreateMatch user now matchData = true ->
            resolved_player1Id user matchData <> InsertMatch.player2Id matchData ->
            InsertMatch.rankingId matchData = rankingId ->
            exists m,
              result (post_api_matches (Some user) now (inr matchData)) s1 =
                Response.mk 201 (body_match m) /\
              Match.status m = Some (if b then pending else approved))
    end.
Proof.
  intros s rankingId b s1. unfold s1, result, after.
  destruct (JSMap.get rankingId (rankings s)) as [ranking|] eqn:G.
  - rewrite (updateRanking_some s rankingId _ ranking G). cbn [fst snd].
    cbn [rankings set_rankings]. split; [apply get_set_same|].
    split; [intros k Hk; apply get_set_other; auto|].
    split; [reflexivity|]. split; [reflexivity|].
    intros user now matchData Hc Hne Hr.
    rewrite (post_api_matches_granted _ user now matchData Hc).
    cbn [InsertMatch.player1Id InsertMatch.player2Id InsertMatch.rankingId
           with_player1Id].
    apply Z.eqb_neq in Hne. rewrite Hne, Hr.
    cbn [rankings set_rankings]. rewrite get_set_same.
    cbv zeta. cbn [Ranking.requiresValidation merge_ranking spread
                     PartialRanking.requiresValidation data_requiresValidation].
    destruct b; [eexists; split; reflexivity|].
    unfold bind. rewrite createMatch_eq.
    destruct (validateMatch _ true None _) as [o s2].
    eexists. split; reflexivity.
  - unfold updateRanking, bind, gets, ret. rewrite G. split; reflexivity.
Qed.

(** ** Approving at once and approving later *)

Lemma sim_ret {A : Type} (a : A) : ledger_sim (ret a) (ret a).
Proof. intros s s' H. split; [reflexivity | exact H]. Qed.

Lemma sim_bind {A B : Type} (c c' : Async A) (k k' : A -> Async B) :
  ledger_sim c c' -> (forall a, ledger_sim (k a) (k' a)) ->
  ledger_sim (bind c k) (bind c' k').
Proof.
  intros Hc Hk s s' H. unfold bind.
  destruct (Hc s s' H) as [E1 E2].
  destruct (c s) as [a s1]. destruct (c' s') as [a' s1'].
  cbn [fst snd] in *. subst a'. now apply Hk.
Qed.

Lemma sim_getPlayerRanking p r :
  ledger_sim (getPlayerRanking p r) (getPlayerRanking p r).
Proof.
  intros s s' [E1 E2]. unfold getPlayerRanking, gets. cbn [fst snd].
  rewrite E1. split; [reflexivity | now split].
Qed.

Lemma sim_createPlayerRanking ins :
  ledger_sim (createPlayerRanking ins) (createPlayerRanking ins).
Proof.
  intros s s' [E1 E2]. unfold createPlayerRanking, bind, gets, modify, ret.
  cbn [fst snd]. rewrite E2. split; [reflexivity|].
  split; cbn; now rewrite ?E1, ?E2.
Qed.

Lemma sim_updatePlayerRanking id data :
  ledger_sim (updatePlayerRanking id data) (updatePlayerRanking id data).
Proof.
  intros s s' [E1 E2]. unfold updatePlayerRanking, bind, gets, modify, ret.
  cbv beta iota. rewrite <- E1.
  destruct (JSMap.get id (playerRankings s)); cbn [fst snd].
  - split; [reflexivity|]. split; cbn; now rewrite ?E1, ?E2.
  - split; [reflexivity | now split].
Qed.

Ltac sim_step :=
  first
    [ apply sim_ret
    | apply sim_updatePlayerRanking
    | apply sim_createPlayerRanking
    | apply sim_getPlayerRanking
    | apply sim_bind; [|intros] ].

Lemma sim_update_player1 match_ match_' w o :
  Match.player1Id match_ = Match.player1Id match_' ->
  Match.rankingId match_ = Match.rankingId match_' ->
  ledger_sim (update_player1 match_ w o) (update_player1 match_' w o).
Proof.
  intros H1 Hr. unfold update_player1. rewrite <- H1, <- Hr.
  destruct o as [pr|]; cbv zeta.
  - apply sim_bind; [sim_step | intros].
    repeat match goal with
           | |- context [if ?b then _ else _] => destruct b
           end; repeat sim_step.
  - repeat sim_step.
Qed.

Lemma sim_update_player2 match_ match_' w o :
  Match.player2Id match_ = Match.player2Id match_' ->
  Match.rankingId match_ = Match.rankingId match_' ->
  ledger_sim (update_player2 match_ w o) (update_player2 match_' w o).
Proof.
  intros H2 Hr. unfold update_player2. rewrite <- H2, <- Hr.
  destruct o as [pr|]; cbv zeta.
  - apply sim_bind; [sim_step | intros].
    repeat match goal with
           | |- context [if ?b then _ else _] => destruct b
           end; repeat sim_step.
  - repeat sim_step.
Qed.

Lemma sim_updatePlayerRankingsForMatch match_ match_' :
  Match.player1Id match_ = Match.player1Id match_' ->
  Match.player2Id match_ = Match.player2Id match_' ->
  Match.rankingId match_ = Match.rankingId match_' ->
  Match.score match_ = Match.score match_' ->
  ledger_sim (updatePlayerRankingsForMatch match_) (updatePlayerRankingsForMatch match_').
Proof.
  intros H1 H2 Hr Hs. unfold updatePlayerRankingsForMatch.
  rewrite <- H1, <- H2, <- Hr, <- Hs. cbv zeta.
  apply sim_bind; [sim_step | intros o1].
  apply sim_bind; [sim_step | intros o2].
  apply sim_bind; [now apply sim_update_player1 | intros _].
  now apply sim_update_player2.
Qed.

(** X25.  The ledger update reads nothing but the ledger and, of the match,
    its two players, its ranking and its score: on two stores with the same
    ledger map and ledger counter, for two matches that agree on those four
    fields (whatever their ids, statuses, reasons, dates or locations), it
    leaves the same ledger map and the same ledger counter. *)
Theorem ledger_update_reads_players_ranking_and_score :
  forall (s s' : MemStorage) (match_ match_' : Match.t),
    playerRankings s = playerRankings s' ->
    playerRankingIdCounter s = playerRankingIdCounter s' ->
    Match.player1Id match_ = Match.player1Id match_' ->
    Match.player2Id match_ = Match.player2Id match_' ->
    Match.rankingId match_ = Match.rankingId match_' ->
    Match.score match_ = Match.score match_' ->
    playerRankings (after (updatePlayerRankingsForMatch match_) s) =
      playerRankings (after (updatePlayerRankingsForMatch match_') s') /\
    playerRankingIdCounter (after (updatePlayerRankingsForMatch match_) s) =
      playerRankingIdCounter (after (updatePlayerRankingsForMatch match_') s').
Proof.
  intros s s' match_ match_' Ep Ec H1 H2 Hr Hs.
  apply (sim_updatePlayerRankingsForMatch match_ match_' H1 H2 Hr Hs s s').
  now split.
Qed.

Lemma ledger_update_reads_players_ranking_and_score_witness :
  playerRankings (after (updatePlayerRankingsForMatch alice_beats_bob) club_store) =
    playerRankings (after (updatePlayerRankingsForMatch match_at_court) court_store).
Proof.
  apply (ledger_update_reads_players_ranking_and_score club_store court_store
           alice_beats_bob match_at_court); reflexivity.
Defined.

Lemma validate_after_create s id rejectionReason matchData status :
  JSMap.get id (matches s) = Some (match_of id (with_status matchData status)) ->
  after (validateMatch id true rejectionReason) s =
    after (updatePlayerRankingsForMatch (stored_approved id matchData))
      (set_matches (JSMap.set id (stored_approved id matchData)) s).
Proof.
  intros G. unfold after at 1.
  now rewrite (validateMatch_some s id true rejectionReason _ G).
Qed.

Lemma post_api_matches_approved_explicit s user now matchData ranking :
  canCreateMatch user now matchData = true ->
  resolved_player1Id user matchData <> InsertMatch.player2Id matchData ->
  JSMap.get (InsertMatch.rankingId matchData) (rankings s) = Some ranking ->
  Ranking.requiresValidation ranking = false ->
  let d := with_player1Id matchData (resolved_player1Id user matchData) in
  let id := matchIdCounter s in
  after (post_api_matches (Some user) now (inr matchData)) s =
    after (updatePlayerRankingsForMatch (stored_approved id d))
      (set_matches (JSMap.set id (stored_approved id d))
         (set_matches (JSMap.set id (match_of id (with_status d approved)))
            (set_matchIdCounter (id + 1) s))).
Proof.
  intros Hc Hne Hr Hv d id. unfold after at 1.
  rewrite (post_api_matches_granted s user now matchData Hc).
  cbn [InsertMatch.player1Id InsertMatch.player2Id InsertMatch.rankingId with_player1Id].
  apply Z.eqb_neq in Hne. rewrite Hne, Hr. cbv zeta. rewrite Hv.
  unfold bind. rewrite createMatch_eq.
  erewrite (validateMatch_some _ (matchIdCounter s) true None)
    by (cbn [matches set_matches]; apply get_set_same).
  reflexivity.
Qed.

(** X26.  Approving later gives what approving at once gives.  When a match
    is created in a ranking that requires validation and then approved by
    [validateMatch], the ledger map, the ledger counter, the stored matches
    and the match counter are those that the same creation leaves at once on
    the same store with the ranking's validation switched off. *)
Theorem approving_later_equals_approving_at_once :
  forall (s : MemStorage) (user : User.t) (now : Z) (matchData : InsertMatch.t)
         (ranking : Ranking.t) (rejectionReason : option string),
    canCreateMatch user now matchData = true ->
    resolved_player1Id user matchData <> InsertMatch.player2Id matchData ->
    JSMap.get (InsertMatch.rankingId matchData) (rankings s) = Some ranking ->
    Ranking.requiresValidation ranking = true ->
    let create := post_api_matches (Some user) now (inr matchData) in
    let later :=
      after (validateMatch (matchIdCounter s) true rejectionReason) (after create s) in
    let at_once :=
      after create
        (after (updateRanking (InsertMatch.rankingId matchData)
                  (data_requiresValidation false)) s) in
    playerRankings later = playerRankings at_once /\
    playerRankingIdCounter later = playerRankingIdCounter at_once /\
    matches later = matches at_once /\
    matchIdCounter later = matchIdCounter at_once.
Proof.
  intros s user now matchData ranking rejectionReason Hc Hne Hr Hv create later at_once.
  pose proof Hne as Hneb. apply Z.eqb_neq in Hneb.
  set (d := with_player1Id matchData (resolved_player1Id user matchData)).
  set (id := matchIdCounter s).
  assert (E1 : after create s =
               set_matches (JSMap.set id (match_of id (with_status d pending)))
                 (set_matchIdCounter (id + 1) s)).
  { unfold create, after.
    rewrite (post_api_matches_granted s user now matchData Hc).
    cbn [InsertMatch.player1Id InsertMatch.player2Id InsertMatch.rankingId
           with_player1Id].
    rewrite Hneb, Hr. cbv zeta. rewrite Hv. reflexivity. }
  assert (El : later =
               after (updatePlayerRankingsForMatch (stored_approved id d))
                 (set_matches (JSMap.set id (stored_approved id d))
                    (set_matches (JSMap.set id (match_of id (with_status d pending)))
                       (set_matchIdCounter (id + 1) s)))).
  { unfold later. rewrite E1. fold id.
    apply (validate_after_create _ id rejectionReason d pending).
    cbn [matches set_matches]. apply get_set_same. }
  set (s0 := set_rankings
               (JSMap.set (InsertMatch.rankingId matchData)
                  (merge_ranking ranking (data_requiresValidation false))) s).
  assert (E0 : after (updateRanking (InsertMatch.rankingId matchData)
                        (data_requiresValidation false)) s = s0).
  { unfold after. now rewrite (updateRanking_some s _ _ ranking Hr). }
  assert (Eo : at_once =
               after (updatePlayerRankingsForMatch (stored_approved id d))
                 (set_matches (JSMap.set id (stored_approved id d))
                    (set_matches (JSMap.set id (match_of id (with_status d approved)))
                       (set_matchIdCounter (id + 1) s0)))).
  { unfold at_once, create. rewrite E0.
    apply (post_api_matches_approved_explicit s0 user now matchData
             (merge_ranking ranking (data_requiresValidation false)) Hc Hne).
    - unfold s0. cbn [rankings set_rankings]. apply get_set_same.
    - reflexivity. }
  rewrite El, Eo. unfold s0.
  match goal with
  | |- playerRankings (after _ ?a) = playerRankings (after _ ?b) /\ _ =>
      destruct (sim_updatePlayerRankingsForMatch (stored_approved id d)
                  (stored_approved id d) eq_refl eq_refl eq_refl eq_refl a b)
        as [_ [Sp Sc]]; [split; reflexivity|];
      destruct (updatePlayerRankingsForMatch_frame (stored_approved id d) a)
        as (_ & _ & _ & Ma & _ & _ & _ & Ca);
      destruct (updatePlayerRankingsForMatch_frame (stored_approved id d) b)
        as (_ & _ & _ & Mb & _ & _ & _ & Cb)
  end.
  split; [exact Sp|]. split; [exact Sc|]. split.
  - rewrite Ma, Mb. cbn [matches set_matches set_matchIdCounter set_rankings].
    now rewrite !set_set.
  - rewrite Ca, Cb. reflexivity.
Qed.

Lemma approving_later_equals_approving_at_once_witness :
  playerRankings
    (after (validateMatch 2 true None)
       (after (post_api_matches (Some alice) 0 (inr (alice_vs_bob 1))) club_store)) =
  playerRankings
    (after (post_api_matches (Some alice) 0 (inr (alice_vs_bob 1)))
       (after (updateRanking 1 (data_requiresValidation false)) club_store)).
Proof.
  apply (approving_later_equals_approving_at_once club_store alice 0 (alice_vs_bob 1)
           club_ranking None); try reflexivity.
  vm_compute. discriminate.
Defined.
